(** * draft_helper.py: an interactive draft board

    A shallow embedding of [draft_helper.py] and the properties of its
    name normaliser, loader, ranking view, matcher, undo history and
    save command.

    Python [str] values are sequences of Unicode code points; they are
    modelled as lists of code points ([N]).  Column labels, which the
    program only ever compares with ASCII literals, are Rocq strings. *)

From Stdlib Require Import List String Ascii NArith QArith Bool Arith Lia.
From Stdlib Require Import Permutation Sorted.
Import ListNotations.
Close Scope Q_scope.

(** ** Python strings *)

Module PyStr.

Definition char := N.
Definition str := list char.

(** A literal of the source, as a sequence of code points. *)
Definition py (s : string) : str := map N_of_ascii (list_ascii_of_string s).

Definition in_range (lo hi c : N) : bool := (lo <=? c)%N && (c <=? hi)%N.

(** [str.isspace] on one code point; [\s] of [re], [str.strip] and
    [str.split] all use this same table. *)
Definition isspace (c : char) : bool :=
  in_range 9 13 c || in_range 28 32 c || (c =? 133)%N || (c =? 160)%N
  || (c =? 5760)%N || in_range 8192 8202 c || (c =? 8232)%N || (c =? 8233)%N
  || (c =? 8239)%N || (c =? 8287)%N || (c =? 12288)%N.

(** [[a-zA-Z]] *)
Definition is_ascii_letter (c : char) : bool :=
  in_range 65 90 c || in_range 97 122 c.

(** The decimal digits of Unicode 14 (category Nd) come in runs of ten,
    one run for each script: these are the code points of the zeros. *)
Definition decimal_zeros : list N :=
  [48; 1632; 1776; 1984; 2406; 2534; 2662; 2790; 2918; 3046; 3174; 3302;
   3430; 3558; 3664; 3792; 3872; 4160; 4240; 6112; 6160; 6470; 6608; 6784;
   6800; 6992; 7088; 7232; 7248; 42528; 43216; 43264; 43472; 43504; 43600;
   44016; 65296; 66720; 68912; 69734; 69872; 69942; 70096; 70384; 70736;
   70864; 71248; 71360; 71472; 71904; 72016; 72784; 73040; 73120; 92768;
   92864; 93008; 120782; 120792; 120802; 120812; 120822; 123200; 123632;
   125264; 130032]%N.

(** The value of a decimal digit, as [int] reads it. *)
Definition decimal_value (c : char) : option N :=
  match find (fun z => in_range z (z + 9) c) decimal_zeros with
  | Some z => Some (c - z)%N
  | None => None
  end.

(** The other characters [str.isdigit] accepts (Numeric_Type=Digit):
    superscripts, subscripts, circled digits and the like. *)
Definition other_digits : list (N * N) :=
  [(178, 179); (185, 185); (4969, 4977); (6618, 6618); (8304, 8304);
   (8308, 8313); (8320, 8329); (9312, 9320); (9332, 9340); (9352, 9360);
   (9450, 9450); (9461, 9469); (9471, 9471); (10102, 10110);
   (10112, 10120); (10122, 10130); (68160, 68163); (69216, 69224);
   (69714, 69722); (127232, 127242)]%N.

(** [str.isdigit] on one code point *)
Definition isdigit_char (c : char) : bool :=
  match decimal_value c with
  | Some _ => true
  | None => existsb (fun r => in_range (fst r) (snd r) c) other_digits
  end.

Definition apostrophe : char := 39%N.
Definition space : char := 32%N.

(** [str.lower].  At both call sites of the source the argument has
    already been reduced to ASCII letters, apostrophes and white space,
    where lowering is the shift of [A-Z] onto [a-z]. *)
Definition lower_char (c : char) : char :=
  if in_range 65 90 c then (c + 32)%N else c.

Definition lower (s : str) : str := map lower_char s.

Fixpoint dropwhile (p : char -> bool) (s : str) : str :=
  match s with
  | [] => []
  | c :: s' => if p c then dropwhile p s' else s
  end.

Fixpoint takewhile (p : char -> bool) (s : str) : str :=
  match s with
  | [] => []
  | c :: s' => if p c then c :: takewhile p s' else []
  end.

Definition lstrip (s : str) : str := dropwhile isspace s.
Definition rstrip (s : str) : str := rev (dropwhile isspace (rev s)).

(** [str.strip()] *)
Definition strip (s : str) : str := rstrip (lstrip s).

Definition emit (cur : str) (rest : list str) : list str :=
  match cur with
  | [] => rest
  | _ => cur :: rest
  end.

(** [split_go s cur]: the tokens of [s], [cur] being the token read so far. *)
Fixpoint split_go (s cur : str) : list str :=
  match s with
  | [] => emit cur []
  | c :: s' =>
      if isspace c then emit cur (split_go s' []) else split_go s' (cur ++ [c])
  end.

(** [str.split()] with no argument: maximal runs of non-space characters. *)
Definition split (s : str) : list str := split_go s [].

(** [sep.join(l)] *)
Fixpoint join (sep : str) (l : list str) : str :=
  match l with
  | [] => []
  | t :: rest =>
      match rest with
      | [] => t
      | _ => t ++ sep ++ join sep rest
      end
  end.

Fixpoint str_eqb (a b : str) : bool :=
  match a, b with
  | [], [] => true
  | x :: a', y :: b' => (x =? y)%N && str_eqb a' b'
  | _, _ => false
  end.

(** [s.startswith(p)] *)
Fixpoint startswith (p s : str) : bool :=
  match p, s with
  | [], _ => true
  | x :: p', y :: s' => (x =? y)%N && startswith p' s'
  | _ :: _, [] => false
  end.

(** [sub in s] *)
Fixpoint contains (sub s : str) : bool :=
  startswith sub s ||
  match s with
  | [] => false
  | _ :: s' => contains sub s'
  end.

(** [c in s] for one character *)
Definition has_char (c : char) (s : str) : bool := existsb (N.eqb c) s.

(** [parts[-1]] *)
Definition last_opt (l : list str) : option str :=
  match rev l with
  | [] => None
  | t :: _ => Some t
  end.

End PyStr.

Import PyStr.

(** ** The name normaliser *)

(** [re.sub(r"[^a-zA-Z'\s]", '', name)] keeps exactly these characters. *)
Definition name_char (c : char) : bool :=
  is_ascii_letter c || (c =? apostrophe)%N || isspace c.

Definition suffix_tokens : list str :=
  [py "jr"; py "sr"; py "ii"; py "iii"; py "iv"; py "v"].

Definition is_suffix_token (t : str) : bool :=
  existsb (str_eqb t) suffix_tokens.

Definition normalize_name (name : str) : str :=
  let n := lower (strip (filter name_char name)) in
  let toks := filter (fun t => negb (is_suffix_token t)) (split n) in
  join [space] toks.

Definition last_name (name : str) : str :=
  let n := normalize_name name in
  match last_opt (split n) with
  | Some t => t
  | None => n
  end.


(** ** Tables

    A [DataFrame] is a list of column labels and a list of rows; a row
    has its index label and its cells, keyed by column label.  A field
    that [read_csv] found empty is [VNaN]. *)

Inductive cell : Type :=
| VStr (s : str)
| VNum (x : Q)
| VNaN
| VBool (b : bool).

Record Row : Type := mkRow { label : nat; cells : list (string * cell) }.

Record DataFrame : Type := mkDF { columns : list string; rows : list Row }.

Inductive exn : Type :=
| ValueError
| KeyError (c : string)
| TypeError
| AttributeError
| EOFError
| IndexError.

Inductive result (A : Type) : Type :=
| Ok (a : A)
| Raise (e : exn).

Arguments Ok {A} a.
Arguments Raise {A} e.

Definition bind {A B : Type} (m : result A) (f : A -> result B) : result B :=
  match m with
  | Ok a => f a
  | Raise e => Raise e
  end.

Notation "x <- m ;; k" := (bind m (fun x => k))
  (at level 61, m at next level, right associativity).
Notation "' p <- m ;; k" := (bind m (fun x => match x with p => k end))
  (at level 61, p pattern, m at next level, right associativity).

Fixpoint mapM {A B : Type} (f : A -> result B) (l : list A) : result (list B) :=
  match l with
  | [] => Ok []
  | a :: l' => b <- f a ;; bs <- mapM f l' ;; Ok (b :: bs)
  end.

Open Scope string_scope.
Open Scope list_scope.

(** [c in df.columns] *)
Definition has_col (c : string) (cols : list string) : bool :=
  existsb (String.eqb c) cols.

Fixpoint assoc (c : string) (kvs : list (string * cell)) : option cell :=
  match kvs with
  | [] => None
  | (k, v) :: kvs' => if String.eqb c k then Some v else assoc c kvs'
  end.

(** The cell of row [r] in column [c]; a field the row lacks is empty. *)
Definition get (c : string) (r : Row) : cell :=
  match assoc c (cells r) with
  | Some v => v
  | None => VNaN
  end.

Fixpoint set_assoc (c : string) (v : cell) (kvs : list (string * cell))
  : list (string * cell) :=
  match kvs with
  | [] => [(c, v)]
  | (k, w) :: kvs' =>
      if String.eqb c k then (k, v) :: kvs' else (k, w) :: set_assoc c v kvs'
  end.

Definition set_cell (c : string) (v : cell) (r : Row) : Row :=
  mkRow (label r) (set_assoc c v (cells r)).

(** [idx in df.index] *)
Definition in_index (idx : nat) (df : DataFrame) : bool :=
  existsb (fun r => Nat.eqb (label r) idx) (rows df).

(** [df.loc[idx, c]] *)
Definition loc (idx : nat) (c : string) (df : DataFrame) : result cell :=
  if has_col c (columns df) then
    match find (fun r => Nat.eqb (label r) idx) (rows df) with
    | Some r => Ok (get c r)
    | None => Raise (KeyError c)
    end
  else Raise (KeyError c).

(** [df.loc[idx, c] = v] *)
Definition set_loc (idx : nat) (c : string) (v : cell) (df : DataFrame)
  : DataFrame :=
  mkDF (columns df)
       (map (fun r => if Nat.eqb (label r) idx then set_cell c v r else r)
            (rows df)).

(** The value a cell contributes to an ordering; [None] sorts last. *)
Definition num_of (v : cell) : option Q :=
  match v with
  | VNum x => Some x
  | VBool b => Some (if b then 1 else 0)%Q
  | _ => None
  end.

(** [precedes_desc a b]: [a] goes strictly before [b] in descending order. *)
Definition precedes_desc (a b : option Q) : bool :=
  match a, b with
  | Some x, Some y => negb (Qle_bool x y)
  | Some _, None => true
  | None, _ => false
  end.

Definition precedes_asc (a b : option Q) : bool :=
  match a, b with
  | Some x, Some y => negb (Qle_bool y x)
  | Some _, None => true
  | None, _ => false
  end.

Section Sorting.
Variable precedes : option Q -> option Q -> bool.
Variable key : string.

Fixpoint insert_row (x : Row) (l : list Row) : list Row :=
  match l with
  | [] => [x]
  | y :: l' =>
      if precedes (num_of (get key y)) (num_of (get key x))
      then y :: insert_row x l'
      else x :: l
  end.

(** Rows in the order of [precedes] on column [key]; rows without a
    number come last.  Rows with equal keys keep their order, as
    [nlargest] and [nsmallest] do with keep='first'; [sort_values] with
    its default quicksort leaves that order open. *)
Definition sort_rows (l : list Row) : list Row := fold_right insert_row [] l.
End Sorting.

(** ** Column types

    pandas keeps a dtype for every column.  [read_csv] infers it from the
    fields: a column is of dtype object when the file has no row, when
    some field is text, or when truth values stand beside other fields;
    otherwise it is numeric or boolean.  The program never adds a row and
    never changes a field other than the availability flag, so the dtype
    of a column of the pool can be read off its cells. *)

Definition is_text (v : cell) : bool :=
  match v with
  | VStr _ => true
  | _ => false
  end.

Definition is_flag (v : cell) : bool :=
  match v with
  | VBool _ => true
  | _ => false
  end.

Definition is_number (v : cell) : bool :=
  match v with
  | VNum _ => true
  | _ => false
  end.

Definition is_missing (v : cell) : bool :=
  match v with
  | VNaN => true
  | _ => false
  end.

(** The cells of a column of dtype object. *)
Definition object_values (vs : list cell) : bool :=
  match vs with
  | [] => true
  | _ => existsb is_text vs || (existsb is_flag vs && negb (forallb is_flag vs))
  end.

(** The columns [load_df] hands to [pd.to_numeric]: they are numeric from
    then on, also in a pool without rows. *)
Definition coerced_columns : list string := ["AdjPts"; "ProjPts"; "ADP"].

(** A column [nlargest]/[nsmallest] accept: one whose dtype is not
    object. *)
Definition numeric_col (c : string) (df : DataFrame) : bool :=
  let vs := map (get c) (rows df) in
  if has_col c coerced_columns then negb (existsb is_text vs)
  else negb (object_values vs).

(** The values the [.str] accessor accepts: once the missing ones are
    set aside, none is left, or they are not all numbers and not all
    truth values (pandas infers "empty", "string" or "mixed"). *)
Definition str_values (vs : list cell) : bool :=
  match filter (fun v => negb (is_missing v)) vs with
  | [] => true
  | present => negb (forallb is_flag present)
               && negb (forallb is_number present)
  end.

(** [avail[c].str] is granted: the column is of dtype object and the
    values of the selected rows pass; otherwise pandas raises
    AttributeError. *)
Definition str_accessor (c : string) (all avail : list Row) : bool :=
  object_values (map (get c) all) && str_values (map (get c) avail).

Definition select_n (precedes : option Q -> option Q -> bool)
    (n : nat) (c : string) (cols : list string) (all avail : list Row)
  : result (list Row) :=
  if negb (has_col c cols) then Raise (KeyError c)
  else if negb (numeric_col c (mkDF cols all)) then Raise TypeError
  else Ok (firstn n (sort_rows precedes c avail)).

(** [avail.nlargest(n, c)], where [avail] is a selection of the rows [all] *)
Definition nlargest := select_n precedes_desc.

(** [avail.nsmallest(n, c)] *)
Definition nsmallest := select_n precedes_asc.

(** ** Output *)

Inductive event : Type :=
| PrintLoaded (n : nat)
| PrintCommands (with_help : bool)
| PrintNoPlayers (pos : option str)
| PrintTop (n : nat) (pos : option str) (header : list string)
           (body : list (list cell))
| PrintNoMatch (query : str)
| PrintRemoved (name position team : cell)
| PrintMultiple (header : list string) (body : list (list cell))
| PrintEnterNumber
| PrintOutOfRange
| PrintUsageUndo
| PrintRestored (name position team : cell)
| PrintNothingToUndo
| PrintSaved (out : str)
| WriteCsv (out : str) (header : list string) (body : list (list cell))
| PrintBye.

(** ** Loading *)

Definition rename_map : list (string * string) :=
  [("Full Name", "Full Name"); ("Position", "Position");
   ("Team Abbrev", "Team"); ("Adjusted Projected Points", "AdjPts");
   ("Projected Fantasy Points", "ProjPts"); ("ADP", "ADP");
   ("Positional Rank", "PosRank"); ("Auction Value", "Auc$");
   ("Rank", "Rank"); ("ADP Trend", "ADP Trend")].

Fixpoint rename_label (m : list (string * string)) (k : string) : string :=
  match m with
  | [] => k
  | (a, b) :: m' => if String.eqb k a then b else rename_label m' k
  end.

(** [df.rename(columns=m)] *)
Definition rename (m : list (string * string)) (df : DataFrame) : DataFrame :=
  mkDF (map (rename_label m) (columns df))
       (map (fun r =>
               mkRow (label r)
                     (map (fun kv => (rename_label m (fst kv), snd kv))
                          (cells r)))
            (rows df)).

Definition display_columns : list string :=
  ["Full Name"; "Position"; "Team"; "AdjPts"; "ProjPts"; "ADP"; "PosRank";
   "Auc$"; "Rank"].

(** [df[keep]]: the columns named in [keep], in that order. *)
Definition select_columns (keep : list string) (df : DataFrame) : DataFrame :=
  mkDF (flat_map (fun c => filter (String.eqb c) (columns df)) keep)
       (map (fun r =>
               mkRow (label r)
                     (flat_map
                        (fun c => filter (fun kv => String.eqb c (fst kv))
                                         (cells r))
                        keep))
            (rows df)).

(** [df[c] = df[c].apply(f)] for a total [f] *)
Definition map_column (c : string) (f : cell -> cell) (df : DataFrame)
  : DataFrame :=
  mkDF (columns df)
       (map (fun r =>
               mkRow (label r)
                     (map (fun kv =>
                             if String.eqb c (fst kv)
                             then (fst kv, f (snd kv)) else kv)
                          (cells r)))
            (rows df)).

(** [reset_index(drop=True)]: the rows are relabelled 0, 1, 2, ... *)
Fixpoint relabel (i : nat) (l : list Row) : list Row :=
  match l with
  | [] => []
  | r :: l' => mkRow i (cells r) :: relabel (S i) l'
  end.

(** [normalize_name] and [last_name] run [re.sub] on their argument, which
    raises [TypeError] unless it is a string. *)
Definition apply_str (f : str -> str) (v : cell) : result cell :=
  match v with
  | VStr s => Ok (VStr (f s))
  | _ => Raise TypeError
  end.

Definition add_helpers (r : Row) : result Row :=
  nn <- apply_str normalize_name (get "Full Name" r) ;;
  ln <- apply_str last_name (get "Full Name" r) ;;
  Ok (mkRow (label r)
            (cells r ++ [("__name_norm", nn); ("__lname", ln);
                         ("__available", VBool true)])).

Section Loading.
(** The decimal a text field denotes for [pd.to_numeric], if any. *)
Variable parse_float : str -> option Q.

(** [pd.to_numeric(..., errors='coerce')] on one cell *)
Definition to_numeric (v : cell) : cell :=
  match v with
  | VStr s => match parse_float s with
              | Some x => VNum x
              | None => VNaN
              end
  | _ => v
  end.

Definition coerce_numeric (df : DataFrame) : DataFrame :=
  fold_left
    (fun d col => if has_col col (columns d)
                  then map_column col to_numeric d else d)
    coerced_columns df.

(** [load_df], from the table [read_csv] returned.  Reading the file
    is left to pandas; a file that cannot be read raises there, before
    any of this runs. *)
Definition load_df (raw : DataFrame) : result (DataFrame * string) :=
  let cols := filter (fun kv => has_col (fst kv) (columns raw)) rename_map in
  let df := rename cols raw in
  let keep := filter (fun c => has_col c (columns df)) display_columns in
  let df := select_columns keep df in
  sort_key <-
    (if has_col "AdjPts" (columns df) then Ok "AdjPts"
     else if has_col "ProjPts" (columns df) then Ok "ProjPts"
     else Raise ValueError) ;;
  let df := coerce_numeric df in
  let df := mkDF (columns df)
                 (relabel 0 (sort_rows precedes_desc sort_key (rows df))) in
  if negb (has_col "Full Name" (columns df)) then Raise (KeyError "Full Name")
  else
    rs <- mapM add_helpers (rows df) ;;
    Ok (mkDF (columns df ++ ["__name_norm"; "__lname"; "__available"]) rs,
        sort_key).
End Loading.

(** ** The pool's helper columns *)

Definition is_available (r : Row) : bool :=
  match get "__available" r with
  | VBool b => b
  | _ => false
  end.

(** [df[df['__available']]] *)
Definition available_rows (df : DataFrame) : list Row :=
  filter is_available (rows df).

Definition project (cols : list string) (l : list Row) : list (list cell) :=
  map (fun r => map (fun c => get c r) cols) l.

(** [if pos:] *)
Definition truthy (pos : option str) : bool :=
  match pos with
  | Some (_ :: _) => true
  | _ => false
  end.

(** [sel.isdigit()] *)
Definition isdigit (s : str) : bool :=
  match s with
  | [] => false
  | _ => forallb isdigit_char s
  end.

(** [sys.get_int_max_str_digits()], the default of Python 3.11 *)
Definition int_max_str_digits : nat := 4300.

Definition digit_of (c : char) : N :=
  match decimal_value c with
  | Some d => d
  | None => 0%N
  end.

(** [int(sel)], for the strings [isdigit] accepts (the program converts
    no other): the number the decimal digits denote; ValueError when a
    character is a digit without being a decimal digit, and when there
    are more than 4300 digits. *)
Definition int_of (s : str) : result N :=
  if forallb (fun c => match decimal_value c with
                       | Some _ => true
                       | None => false
                       end) s
     && Nat.leb (List.length s) int_max_str_digits
  then Ok (fold_left (fun acc c => (10 * acc + digit_of c)%N) s 0%N)
  else Raise ValueError.

(** [re.sub(r"[^a-zA-Z]", '', q).lower()] *)
Definition letters_only (q : str) : str := lower (filter is_ascii_letter q).

(** [cmd.split(None, 1)[1].strip()] *)
Definition after_first_word (cmd : str) : result str :=
  let rest :=
    dropwhile isspace (dropwhile (fun c => negb (isspace c)) (lstrip cmd)) in
  match rest with
  | [] => Raise IndexError
  | _ => Ok (strip rest)
  end.

(** The three outcomes of matching a query, as [mark_drafted] tells them
    apart: no candidate, one candidate, several candidates. *)
Inductive MatchResult : Type :=
| NoMatch
| Unique (r : Row)
| Ambiguous (cands : list Row).

Definition norm_contains (qn : str) (r : Row) : bool :=
  match get "__name_norm" r with
  | VStr s => contains qn s
  | _ => false
  end.

Definition lname_is (ql : str) (r : Row) : bool :=
  match get "__lname" r with
  | VStr s => str_eqb s ql
  | _ => false
  end.

Definition position_codes : list str :=
  [py "QB"; py "RB"; py "WR"; py "TE"; py "K"; py "DST"].

Definition helper_columns : list string :=
  ["__name_norm"; "__lname"; "__available"].

(** [del df[c]] *)
Definition drop_column (c : string) (df : DataFrame) : DataFrame :=
  mkDF (filter (fun k => negb (String.eqb c k)) (columns df))
       (map (fun r =>
               mkRow (label r)
                     (filter (fun kv => negb (String.eqb c (fst kv)))
                             (cells r)))
            (rows df)).

(** The table the save command hands to [to_csv]. *)
Definition save_table (df : DataFrame) : DataFrame :=
  fold_left
    (fun d c => if has_col c (columns d) then drop_column c d else d)
    helper_columns (mkDF (columns df) (available_rows df)).

(** The save command: the pool it leaves and what it emits. *)
Definition save (df : DataFrame) (out : str) : DataFrame * list event :=
  let avail := save_table df in
  (df, [WriteCsv out (columns avail) (project (columns avail) (rows avail));
        PrintSaved out]).

(** The body of both removal paths: flag the row, then report it. *)
Definition remove_row (df : DataFrame) (idx : nat)
  : result (DataFrame * event) :=
  let df' := set_loc idx "__available" (VBool false) df in
  name <- loc idx "Full Name" df' ;;
  position <- loc idx "Position" df' ;;
  team <- loc idx "Team" df' ;;
  Ok (df', PrintRemoved name position team).

(** The selection prompt of [mark_drafted]; [inputs] are the lines still
    to be read from the console. *)
Fixpoint prompt (df : DataFrame) (tmp : list Row) (inputs : list str)
  : result (DataFrame * nat * list event * list str) :=
  match inputs with
  | [] => Raise EOFError
  | line :: rest =>
      let sel := strip line in
      if negb (isdigit sel) then
        ' (df', idx, out, rest') <- prompt df tmp rest ;;
        Ok (df', idx, PrintEnterNumber :: out, rest')
      else
        sel_num <- int_of sel ;;
        if (1 <=? sel_num)%N && (sel_num <=? N.of_nat (List.length tmp))%N then
          match nth_error tmp (N.to_nat sel_num - 1) with
          | Some r =>
              ' (df', ev) <- remove_row df (label r) ;;
              Ok (df', label r, [ev], rest)
          | None => Raise IndexError
          end
        else
          ' (df', idx, out, rest') <- prompt df tmp rest ;;
          Ok (df', idx, PrintOutOfRange :: out, rest')
  end.

(** The undo loop.  [stack] is the history with its last element first,
    the order in which [history.pop()] hands the entries out. *)
Fixpoint undo_loop (stack : list nat) (count : N) (df : DataFrame)
    (restored : nat) (out : list event)
  : result (list nat * DataFrame * nat * list event) :=
  match stack with
  | [] => Ok (stack, df, restored, out)
  | idx :: stack' =>
      if (0 <? count)%N then
        if in_index idx df
           && negb (match loc idx "__available" df with
                    | Ok (VBool b) => b
                    | _ => false
                    end)
        then
          let df' := set_loc idx "__available" (VBool true) df in
          name <- loc idx "Full Name" df' ;;
          position <- loc idx "Position" df' ;;
          team <- loc idx "Team" df' ;;
          undo_loop stack' (count - 1) df' (S restored)
                    (out ++ [PrintRestored name position team])
        else undo_loop stack' (count - 1) df restored out
      else Ok (stack, df, restored, out)
  end.

Section Commands.
(** [str.upper] and [str.isalpha], the tables of the Unicode database. *)
Variable upper : str -> str.
Variable isalpha : char -> bool.

(** [avail['Position'].str.upper() == pos.upper()] on one row, once
    the accessor is granted: a cell that is not text gives NaN, which
    equals nothing. *)
Definition position_is (pos : str) (r : Row) : bool :=
  match get "Position" r with
  | VStr s => str_eqb (upper s) (upper pos)
  | _ => false
  end.

(** The frame [top] that [show_top] computes. *)
Definition top_rows (df : DataFrame) (sort_key : string) (n : nat)
    (pos : option str) : result (list Row) :=
  let avail := available_rows df in
  avail <-
    (if truthy pos then
       if has_col "Position" (columns df)
       then
         if str_accessor "Position" (rows df) avail
         then Ok (filter (position_is (match pos with
                                       | Some p => p
                                       | None => []
                                       end)) avail)
         else Raise AttributeError
       else Raise (KeyError "Position")
     else Ok avail) ;;
  if truthy pos then nlargest n sort_key (columns df) (rows df) avail
  else if has_col "Rank" (columns df)
       then nsmallest n "Rank" (columns df) (rows df) avail
       else nlargest n sort_key (columns df) (rows df) avail.

Definition show_top (df : DataFrame) (sort_key : string) (n : nat)
    (pos : option str) : result (list event) :=
  top <- top_rows df sort_key n pos ;;
  let shown := if truthy pos then pos else None in
  match top with
  | [] => Ok [PrintNoPlayers shown]
  | _ =>
      let display_cols :=
        filter (fun c => has_col c (columns df))
               ["Full Name"; "Position"; "Team"; sort_key; "ADP"; "PosRank";
                "Rank"] in
      Ok [PrintTop n shown display_cols (project display_cols top)]
  end.

(** The candidate frame of [mark_drafted]. *)
Definition candidates (df : DataFrame) (query : str) : list Row :=
  let q := strip query in
  let first :=
    if has_char space q && existsb isalpha q
    then Some (filter (fun r => is_available r
                                && norm_contains (normalize_name q) r)
                      (rows df))
    else None in
  match first with
  | Some (r :: c) => r :: c
  | _ =>
      let ql := letters_only q in
      filter (fun r => is_available r && lname_is ql r) (rows df)
  end.

Definition resolve (df : DataFrame) (query : str) : MatchResult :=
  match candidates df query with
  | [] => NoMatch
  | [r] => Unique r
  | c => Ambiguous c
  end.

(** [mark_drafted]: the pool afterwards, the index returned, the lines
    printed, and the console input left unread. *)
Definition mark_drafted (df : DataFrame) (query : str) (inputs : list str)
  : result (DataFrame * option nat * list event * list str) :=
  match resolve df query with
  | NoMatch => Ok (df, None, [PrintNoMatch query], inputs)
  | Unique r =>
      ' (df', ev) <- remove_row df (label r) ;;
      Ok (df', Some (label r), [ev], inputs)
  | Ambiguous cands =>
      let display_cols :=
        filter (fun c => has_col c (columns df))
               ["Full Name"; "Position"; "Team"; "AdjPts"; "ProjPts"; "ADP";
                "PosRank"] in
      ' (df', idx, out, rest) <- prompt df cands inputs ;;
      Ok (df', Some idx,
          PrintMultiple display_cols (project display_cols cands) :: out,
          rest)
  end.

(** The removal command: [mark_drafted], the push, the redisplay. *)
Definition remove (df : DataFrame) (sort_key : string) (history : list nat)
    (query : str) (inputs : list str)
  : result (DataFrame * list nat * list event * list str) :=
  ' (df', idx, out, rest) <- mark_drafted df query inputs ;;
  let history' := match idx with
                  | Some i => history ++ [i]
                  | None => history
                  end in
  top <- show_top df' sort_key 3 None ;;
  Ok (df', history', out ++ top, rest).

(** The undo command, once [count] is known. *)
Definition undo (df : DataFrame) (sort_key : string) (history : list nat)
    (count : N) : result (DataFrame * list nat * list event) :=
  ' (stack, df', restored, out) <- undo_loop (rev history) count df 0 [] ;;
  let out := if Nat.eqb restored 0 then out ++ [PrintNothingToUndo]
             else out in
  top <- show_top df' sort_key 3 None ;;
  Ok (df', rev stack, out ++ top).

Definition in_strs (s : str) (l : list str) : bool := existsb (str_eqb s) l.

(** The command loop; [fuel] bounds the number of commands read. *)
Fixpoint main_loop (fuel : nat) (df : DataFrame) (sort_key : string)
    (history : list nat) (inputs : list str) (out : list event)
  : option (result (DataFrame * list nat * list event)) :=
  match fuel with
  | O => None
  | S fuel' =>
      match inputs with
      | [] => Some (Ok (df, history, out ++ [PrintBye]))
      | line :: rest =>
          let cmd := strip line in
          let up := upper cmd in
          let again df' history' rest' evs :=
            main_loop fuel' df' sort_key history' rest' (out ++ evs) in
          let step (r : result (DataFrame * list nat * list event * list str)) :=
            match r with
            | Ok (df', history', evs, rest') => again df' history' rest' evs
            | Raise e => Some (Raise e)
            end in
          let show n pos :=
            step (evs <- show_top df sort_key n pos ;;
                  Ok (df, history, evs, rest)) in
          match cmd with
          | [] => again df history rest []
          | _ =>
              if in_strs up position_codes then show 5 (Some up)
              else if str_eqb up (py "TOP") then show 3 None
              else if startswith (py "LIST ") up then
                step (pos <- after_first_word up ;;
                      evs <- show_top df sort_key 5 (Some pos) ;;
                      Ok (df, history, evs, rest))
              else if str_eqb up (py "UNDO") || startswith (py "UNDO ") up
              then
                if startswith (py "UNDO ") up then
                  step (arg <- after_first_word cmd ;;
                        if isdigit arg then
                          count <- int_of arg ;;
                          ' (df', history', evs) <-
                            undo df sort_key history count ;;
                          Ok (df', history', evs, rest)
                        else Ok (df, history, [PrintUsageUndo], rest))
                else
                  step (' (df', history', evs) <-
                          undo df sort_key history 1 ;;
                        Ok (df', history', evs, rest))
              else if startswith (py "REMOVE ") up
                      || startswith (py "RM ") up then
                step (q <- after_first_word cmd ;;
                      remove df sort_key history q rest)
              else if startswith (py "SAVE ") up then
                step (dest <- after_first_word cmd ;;
                      Ok (fst (save df dest), history, snd (save df dest),
                          rest))
              else if in_strs up [py "HELP"; py "H"; py "?"] then
                again df history rest [PrintCommands false]
              else if in_strs up [py "QUIT"; py "EXIT"; py "Q"] then
                Some (Ok (df, history, out ++ [PrintBye]))
              else step (remove df sort_key history cmd rest)
          end
      end
  end.

Section Main.
Variable parse_float : str -> option Q.

(** [main], from the table [read_csv] returned and the console input.
    Every command reads at least one line, so one unit of fuel per
    line and one for the end of input are enough. *)
Definition main (raw : DataFrame) (inputs : list str)
  : option (result (DataFrame * list nat * list event)) :=
  match load_df parse_float raw with
  | Raise e => Some (Raise e)
  | Ok (df, sort_key) =>
      match show_top df sort_key 3 None with
      | Raise e => Some (Raise e)
      | Ok top =>
          main_loop (S (List.length inputs)) df sort_key [] inputs
                    ([PrintLoaded (List.length (rows df)); PrintCommands true]
                       ++ top)
      end
  end.
End Main.
End Commands.

(** ** Predicates used in the statements *)

(** A token of [split]: not empty and without white space. *)
Definition token (t : str) : Prop :=
  t <> [] /\ forallb (fun c => negb (isspace c)) t = true.

(** A character of normalised text: kept by the filter, already lowered. *)
Definition settled (c : char) : Prop :=
  name_char c = true /\ lower_char c = c.

(** The tokens [normalize_name] joins. *)
Definition name_tokens (name : str) : list str :=
  filter (fun t => negb (is_suffix_token t))
         (split (lower (strip (filter name_char name)))).

(** The helper cells of a row are those [load_df] computes from its name. *)
Definition helpers_ok (r : Row) : bool :=
  match get "Full Name" r, get "__name_norm" r, get "__lname" r,
        get "__available" r with
  | VStr s, VStr n, VStr l, VBool _ =>
      str_eqb n (normalize_name s) && str_eqb l (last_name s)
  | _, _, _, _ => false
  end.

Fixpoint distinct (l : list nat) : bool :=
  match l with
  | [] => true
  | x :: l' => negb (existsb (Nat.eqb x) l') && distinct l'
  end.

(** The shape of every pool [load_df] returns: the helper columns are
    there, index labels are distinct, each row carries its helper cells. *)
Definition well_formed (df : DataFrame) : bool :=
  forallb (fun c => has_col c (columns df)) helper_columns
  && distinct (map label (rows df)) && forallb helpers_ok (rows df).

(** The columns a removal or restoration reports. *)
Definition reportable (df : DataFrame) : bool :=
  has_col "Full Name" (columns df) && has_col "Position" (columns df)
  && has_col "Team" (columns df).

(** The overall ranking view can be computed. *)
Definition rankable (df : DataFrame) (sort_key : string) : bool :=
  if has_col "Rank" (columns df) then numeric_col "Rank" df
  else has_col sort_key (columns df) && numeric_col sort_key df.

(** The columns [save] writes: all but the helper columns. *)
Definition public_columns (df : DataFrame) : list string :=
  filter (fun c => negb (has_col c helper_columns)) (columns df).

(** A file has a points column under its export name or its short name. *)
Definition has_points (cols : list string) : bool :=
  has_col "Adjusted Projected Points" cols || has_col "AdjPts" cols
  || has_col "Projected Fantasy Points" cols || has_col "ProjPts" cols.

(** Every name field of the file holds text. *)
Definition names_are_text (raw : DataFrame) : bool :=
  forallb (fun r => match get "Full Name" r with
                    | VStr _ => true
                    | _ => false
                    end) (rows raw).


(** ** Kinds of output line *)

Definition is_restored (ev : event) : bool :=
  match ev with
  | PrintRestored _ _ _ => true
  | _ => false
  end.

Definition is_view (ev : event) : bool :=
  match ev with
  | PrintNoPlayers _ | PrintTop _ _ _ _ => true
  | _ => false
  end.

(** ** Stages of [load_df] *)

(** The frame after the renaming and the selection of columns. *)
Definition kept_frame (raw : DataFrame) : DataFrame :=
  let cols := filter (fun kv => has_col (fst kv) (columns raw)) rename_map in
  let df := rename cols raw in
  select_columns (filter (fun c => has_col c (columns df)) display_columns) df.

(** The frame after coercion, sorting and relabelling. *)
Definition sorted_frame (parse_float : str -> option Q) (sort_key : string)
    (raw : DataFrame) : DataFrame :=
  let df := coerce_numeric parse_float (kept_frame raw) in
  mkDF (columns df) (relabel 0 (sort_rows precedes_desc sort_key (rows df))).

Fixpoint distinct_labels (l : list string) : bool :=
  match l with
  | [] => true
  | c :: l' => negb (has_col c l') && distinct_labels l'
  end.

(** No two columns of the file end up under one label.  pandas refuses
    several steps of [load_df] on a frame with a repeated label; the model
    is meant for files that satisfy this. *)
Definition unambiguous (raw : DataFrame) : bool :=
  distinct_labels (map (rename_label rename_map) (columns raw)).

(** The row has a text cell under "Full Name". *)
Definition named (kvs : list (string * cell)) : Prop :=
  exists s, assoc "Full Name" kvs = Some (VStr s).

(** Every key of the row is one of the display columns. *)
Definition display_keys (kvs : list (string * cell)) : Prop :=
  Forall (fun kv => In (fst kv) display_columns) kvs.

(** What the rows of the kept frame need for the helper columns: a text
    name, and no key outside the display columns. *)
Definition loadable (r : Row) : Prop :=
  named (cells r) /\ display_keys (cells r).

(** ** Further predicates *)

(** A line the selection prompt turns down when it shows [k] candidates:
    not a string of digits, or a number outside 1..k. *)
Definition invalid_selection (k : nat) (line : str) : bool :=
  negb (isdigit (strip line))
  || match int_of (strip line) with
     | Ok n => negb ((1 <=? n)%N && (n <=? N.of_nat k)%N)
     | Raise _ => false
     end.

(** A line of digits that [int] refuses: one of them is not a decimal
    digit, or there are more than 4300. *)
Definition refused_by_int (line : str) : bool :=
  isdigit (strip line)
  && match int_of (strip line) with
     | Ok _ => false
     | Raise _ => true
     end.

(** What the prompt prints on a line it turns down. *)
Definition correction (line : str) : event :=
  if negb (isdigit (strip line)) then PrintEnterNumber else PrintOutOfRange.

(** The test of the undo loop on the entry it has popped:
    [idx in df.index and not bool(df.loc[idx, '__available'])]. *)
Definition is_drafted (idx : nat) (df : DataFrame) : bool :=
  in_index idx df
  && negb (match loc idx "__available" df with
           | Ok (VBool b) => b
           | _ => false
           end).

(** The entries [undo] pops, in the order in which it pops them: the
    last [count] entries of the history, the latest first. *)
Definition popped (history : list nat) (count : N) : list nat :=
  firstn (N.to_nat count) (rev history).

(** Every availability cell is a truth value. *)
Definition flagged (df : DataFrame) : bool :=
  forallb (fun r => is_flag (get "__available" r)) (rows df).

(** The history holds exactly the labels of the drafted rows, each once,
    and every entry is a label of the index. *)
Definition tracked (df : DataFrame) (history : list nat) : bool :=
  distinct history
  && forallb (fun r => Bool.eqb (negb (is_available r))
                                (existsb (Nat.eqb (label r)) history))
             (rows df)
  && forallb (fun i => in_index i df) history.

(** [df[~df['__available']]]: the drafted rows. *)
Definition drafted_rows (df : DataFrame) : list Row :=
  filter (fun r => negb (is_available r)) (rows df).

(** A row without its availability cell. *)
Definition profile (r : Row) : nat * list (string * cell) :=
  (label r,
   filter (fun kv => negb (String.eqb "__available" (fst kv))) (cells r)).

(** Two pools with the same columns and the same rows, in the same order,
    up to the availability flags. *)
Definition same_players (df df' : DataFrame) : Prop :=
  columns df' = columns df /\ map profile (rows df') = map profile (rows df).

(** In the order of [precedes] on column [key], [a] does not come after
    [b]. *)
Definition not_after (precedes : option Q -> option Q -> bool) (key : string)
    (a b : Row) : Prop :=
  precedes (num_of (get key b)) (num_of (get key a)) = false.

(** A cell that is not text. *)
Definition no_text (v : cell) : bool := negb (is_text v).
(** ** Sample data *)

Module Sample.

Definition upper_char (c : char) : char :=
  if in_range 97 122 c then (c - 32)%N else c.

(** [str.upper] and [str.isalpha] on ASCII text. *)
Definition ascii_upper (s : str) : str := map upper_char s.
Definition ascii_isalpha (c : char) : bool := is_ascii_letter c.

Definition no_parse (s : str) : option Q := None.

Definition player (name pos team : string) (pts rank : Q) : Row :=
  mkRow 0 [("Full Name", VStr (py name)); ("Position", VStr (py pos));
           ("Team Abbrev", VStr (py team));
           ("Adjusted Projected Points", VNum pts); ("Rank", VNum rank)].

Definition export_columns : list string :=
  ["Full Name"; "Position"; "Team Abbrev"; "Adjusted Projected Points";
   "Rank"].

Definition raw : DataFrame :=
  mkDF export_columns
       [player "Aaron Jones" "RB" "MIN" 210 3;
        player "Patrick Mahomes" "QB" "KC" 350 1;
        player "Daniel Jones" "QB" "NYG" 250 4;
        player "Pat O'Brien" "WR" "LAR" 100 5;
        player "Jim Obrien" "rb" "DAL" 300 2].

Definition loaded (raw : DataFrame) : DataFrame :=
  match load_df no_parse raw with
  | Ok (df, _) => df
  | Raise _ => mkDF [] []
  end.

(** Rows 0..4: Mahomes, Obrien, D. Jones, A. Jones, O'Brien. *)
Definition pool : DataFrame := Eval vm_compute in loaded raw.

Definition mahomes : Row := Eval vm_compute in nth 0 (rows pool) (mkRow 0 []).
Definition jim_obrien : Row := Eval vm_compute in nth 1 (rows pool) (mkRow 0 []).
Definition djones : Row := Eval vm_compute in nth 2 (rows pool) (mkRow 0 []).
Definition ajones : Row := Eval vm_compute in nth 3 (rows pool) (mkRow 0 []).
Definition pat_obrien : Row := Eval vm_compute in nth 4 (rows pool) (mkRow 0 []).

(** The pool once Aaron Jones has been drafted. *)
Definition pool_without_ajones : DataFrame :=
  Eval vm_compute in set_loc 3 "__available" (VBool false) pool.

(** A file without a position column. *)
Definition raw_no_position : DataFrame :=
  mkDF ["Full Name"; "Adjusted Projected Points"]
       [mkRow 0 [("Full Name", VStr (py "Aaron Jones"));
                 ("Adjusted Projected Points", VNum 210)]].

(** A file without any points column. *)
Definition raw_no_points : DataFrame :=
  mkDF ["Full Name"; "Position"]
       [mkRow 0 [("Full Name", VStr (py "Aaron Jones"));
                 ("Position", VStr (py "RB"))]].

(** A complete file in which one name field is empty. *)
Definition raw_empty_name : DataFrame :=
  mkDF export_columns
       [player "Aaron Jones" "RB" "MIN" 210 1;
        mkRow 1 [("Full Name", VNaN); ("Position", VStr (py "RB"));
                 ("Team Abbrev", VStr (py "DAL"));
                 ("Adjusted Projected Points", VNum 100);
                 ("Rank", VNum 2)]].

(** Seven running backs, one of them spelled in lower case, and a
    quarterback. *)
Definition raw_backs : DataFrame :=
  mkDF export_columns
       [player "Back One" "RB" "A" 10 8; player "Back Two" "RB" "B" 20 7;
        player "Back Three" "rb" "C" 30 6; player "Back Four" "RB" "D" 40 5;
        player "Passer" "QB" "E" 99 1; player "Back Five" "RB" "F" 50 4;
        player "Back Six" "RB" "G" 60 3; player "Back Seven" "RB" "H" 70 2].

Definition backs : DataFrame := Eval vm_compute in loaded raw_backs.

(** The pool loaded from the file without a position column. *)
Definition pool_no_position : DataFrame :=
  Eval vm_compute in loaded raw_no_position.

End Sample.

(** ** Further sample data *)

Module Cases.

(** A file whose Rank column was read as text: one field is a tie. *)
Definition ranked (name pos team : string) (pts : Q) (rank : string)
  : Row :=
  mkRow 0 [("Full Name", VStr (py name)); ("Position", VStr (py pos));
           ("Team Abbrev", VStr (py team));
           ("Adjusted Projected Points", VNum pts);
           ("Rank", VStr (py rank))].

Definition raw_text_rank : DataFrame :=
  mkDF Sample.export_columns
       [ranked "Aaron Jones" "RB" "MIN" 210 "T-2";
        ranked "Patrick Mahomes" "QB" "KC" 350 "1"].

Definition pool_text_rank : DataFrame :=
  Eval vm_compute in Sample.loaded raw_text_rank.

(** A file with a header and no row. *)
Definition raw_header_only : DataFrame := mkDF Sample.export_columns [].

Definition pool_header_only : DataFrame :=
  Eval vm_compute in Sample.loaded raw_header_only.

(** A file whose position fields are numbers. *)
Definition numbered (name : string) (pos pts : Q) : Row :=
  mkRow 0 [("Full Name", VStr (py name)); ("Position", VNum pos);
           ("Adjusted Projected Points", VNum pts)].

Definition raw_numbered : DataFrame :=
  mkDF ["Full Name"; "Position"; "Adjusted Projected Points"]
       [numbered "Aaron Jones" 2 210; numbered "Patrick Mahomes" 1 350].

Definition pool_numbered : DataFrame :=
  Eval vm_compute in Sample.loaded raw_numbered.




(** The sample pool once every player has been drafted. *)
Definition pool_all_drafted : DataFrame :=
  Eval vm_compute in
    fold_left (fun d i => set_loc i "__available" (VBool false) d)
              [0; 1; 2; 3; 4] Sample.pool.

(** A session at the console: two removals and an undo. *)
Definition session : list str :=
  [py "aaron jones"; py "mahomes"; py "undo"].

End Cases.

(** * Properties *)

(** ** Strings *)

Lemma str_eqb_eq (a b : str) : str_eqb a b = true <-> a = b.
Proof.
  revert b; induction a as [|x a IH]; intros [|y b]; simpl; split;
    try congruence; try reflexivity.
  - intros H. apply andb_true_iff in H as [Hx Hab].
    apply N.eqb_eq in Hx. apply IH in Hab. congruence.
  - intros H. injection H as -> ->. rewrite N.eqb_refl. simpl. now apply IH.
Qed.

Lemma str_eqb_refl (a : str) : str_eqb a a = true.
Proof. now apply str_eqb_eq. Qed.

Lemma takewhile_dropwhile (p : char -> bool) (s : str) :
  takewhile p s ++ dropwhile p s = s.
Proof.
  induction s as [|c s IH]; simpl; [reflexivity|].
  destruct (p c); simpl; [now rewrite IH | reflexivity].
Qed.

Lemma takewhile_all (p : char -> bool) (s : str) :
  forallb p (takewhile p s) = true.
Proof.
  induction s as [|c s IH]; simpl; [reflexivity|].
  destruct (p c) eqn:E; simpl; [now rewrite E | reflexivity].
Qed.

Lemma dropwhile_Forall (P : char -> Prop) (p : char -> bool) (s : str) :
  Forall P s -> Forall P (dropwhile p s).
Proof.
  induction 1 as [|c s Hc Hs IH]; simpl; [constructor|].
  destruct (p c); [exact IH | now constructor].
Qed.

Lemma strip_Forall (P : char -> Prop) (s : str) :
  Forall P s -> Forall P (strip s).
Proof.
  intros H. unfold strip, rstrip, lstrip.
  apply Forall_rev, dropwhile_Forall, Forall_rev, dropwhile_Forall, H.
Qed.

(** What [rstrip] removes is a run of white space. *)
Lemma rstrip_decompose (s : str) :
  exists ws, forallb isspace ws = true /\ s = rstrip s ++ ws.
Proof.
  exists (rev (takewhile isspace (rev s))). split.
  - rewrite forallb_forall. intros c Hc. apply in_rev in Hc.
    pose proof (takewhile_all isspace (rev s)) as H.
    rewrite forallb_forall in H. now apply H.
  - unfold rstrip. rewrite <- rev_app_distr, takewhile_dropwhile.
    now rewrite rev_involutive.
Qed.

Lemma split_go_spaces (ws cur : str) :
  forallb isspace ws = true -> split_go ws cur = emit cur [].
Proof.
  revert cur; induction ws as [|c ws IH]; intros cur H; simpl in *;
    [reflexivity|].
  apply andb_true_iff in H as [Hc Hws]. rewrite Hc.
  now rewrite (IH [] Hws).
Qed.

Lemma split_go_app_spaces (s ws cur : str) :
  forallb isspace ws = true -> split_go (s ++ ws) cur = split_go s cur.
Proof.
  intros Hws. revert cur; induction s as [|c s IH]; intros cur; simpl.
  - now apply split_go_spaces.
  - destruct (isspace c); now rewrite IH.
Qed.

Lemma split_lstrip (s : str) : split (lstrip s) = split s.
Proof.
  unfold split, lstrip. induction s as [|c s IH]; simpl; [reflexivity|].
  destruct (isspace c) eqn:E; simpl; [exact IH | now rewrite E].
Qed.

Lemma split_rstrip (s : str) : split (rstrip s) = split s.
Proof.
  destruct (rstrip_decompose s) as (ws & Hws & Hs).
  rewrite Hs at 2. unfold split. now rewrite split_go_app_spaces.
Qed.

(** [strip] before [split] changes nothing. *)
Lemma split_strip (s : str) : split (strip s) = split s.
Proof. unfold strip. now rewrite split_rstrip, split_lstrip. Qed.

Lemma split_go_tokens (s cur : str) :
  forallb (fun c => negb (isspace c)) cur = true ->
  Forall token (split_go s cur).
Proof.
  revert cur; induction s as [|c s IH]; intros cur Hcur; simpl.
  - destruct cur; simpl; constructor; [|constructor].
    split; [discriminate | exact Hcur].
  - destruct (isspace c) eqn:E.
    + destruct cur; simpl; [now apply IH|].
      constructor; [split; [discriminate | exact Hcur] | now apply IH].
    + apply IH. rewrite forallb_app, Hcur. simpl. now rewrite E.
Qed.

Lemma split_tokens (s : str) : Forall token (split s).
Proof. now apply split_go_tokens. Qed.

Lemma split_go_chars (P : char -> Prop) (s cur : str) :
  Forall P s -> Forall P cur -> Forall (Forall P) (split_go s cur).
Proof.
  intros Hs; revert cur; induction Hs as [|c s Hc Hs IH]; intros cur Hcur;
    simpl.
  - destruct cur; simpl; [constructor | constructor; [assumption | constructor]].
  - destruct (isspace c).
    + destruct cur; simpl; [now apply IH|].
      constructor; [assumption | now apply IH].
    + apply IH. apply Forall_app. split; [assumption | now repeat constructor].
Qed.

Lemma split_go_token (t rest cur : str) :
  forallb (fun c => negb (isspace c)) t = true ->
  split_go (t ++ rest) cur = split_go rest (cur ++ t).
Proof.
  revert cur; induction t as [|c t IH]; intros cur H; simpl in *.
  - now rewrite app_nil_r.
  - apply andb_true_iff in H as [Hc Ht]. apply negb_true_iff in Hc.
    rewrite Hc, IH by assumption. now rewrite <- app_assoc.
Qed.

(** [split] undoes [join] on tokens. *)
Lemma split_join (toks : list str) :
  Forall token toks -> split (join [space] toks) = toks.
Proof.
  unfold split. induction 1 as [|t rest [Hne Hns] Hrest IH]; [reflexivity|].
  cbn [join]. destruct rest as [|t' rest'].
  - rewrite <- (app_nil_r t) at 1. rewrite split_go_token by assumption.
    simpl. destruct t; [contradiction | reflexivity].
  - rewrite split_go_token by assumption. cbn [app split_go].
    change (isspace space) with true. cbv iota.
    rewrite IH. destruct t; [contradiction | reflexivity].
Qed.

Lemma join_Forall (P : char -> Prop) (sep : str) (toks : list str) :
  Forall P sep -> Forall (Forall P) toks -> Forall P (join sep toks).
Proof.
  intros Hsep. induction 1 as [|t rest Ht Hrest IH]; simpl; [constructor|].
  destruct rest; [assumption|].
  apply Forall_app; split; [assumption|]. apply Forall_app; now split.
Qed.

Lemma filter_all {A : Type} (f : A -> bool) (l : list A) :
  Forall (fun x => f x = true) l -> filter f l = l.
Proof.
  induction 1 as [|x l Hx Hl IH]; simpl; [reflexivity|].
  now rewrite Hx, IH.
Qed.

Lemma filter_Forall_true {A : Type} (f : A -> bool) (l : list A) :
  Forall (fun x => f x = true) (filter f l).
Proof.
  apply Forall_forall. intros x Hx. now apply filter_In in Hx.
Qed.

Lemma filter_Forall {A : Type} (P : A -> Prop) (f : A -> bool) (l : list A) :
  Forall P l -> Forall P (filter f l).
Proof.
  rewrite !Forall_forall. intros H x Hx. apply H. now apply filter_In in Hx.
Qed.

(** ** The name normaliser *)

Lemma in_range_spec (lo hi c : N) :
  in_range lo hi c = true <-> (lo <= c /\ c <= hi)%N.
Proof.
  unfold in_range. rewrite andb_true_iff, !N.leb_le. reflexivity.
Qed.

Lemma lower_char_settled (c : char) :
  name_char c = true -> settled (lower_char c).
Proof.
  unfold settled, lower_char. intros H.
  destruct (in_range 65 90 c) eqn:E.
  - apply in_range_spec in E.
    assert (Hlow : in_range 97 122 (c + 32) = true)
      by (apply in_range_spec; lia).
    assert (Hup : in_range 65 90 (c + 32) = false).
    { destruct (in_range 65 90 (c + 32)) eqn:F; [|reflexivity].
      apply in_range_spec in F. lia. }
    unfold name_char, is_ascii_letter. rewrite Hlow, Hup.
    now rewrite orb_true_r.
  - now rewrite E.
Qed.

Lemma settled_space : settled space.
Proof. split; reflexivity. Qed.

Lemma normalize_name_tokens (name : str) :
  normalize_name name = join [space] (name_tokens name).
Proof. reflexivity. Qed.

Lemma name_tokens_token (name : str) : Forall token (name_tokens name).
Proof. apply filter_Forall, split_tokens. Qed.

Lemma name_tokens_settled (name : str) :
  Forall (Forall settled) (name_tokens name).
Proof.
  apply filter_Forall, split_go_chars; [|constructor].
  unfold lower. apply Forall_map, strip_Forall.
  eapply Forall_impl; [|apply filter_Forall_true].
  intros c Hc. now apply lower_char_settled.
Qed.

Lemma normalize_name_settled (name : str) :
  Forall settled (normalize_name name).
Proof.
  apply join_Forall; [repeat constructor; apply settled_space|].
  apply name_tokens_settled.
Qed.

Lemma lower_settled (s : str) : Forall settled s -> lower s = s.
Proof.
  induction 1 as [|c s [_ Hc] Hs IH]; simpl; [reflexivity|].
  now rewrite Hc, IH.
Qed.

(** The words of a normalised name are the tokens it was joined from. *)
Lemma split_normalize_name (name : str) :
  split (normalize_name name) = name_tokens name.
Proof. apply split_join, name_tokens_token. Qed.

(** C8: the name normaliser is idempotent: normalising a normalised
    name gives that same name, for every input string. *)
Theorem normalize_name_idempotent (x : str) :
  normalize_name (normalize_name x) = normalize_name x.
Proof.
  pose proof (normalize_name_settled x) as Hy.
  unfold normalize_name at 1.
  rewrite (filter_all name_char (normalize_name x))
    by (eapply Forall_impl; [|exact Hy]; now intros c [Hc _]).
  rewrite lower_settled by now apply strip_Forall.
  rewrite split_strip, split_normalize_name.
  unfold name_tokens at 1. rewrite filter_all; [reflexivity|].
  apply filter_Forall_true.
Qed.

(** ** Tables *)

Lemma has_col_In (c : string) (cols : list string) :
  has_col c cols = true <-> In c cols.
Proof.
  unfold has_col. rewrite existsb_exists. split.
  - intros (k & Hk & E). apply String.eqb_eq in E. now subst.
  - intros H. exists c. split; [assumption | apply String.eqb_refl].
Qed.

Lemma has_col_false (c : string) (cols : list string) :
  has_col c cols = false <-> ~ In c cols.
Proof.
  rewrite <- has_col_In. destruct (has_col c cols); split; congruence.
Qed.

Lemma assoc_set_same (c : string) (v : cell) (kvs : list (string * cell)) :
  assoc c (set_assoc c v kvs) = Some v.
Proof.
  induction kvs as [|[k w] kvs IH]; simpl.
  - now rewrite String.eqb_refl.
  - destruct (String.eqb c k) eqn:E; simpl; now rewrite E.
Qed.

Lemma assoc_set_other (c c' : string) (v : cell) (kvs : list (string * cell)) :
  c' <> c -> assoc c' (set_assoc c v kvs) = assoc c' kvs.
Proof.
  intros Hne. induction kvs as [|[k w] kvs IH]; simpl.
  - apply String.eqb_neq in Hne. now rewrite Hne.
  - destruct (String.eqb c k) eqn:E; simpl; [|now rewrite IH].
    apply String.eqb_eq in E. subst k.
    apply String.eqb_neq in Hne. now rewrite Hne.
Qed.

Lemma get_set_same (c : string) (v : cell) (r : Row) :
  get c (set_cell c v r) = v.
Proof. unfold get, set_cell. simpl. now rewrite assoc_set_same. Qed.

Lemma get_set_other (c c' : string) (v : cell) (r : Row) :
  c' <> c -> get c' (set_cell c v r) = get c' r.
Proof. intros H. unfold get, set_cell. simpl. now rewrite assoc_set_other. Qed.

(** Writing back the value a cell holds changes nothing. *)
Lemma set_assoc_same_value (c : string) (v : cell)
    (kvs : list (string * cell)) :
  assoc c kvs = Some v -> set_assoc c v kvs = kvs.
Proof.
  induction kvs as [|[k w] kvs IH]; simpl; [discriminate|].
  destruct (String.eqb c k) eqn:E.
  - intros H. injection H as ->. reflexivity.
  - intros H. now rewrite IH.
Qed.

Lemma set_assoc_twice (c : string) (v w : cell) (kvs : list (string * cell)) :
  set_assoc c w (set_assoc c v kvs) = set_assoc c w kvs.
Proof.
  induction kvs as [|[k u] kvs IH]; simpl.
  - now rewrite String.eqb_refl.
  - destruct (String.eqb c k) eqn:E; simpl; rewrite E; [reflexivity|].
    now rewrite IH.
Qed.

Lemma firstn_subset {A : Type} (n : nat) (l : list A) (x : A) :
  In x (firstn n l) -> In x l.
Proof.
  intros H. rewrite <- (firstn_skipn n l). apply in_or_app. now left.
Qed.

Lemma filter_twice {A : Type} (f g : A -> bool) (l : list A) :
  filter f (filter g l) = filter (fun x => g x && f x) l.
Proof.
  induction l as [|x l IH]; simpl; [reflexivity|].
  destruct (g x); simpl; [|exact IH].
  destruct (f x); now rewrite IH.
Qed.

Lemma insert_row_perm (precedes : option Q -> option Q -> bool)
    (key : string) (x : Row) (l : list Row) :
  Permutation (insert_row precedes key x l) (x :: l).
Proof.
  induction l as [|y l IH]; simpl; [reflexivity|].
  destruct (precedes _ _); [|reflexivity].
  rewrite IH. apply perm_swap.
Qed.

(** Sorting rearranges the rows and nothing else. *)
Lemma sort_rows_perm (precedes : option Q -> option Q -> bool)
    (key : string) (l : list Row) :
  Permutation (sort_rows precedes key l) l.
Proof.
  induction l as [|x l IH]; simpl; [reflexivity|].
  rewrite insert_row_perm. now constructor.
Qed.

Lemma sort_rows_length (precedes : option Q -> option Q -> bool)
    (key : string) (l : list Row) :
  List.length (sort_rows precedes key l) = List.length l.
Proof. apply Permutation_length, sort_rows_perm. Qed.

Lemma select_n_rows (precedes : option Q -> option Q -> bool) (n : nat)
    (c : string) (cols : list string) (all avail : list Row) :
  match select_n precedes n c cols all avail with
  | Ok top =>
      List.length top = Nat.min n (List.length avail)
      /\ (forall r, In r top -> In r avail)
  | Raise e =>
      (e = KeyError c /\ has_col c cols = false)
      \/ (e = TypeError /\ numeric_col c (mkDF cols all) = false)
  end.
Proof.
  unfold select_n. destruct (has_col c cols); cbn [negb]; [|now left].
  destruct (numeric_col c (mkDF cols all)); cbn [negb]; [|now right].
  split.
  - now rewrite length_firstn, sort_rows_length.
  - intros r Hr. apply firstn_subset in Hr.
    eapply Permutation_in; [apply sort_rows_perm | exact Hr].
Qed.

(** ** The save command *)

Lemma drop_columns_step (c : string) (d : DataFrame) :
  columns (if has_col c (columns d) then drop_column c d else d)
  = filter (fun k => negb (String.eqb c k)) (columns d).
Proof.
  destruct (has_col c (columns d)) eqn:E; [reflexivity|].
  symmetry. apply filter_all, Forall_forall. intros k Hk.
  apply negb_true_iff, String.eqb_neq. intros ->.
  apply has_col_false in E. contradiction.
Qed.

Lemma assoc_filter_other (c c' : string) (kvs : list (string * cell)) :
  c' <> c ->
  assoc c' (filter (fun kv => negb (String.eqb c (fst kv))) kvs)
  = assoc c' kvs.
Proof.
  intros Hne. induction kvs as [|[k w] kvs IH]; simpl; [reflexivity|].
  destruct (String.eqb c k) eqn:E; simpl.
  - apply String.eqb_eq in E. subst k.
    apply String.eqb_neq in Hne. now rewrite Hne.
  - now rewrite IH.
Qed.

Lemma project_drop_step (cols : list string) (c : string) (d : DataFrame) :
  ~ In c cols ->
  project cols (rows (if has_col c (columns d) then drop_column c d else d))
  = project cols (rows d).
Proof.
  intros Hc. destruct (has_col c (columns d)); [|reflexivity].
  unfold project, drop_column. simpl. rewrite map_map.
  apply map_ext. intros r. apply map_ext_in. intros c' Hc'.
  unfold get. simpl. rewrite assoc_filter_other; [reflexivity|].
  intros ->. contradiction.
Qed.

Lemma public_columns_spec (df : DataFrame) (c : string) :
  In c (public_columns df) <-> In c (columns df) /\ ~ In c helper_columns.
Proof.
  unfold public_columns. rewrite filter_In, negb_true_iff, has_col_false.
  reflexivity.
Qed.

Lemma save_table_columns (df : DataFrame) :
  columns (save_table df) = public_columns df.
Proof.
  unfold save_table, helper_columns. cbn [fold_left].
  rewrite !drop_columns_step. cbn [columns].
  rewrite !filter_twice. unfold public_columns.
  apply filter_ext. intros k. unfold has_col, helper_columns.
  cbn [existsb].
  rewrite (String.eqb_sym k "__name_norm"), (String.eqb_sym k "__lname"),
    (String.eqb_sym k "__available").
  destruct (String.eqb "__name_norm" k), (String.eqb "__lname" k),
    (String.eqb "__available" k); reflexivity.
Qed.

Lemma save_table_body (df : DataFrame) :
  project (public_columns df) (rows (save_table df))
  = project (public_columns df) (available_rows df).
Proof.
  assert (H : forall c, In c helper_columns -> ~ In c (public_columns df)).
  { intros c Hc Hin. apply public_columns_spec in Hin. tauto. }
  unfold save_table, helper_columns. cbn [fold_left].
  rewrite !project_drop_step; [reflexivity| | |];
    apply H; simpl; tauto.
Qed.

(** C7: for every pool, save writes exactly the available rows, under
    the columns of the pool other than the three helper columns, and
    returns the pool as it was. *)
Theorem save_writes_available_rows (df : DataFrame) (out : str) :
  fst (save df out) = df
  /\ snd (save df out)
     = [WriteCsv out (public_columns df)
                 (project (public_columns df) (filter is_available (rows df)));
        PrintSaved out]
  /\ (forall c, In c (public_columns df) ->
                c <> "__name_norm" /\ c <> "__lname" /\ c <> "__available")
  /\ (forall c, In c (columns df) -> ~ In c helper_columns ->
                In c (public_columns df)).
Proof.
  split; [reflexivity|]. split.
  - unfold save. cbn [snd].
    now rewrite save_table_columns, save_table_body.
  - split.
    + intros c Hc. apply public_columns_spec in Hc as [_ Hc].
      simpl in Hc. repeat split; intros ->; tauto.
    + intros c H1 H2. now apply public_columns_spec.
Qed.

(** ** The ranking view *)

Section Ranking.
Variable upper : str -> str.

Lemma position_is_spec (pos : str) (r : Row) :
  position_is upper pos r = true
  <-> exists s, get "Position" r = VStr s /\ upper s = upper pos.
Proof.
  unfold position_is. destruct (get "Position" r) as [s| | |]; split;
    try discriminate; try (intros (s' & H & _); discriminate).
  - intros H. exists s. split; [reflexivity | now apply str_eqb_eq].
  - intros (s' & H & E). injection H as ->. now apply str_eqb_eq.
Qed.

(** The position view, for any count and any position code. *)
Lemma top_rows_at_position (df : DataFrame) (sort_key : string) (n : nat)
    (pos : str) :
  pos <> [] ->
  match top_rows upper df sort_key n (Some pos) with
  | Ok top =>
      List.length top
      = Nat.min n (List.length
                     (filter (fun r => is_available r
                                       && position_is upper pos r)
                             (rows df)))
      /\ Forall (fun r => In r (rows df) /\ is_available r = true
                          /\ position_is upper pos r = true) top
  | Raise e =>
      (e = KeyError "Position" /\ has_col "Position" (columns df) = false)
      \/ (e = AttributeError
          /\ str_accessor "Position" (rows df) (available_rows df) = false)
      \/ (e = KeyError sort_key /\ has_col sort_key (columns df) = false)
      \/ (e = TypeError /\ numeric_col sort_key df = false)
  end.
Proof.
  intros Hpos. unfold top_rows.
  assert (Ht : truthy (Some pos) = true) by (destruct pos; [now contradiction Hpos | reflexivity]).
  rewrite Ht.
  destruct (has_col "Position" (columns df)); [|now left].
  destruct (str_accessor "Position" (rows df) (available_rows df));
    [|right; now left].
  cbn [bind]. unfold nlargest.
  pose proof (select_n_rows precedes_desc n sort_key (columns df) (rows df)
                (filter (position_is upper pos) (available_rows df)))
    as H.
  destruct (select_n _ _ _ _ _ _) as [top|e].
  - destruct H as [Hlen Hin]. split.
    + rewrite Hlen. unfold available_rows.
      now rewrite filter_twice.
    + apply Forall_forall. intros r Hr. apply Hin in Hr.
      apply filter_In in Hr as [Hr Hp].
      apply filter_In in Hr as [Hr Hav]. tauto.
  - destruct df as [cols rs]. simpl in *. tauto.
Qed.

(** C6: in every pool state the position view for "RB" with n = 5 holds
    at most five rows (five, or all qualifying rows when there are
    fewer), each of them an available row of the pool whose position,
    upper-cased, is that of "RB".  The view raises only when the pool
    lacks the position column (KeyError), when that column holds no
    text for the [.str] accessor (AttributeError), when the sort column
    is missing (KeyError) or when it is not numeric (TypeError). *)
Theorem top_five_running_backs (df : DataFrame) (sort_key : string) :
  match top_rows upper df sort_key 5 (Some (py "RB")) with
  | Ok top =>
      List.length top <= 5
      /\ List.length top
         = Nat.min 5 (List.length
                        (filter (fun r => is_available r
                                          && position_is upper (py "RB") r)
                                (rows df)))
      /\ Forall (fun r => In r (rows df) /\ is_available r = true
                          /\ exists s, get "Position" r = VStr s
                                       /\ upper s = upper (py "RB")) top
  | Raise e =>
      (e = KeyError "Position" /\ has_col "Position" (columns df) = false)
      \/ (e = AttributeError
          /\ str_accessor "Position" (rows df) (available_rows df) = false)
      \/ (e = KeyError sort_key /\ has_col sort_key (columns df) = false)
      \/ (e = TypeError /\ numeric_col sort_key df = false)
  end.
Proof.
  assert (Hne : py "RB" <> []) by discriminate.
  pose proof (top_rows_at_position df sort_key 5 (py "RB") Hne) as H. revert H.
  destruct (top_rows upper df sort_key 5 (Some (py "RB"))) as [top|e];
    [|intros H; exact H].
  intros [Hlen Hall]. split; [|split].
  - rewrite Hlen. apply Nat.le_min_l.
  - exact Hlen.
  - eapply Forall_impl; [|exact Hall]. intros r (Hin & Hav & Hpos).
    apply position_is_spec in Hpos. tauto.
Qed.

Lemma rankable_overall (df : DataFrame) (sort_key : string) (n : nat) :
  rankable df sort_key = true ->
  exists ev, show_top upper df sort_key n None = Ok [ev]
             /\ is_view ev = true.
Proof.
  unfold rankable, show_top, top_rows. cbn [truthy bind].
  unfold nsmallest, nlargest, select_n.
  destruct df as [cols rs]. cbn [columns rows].
  destruct (has_col "Rank" cols) eqn:ERank.
  - intros ->. cbn [negb bind].
    destruct (firstn n _); eexists; split; reflexivity.
  - intros H. apply andb_true_iff in H as [-> ->]. cbn [negb bind].
    destruct (firstn n _); eexists; split; reflexivity.
Qed.

Lemma overall_rankable (df : DataFrame) (sort_key : string) (n : nat)
    (evs : list event) :
  show_top upper df sort_key n None = Ok evs ->
  rankable df sort_key = true.
Proof.
  unfold rankable, show_top, top_rows. cbn [truthy bind].
  unfold nsmallest, nlargest, select_n.
  destruct df as [cols rs]. cbn [columns rows].
  destruct (has_col "Rank" cols) eqn:ERank.
  - cbn [negb].
    destruct (numeric_col "Rank" _); [reflexivity | discriminate].
  - destruct (has_col sort_key cols); [|discriminate]. cbn [negb].
    destruct (numeric_col sort_key _); [reflexivity | discriminate].
Qed.
End Ranking.

(** ** Flagging rows *)

Lemma set_loc_labels (idx : nat) (c : string) (v : cell) (df : DataFrame) :
  map label (rows (set_loc idx c v df)) = map label (rows df).
Proof.
  unfold set_loc. cbn [rows]. rewrite map_map. apply map_ext.
  intros r. now destruct (Nat.eqb (label r) idx).
Qed.

Lemma in_index_labels (idx : nat) (df : DataFrame) :
  in_index idx df = existsb (fun l => Nat.eqb l idx) (map label (rows df)).
Proof.
  unfold in_index. induction (rows df) as [|r l IH]; simpl;
    [reflexivity | now rewrite IH].
Qed.

Lemma in_index_set_loc (i idx : nat) (c : string) (v : cell) (df : DataFrame) :
  in_index i (set_loc idx c v df) = in_index i df.
Proof. now rewrite !in_index_labels, set_loc_labels. Qed.

Lemma in_index_In (r : Row) (df : DataFrame) :
  In r (rows df) -> in_index (label r) df = true.
Proof.
  intros H. unfold in_index. apply existsb_exists. exists r.
  split; [assumption | apply Nat.eqb_refl].
Qed.

Lemma loc_returns (idx : nat) (c : string) (df : DataFrame) :
  has_col c (columns df) = true -> in_index idx df = true ->
  exists v, loc idx c df = Ok v.
Proof.
  intros Hc Hi. unfold loc. rewrite Hc.
  unfold in_index in Hi. apply existsb_exists in Hi as (r & Hr & E).
  destruct (find _ (rows df)) as [r'|] eqn:F; [now eexists|].
  eapply find_none in F; [|exact Hr]. simpl in F. congruence.
Qed.

Lemma loc_has_col (idx : nat) (c : string) (df : DataFrame) (v : cell) :
  loc idx c df = Ok v -> has_col c (columns df) = true.
Proof. unfold loc. destruct (has_col c (columns df)); [reflexivity | discriminate]. Qed.

Lemma get_set_loc_other (c : string) (idx : nat) (v : cell)
    (df : DataFrame) :
  c <> "__available" ->
  map (get c) (rows (set_loc idx "__available" v df))
  = map (get c) (rows df).
Proof.
  intros Hne. unfold set_loc. cbn [rows]. rewrite map_map.
  apply map_ext. intros r. destruct (Nat.eqb (label r) idx); [|reflexivity].
  now apply get_set_other.
Qed.

Lemma flagged_set_loc (idx : nat) (b : bool) (df : DataFrame) :
  flagged df = true ->
  flagged (set_loc idx "__available" (VBool b) df) = true.
Proof.
  unfold flagged, set_loc. cbn [rows]. rewrite !forallb_forall.
  intros H r Hr. apply in_map_iff in Hr as (r0 & <- & Hr0).
  destruct (Nat.eqb (label r0) idx); [|now apply H].
  now rewrite get_set_same.
Qed.

(** A column of truth values is of dtype object only when it is empty. *)
Lemma object_values_flags (vs : list cell) :
  forallb is_flag vs = true ->
  object_values vs = match vs with [] => true | _ => false end.
Proof.
  destruct vs as [|v vs]; [reflexivity|]. intros H. unfold object_values.
  rewrite H. cbn [negb]. rewrite andb_false_r, orb_false_r.
  apply not_true_is_false. intros E.
  apply existsb_exists in E as (x & Hx & Tx).
  rewrite forallb_forall in H. specialize (H x Hx). now destruct x.
Qed.

(** Setting an availability flag changes the dtype of no column. *)
Lemma numeric_col_set_loc (c : string) (idx : nat) (b : bool)
    (df : DataFrame) :
  flagged df = true ->
  numeric_col c (set_loc idx "__available" (VBool b) df) = numeric_col c df.
Proof.
  intros Hf. destruct (String.eqb_spec c "__available") as [->|Hne].
  - pose proof (flagged_set_loc idx b df Hf) as Hf'.
    unfold numeric_col.
    change (has_col "__available" coerced_columns) with false. cbv iota.
    unfold flagged in Hf, Hf'.
    rewrite !object_values_flags
      by (rewrite forallb_forall in *; intros v Hv;
          apply in_map_iff in Hv as (r & <- & Hr); auto).
    unfold set_loc. cbn [rows]. now destruct (rows df).
  - unfold numeric_col. now rewrite get_set_loc_other.
Qed.

Lemma rankable_set_loc (sort_key : string) (idx : nat) (b : bool)
    (df : DataFrame) :
  flagged df = true ->
  rankable (set_loc idx "__available" (VBool b) df) sort_key
  = rankable df sort_key.
Proof.
  intros Hf. unfold rankable.
  rewrite !(numeric_col_set_loc _ idx b df Hf). reflexivity.
Qed.

Lemma reportable_cols (df : DataFrame) :
  reportable df = true <->
  has_col "Full Name" (columns df) = true
  /\ has_col "Position" (columns df) = true
  /\ has_col "Team" (columns df) = true.
Proof. unfold reportable. rewrite !andb_true_iff. tauto. Qed.

(** ** The undo command *)

Lemma well_formed_flagged (df : DataFrame) :
  well_formed df = true -> flagged df = true.
Proof.
  unfold well_formed, flagged. rewrite !andb_true_iff, !forallb_forall.
  intros [_ Hh] r Hr. specialize (Hh r Hr). unfold helpers_ok in Hh.
  destruct (get "Full Name" r); try discriminate.
  destruct (get "__name_norm" r); try discriminate.
  destruct (get "__lname" r); try discriminate.
  now destruct (get "__available" r).
Qed.

Lemma restored_not_nothing (extra : list event) :
  forallb is_restored extra = true -> ~ In PrintNothingToUndo extra.
Proof.
  rewrite forallb_forall. intros H Hin. apply H in Hin. discriminate.
Qed.

(** The undo loop, whatever the pool: the entries it pops, the lines it
    prints, and the one way it can fail. *)
Lemma undo_loop_outcome (sort_key : string) (stack : list nat) :
  forall (count : N) (df : DataFrame) (restored : nat) (out : list event),
    flagged df = true ->
    match undo_loop stack count df restored out with
    | Ok (stack', df', restored', out') =>
        stack' = skipn (N.to_nat count) stack
        /\ flagged df' = true
        /\ rankable df' sort_key = rankable df sort_key
        /\ exists extra,
            out' = out ++ extra
            /\ restored' = restored + List.length extra
            /\ forallb is_restored extra = true
            /\ (extra = []
                <-> forallb (fun i => negb (is_drafted i df))
                            (firstn (N.to_nat count) stack) = true)
            /\ (extra = [] -> df' = df)
    | Raise e => reportable df = false
    end.
Proof.
  induction stack as [|idx stack IH]; intros count df restored out Hf.
  - cbn [undo_loop]. rewrite skipn_nil, firstn_nil.
    repeat split; try assumption. exists []. rewrite app_nil_r, Nat.add_0_r.
    repeat split; reflexivity.
  - cbn [undo_loop]. destruct (0 <? count)%N eqn:Hc.
    + apply N.ltb_lt in Hc.
      replace (N.to_nat count) with (S (N.to_nat (count - 1))) by lia.
      cbn [skipn firstn forallb].
      change (in_index idx df
              && negb match loc idx "__available" df with
                      | Ok (VBool b) => b
                      | _ => false
                      end) with (is_drafted idx df).
      destruct (is_drafted idx df) eqn:Hgo.
      * set (df1 := set_loc idx "__available" (VBool true) df).
        assert (Hidx1 : in_index idx df1 = true).
        { unfold df1. rewrite in_index_set_loc.
          unfold is_drafted in Hgo. now apply andb_true_iff in Hgo. }
        assert (Hf1 : flagged df1 = true) by now apply flagged_set_loc.
        destruct (reportable df) eqn:Hrep.
        2:{ destruct (loc idx "Full Name" df1) eqn:E1; cbn [bind];
              [|reflexivity].
            destruct (loc idx "Position" df1) eqn:E2; cbn [bind];
              [|reflexivity].
            destruct (loc idx "Team" df1) eqn:E3; cbn [bind];
              [|reflexivity].
            exfalso. apply loc_has_col in E1, E2, E3.
            assert (H : reportable df = true)
              by (apply reportable_cols; tauto).
            congruence. }
        pose proof Hrep as Hcols.
        apply reportable_cols in Hcols as (Hn & Hp & Ht).
        destruct (loc_returns idx "Full Name" df1 Hn Hidx1) as [vn ->].
        destruct (loc_returns idx "Position" df1 Hp Hidx1) as [vp ->].
        destruct (loc_returns idx "Team" df1 Ht Hidx1) as [vt ->].
        cbn [bind].
        specialize (IH (count - 1)%N df1 (S restored)
                       (out ++ [PrintRestored vn vp vt]) Hf1).
        destruct (undo_loop stack (count - 1) df1 (S restored) _)
          as [[[[s d] n] o]|e];
          [|change (reportable df1) with (reportable df) in IH; congruence].
        destruct IH as (-> & Hfd & Hrk & extra & -> & -> & Hall & _ & _).
        split; [reflexivity|]. split; [exact Hfd|]. split.
        { rewrite Hrk. unfold df1. now apply rankable_set_loc. }
        exists (PrintRestored vn vp vt :: extra).
        cbn [List.length forallb is_restored andb negb].
        rewrite <- app_assoc. cbn [app].
        repeat split; try assumption; try discriminate. lia.
      * cbn [negb andb].
        specialize (IH (count - 1)%N df restored out Hf).
        destruct (undo_loop stack (count - 1) df restored out)
          as [[[[s d] n] o]|e]; exact IH.
    + apply N.ltb_ge in Hc. replace (N.to_nat count) with 0 by lia.
      cbn [skipn firstn forallb]. repeat split; try assumption.
      exists []. rewrite app_nil_r, Nat.add_0_r. repeat split; reflexivity.
Qed.

(** C1: in a well-formed pool the undo action reports "nothing to undo"
    if and only if it restored no player in that invocation, that is, if
    and only if none of the entries it popped names a drafted player: so
    always on an empty history and with count 0, but also when every
    popped entry is a no-op.  The pool is then unchanged.  The entries it
    popped, the last [count] of the history, leave the stack whether or
    not they restored anything.  The action raises only when the pool
    lacks a column it reports or its overall view cannot be computed. *)
Theorem undo_reports_when_nothing_restored (upper : str -> str)
    (df : DataFrame) (sort_key : string) (history : list nat) (count : N) :
  well_formed df = true ->
  match undo upper df sort_key history count with
  | Ok (df', history', evs) =>
      history' = firstn (List.length history - N.to_nat count) history
      /\ (In PrintNothingToUndo evs
          <-> forallb (fun i => negb (is_drafted i df))
                      (popped history count) = true)
      /\ (In PrintNothingToUndo evs
          <-> forall a b c, ~ In (PrintRestored a b c) evs)
      /\ (In PrintNothingToUndo evs -> df' = df)
      /\ (history = [] \/ count = 0%N -> In PrintNothingToUndo evs)
  | Raise e => reportable df = false \/ rankable df sort_key = false
  end.
Proof.
  intros Hwf. apply well_formed_flagged in Hwf.
  pose proof (undo_loop_outcome sort_key (rev history) count df 0 [] Hwf)
    as L.
  unfold undo.
  destruct (undo_loop (rev history) count df 0 [])
    as [[[[s d] n] o]|e]; [|now left].
  destruct L as (-> & _ & Hrk & extra & -> & -> & Hall & Hnone & Hsame).
  cbn [bind app Nat.add].
  destruct (rankable d sort_key) eqn:Hd.
  2:{ destruct (show_top upper d sort_key 3 None) as [top|e] eqn:T;
        [|right; congruence].
      apply overall_rankable in T. congruence. }
  destruct (rankable_overall upper d sort_key 3 Hd) as (view & -> & Hkind).
  cbn [bind]. rewrite skipn_rev, rev_involutive.
  split; [reflexivity|].
  assert (Hnv : forall l, In PrintNothingToUndo (l ++ [view])
                          <-> In PrintNothingToUndo l).
  { intros l. rewrite in_app_iff. simpl. split; [|tauto].
    intros [H|[H|[]]]; [exact H|]. subst view. discriminate. }
  assert (Hmsg : In PrintNothingToUndo
                    ((if Nat.eqb (List.length extra) 0
                      then extra ++ [PrintNothingToUndo] else extra)
                     ++ [view])
                 <-> extra = []).
  { destruct extra as [|ev extra]; cbn [List.length Nat.eqb].
    - split; [reflexivity|]. intros _. simpl. now left.
    - rewrite Hnv. split; [|discriminate]. intros H. exfalso.
      exact (restored_not_nothing _ Hall H). }
  split; [now rewrite Hmsg, Hnone|]. split; [|split].
  - rewrite Hmsg. split.
    + intros -> a b c. cbn [Nat.eqb List.length app]. simpl.
      intros [H|[H|[]]]; [discriminate | subst view; discriminate].
    + intros H. destruct extra as [|ev extra]; [reflexivity|]. exfalso.
      cbn [forallb] in Hall. apply andb_true_iff in Hall as [Hev _].
      destruct ev; try discriminate.
      apply (H name position team). simpl. now left.
  - rewrite Hmsg. exact Hsame.
  - intros H. apply Hmsg, Hnone. unfold popped.
    destruct H as [-> | ->]; [now rewrite firstn_nil | reflexivity].
Qed.

(** ** Well-formed pools *)

Lemma distinct_NoDup (l : list nat) : distinct l = true -> NoDup l.
Proof.
  induction l as [|x l IH]; simpl; [constructor|].
  intros H. apply andb_true_iff in H as [Hx Hl].
  constructor; [|now apply IH].
  intros Hin. apply negb_true_iff in Hx.
  assert (E : existsb (Nat.eqb x) l = true)
    by (apply existsb_exists; exists x; split;
        [assumption | apply Nat.eqb_refl]).
  congruence.
Qed.

Lemma NoDup_labels (l : list Row) (r p : Row) :
  NoDup (map label l) -> In r l -> In p l -> label r = label p -> r = p.
Proof.
  induction l as [|x l IH]; simpl; [tauto|].
  intros Hnd Hr Hp E. inversion Hnd as [|? ? Hx Hl]; subst.
  destruct Hr as [->|Hr], Hp as [->|Hp]; try reflexivity.
  - exfalso. apply Hx. rewrite E. now apply in_map.
  - exfalso. apply Hx. rewrite <- E. now apply in_map.
  - now apply IH.
Qed.

Lemma well_formed_parts (df : DataFrame) :
  well_formed df = true ->
  has_col "__available" (columns df) = true
  /\ NoDup (map label (rows df))
  /\ forall r, In r (rows df) -> helpers_ok r = true.
Proof.
  unfold well_formed. rewrite !andb_true_iff. intros [[Hc Hd] Hh].
  split; [|split].
  - unfold helper_columns in Hc. cbn [forallb] in Hc.
    rewrite !andb_true_iff in Hc. tauto.
  - now apply distinct_NoDup.
  - now apply forallb_forall.
Qed.

Lemma helpers_ok_spec (r : Row) :
  helpers_ok r = true ->
  exists s b,
    get "Full Name" r = VStr s
    /\ get "__name_norm" r = VStr (normalize_name s)
    /\ get "__lname" r = VStr (last_name s)
    /\ get "__available" r = VBool b.
Proof.
  unfold helpers_ok.
  destruct (get "Full Name" r) as [s| | |]; try discriminate.
  destruct (get "__name_norm" r) as [n| | |]; try discriminate.
  destruct (get "__lname" r) as [l| | |]; try discriminate.
  destruct (get "__available" r) as [| | |b]; try discriminate.
  intros H. apply andb_true_iff in H as [Hn Hl].
  apply str_eqb_eq in Hn, Hl. subst. now exists s, b.
Qed.

Lemma well_formed_set_loc (idx : nat) (b : bool) (df : DataFrame) :
  well_formed df = true ->
  well_formed (set_loc idx "__available" (VBool b) df) = true.
Proof.
  unfold well_formed. rewrite !andb_true_iff. intros [[Hc Hd] Hh].
  rewrite set_loc_labels. repeat split; try assumption.
  unfold set_loc. cbn [rows]. rewrite forallb_forall in *.
  intros r Hr. apply in_map_iff in Hr as (r0 & <- & Hr0).
  specialize (Hh r0 Hr0). destruct (Nat.eqb (label r0) idx); [|exact Hh].
  apply helpers_ok_spec in Hh as (s & b0 & H1 & H2 & H3 & H4).
  unfold helpers_ok.
  rewrite get_set_same, !get_set_other, H1, H2, H3 by discriminate.
  now rewrite !str_eqb_refl.
Qed.


Lemma find_flagged (p : Row) (c0 : string) (v : cell) (l : list Row) :
  (forall r, In r l -> label r = label p -> r = p) -> In p l ->
  find (fun r => Nat.eqb (label r) (label p))
       (map (fun r => if Nat.eqb (label r) (label p)
                      then set_cell c0 v r else r) l)
  = Some (set_cell c0 v p).
Proof.
  induction l as [|r l IH]; intros H Hp; [destruct Hp|].
  cbn [map find]. destruct (Nat.eqb (label r) (label p)) eqn:E.
  - apply Nat.eqb_eq in E. rewrite (H r (or_introl eq_refl) E).
    unfold set_cell at 1. cbn [label]. now rewrite Nat.eqb_refl.
  - rewrite E. destruct Hp as [->|Hp]; [now rewrite Nat.eqb_refl in E|].
    apply IH; [|assumption]. intros r' Hr'. apply H. now right.
Qed.

Lemma loc_set_loc (p : Row) (c c0 : string) (v : cell) (df : DataFrame) :
  NoDup (map label (rows df)) -> In p (rows df) ->
  has_col c (columns df) = true ->
  loc (label p) c (set_loc (label p) c0 v df) = Ok (get c (set_cell c0 v p)).
Proof.
  intros Hnd Hp Hc. unfold loc, set_loc. cbn [columns rows]. rewrite Hc.
  rewrite find_flagged; [reflexivity| |assumption].
  intros r Hr E. exact (NoDup_labels _ _ _ Hnd Hr Hp E).
Qed.

(** Clearing a flag that was set and setting it again gives the pool back. *)
Lemma set_loc_undone (p : Row) (df : DataFrame) :
  NoDup (map label (rows df)) -> In p (rows df) -> is_available p = true ->
  set_loc (label p) "__available" (VBool true)
          (set_loc (label p) "__available" (VBool false) df) = df.
Proof.
  intros Hnd Hp Hav. destruct df as [cols rs]. unfold set_loc.
  cbn [columns rows] in *. f_equal. rewrite map_map.
  rewrite <- (map_id rs) at 2. apply map_ext_in. intros r Hr.
  destruct (Nat.eqb (label r) (label p)) eqn:E.
  - cbn [label set_cell]. rewrite E.
    apply Nat.eqb_eq in E. rewrite (NoDup_labels _ _ _ Hnd Hr Hp E).
    unfold set_cell. cbn [label cells]. rewrite set_assoc_twice.
    unfold is_available, get in Hav.
    destruct (assoc "__available" (cells p)) as [[| | |[]]|] eqn:A;
      try discriminate.
    rewrite (set_assoc_same_value _ _ _ A). now destruct p.
  - now rewrite E.
Qed.

(** ** The matcher *)

Lemma filter_none {A : Type} (f : A -> bool) (l : list A) :
  (forall x, In x l -> f x = false) -> filter f l = [].
Proof.
  induction l as [|x l IH]; simpl; [reflexivity|].
  intros H. rewrite (H x (or_introl eq_refl)). apply IH.
  intros y Hy. apply H. now right.
Qed.

Lemma contains_nil (s : str) : contains [] s = true.
Proof. destruct s; reflexivity. Qed.

Lemma startswith_refl (t : str) : startswith t t = true.
Proof.
  induction t as [|c t IH]; simpl; [reflexivity | now rewrite N.eqb_refl].
Qed.

Lemma contains_suffix (pre t : str) : contains t (pre ++ t) = true.
Proof.
  induction pre as [|c pre IH]; simpl.
  - destruct t as [|c t]; simpl; [reflexivity|].
    now rewrite N.eqb_refl, startswith_refl.
  - rewrite IH. apply orb_true_r.
Qed.

Lemma join_cons (sep u : str) (rest : list str) :
  rest <> [] -> join sep (u :: rest) = u ++ sep ++ join sep rest.
Proof. destruct rest; [intros H; now contradiction H | reflexivity]. Qed.

Lemma join_snoc (sep : str) (pre : list str) (t : str) :
  exists x, join sep (pre ++ [t]) = x ++ t.
Proof.
  induction pre as [|u pre [x IH]].
  - now exists [].
  - exists (u ++ sep ++ x). cbn [app].
    rewrite join_cons, IH by (now destruct pre).
    now rewrite <- !app_assoc.
Qed.

(** The last-name token is a piece of the normalised name. *)
Lemma last_name_in_normalize_name (s : str) :
  contains (last_name s) (normalize_name s) = true.
Proof.
  unfold last_name. rewrite split_normalize_name.
  rewrite normalize_name_tokens. unfold last_opt.
  destruct (rev (name_tokens s)) as [|t rest] eqn:E.
  - apply (contains_suffix []).
  - assert (Ht : name_tokens s = rev rest ++ [t])
      by (rewrite <- (rev_involutive (name_tokens s)), E; reflexivity).
    rewrite Ht. destruct (join_snoc [space] (rev rest) t) as [x ->].
    apply contains_suffix.
Qed.

Lemma letters_only_letters (q : str) :
  Forall (fun c => is_ascii_letter c = true) (letters_only q).
Proof.
  unfold letters_only, lower. apply Forall_map.
  eapply Forall_impl; [|apply filter_Forall_true].
  intros c Hc. unfold lower_char, is_ascii_letter in *.
  destruct (in_range 65 90 c) eqn:E; [|rewrite E; exact Hc].
  apply in_range_spec in E.
  replace (in_range 97 122 (c + 32)) with true; [apply orb_true_r|].
  symmetry. apply in_range_spec. lia.
Qed.

(** No apostrophe survives in the query of the last-name tier. *)
Lemma letters_only_no_apostrophe (q : str) :
  has_char apostrophe (letters_only q) = false.
Proof.
  unfold has_char. apply not_true_is_false. intros H.
  apply existsb_exists in H as (c & Hc & E). apply N.eqb_eq in E. subst c.
  pose proof (letters_only_letters q) as Hl.
  rewrite Forall_forall in Hl. apply Hl in Hc. discriminate.
Qed.

Section Matching.
Variable isalpha : char -> bool.

Lemma candidates_available (df : DataFrame) (query : str) (r : Row) :
  In r (candidates isalpha df query) ->
  In r (rows df) /\ is_available r = true.
Proof.
  unfold candidates.
  destruct (has_char space (strip query)
            && existsb isalpha (strip query)).
  - destruct (filter _ (rows df)) as [|r0 c] eqn:F.
    + intros H. apply filter_In in H as [H1 H2].
      apply andb_true_iff in H2. tauto.
    + intros H. rewrite <- F in H. apply filter_In in H as [H1 H2].
      apply andb_true_iff in H2. tauto.
  - intros H. apply filter_In in H as [H1 H2].
    apply andb_true_iff in H2. tauto.
Qed.

(** A query of one word goes straight to the last-name tier. *)
Lemma candidates_one_word (df : DataFrame) (query : str) :
  has_char space (strip query) = false ->
  candidates isalpha df query
  = filter (fun r => is_available r
                     && lname_is (letters_only (strip query)) r)
           (rows df).
Proof. intros H. unfold candidates. now rewrite H. Qed.

(** A query of several words that matches by substring stays in the
    first tier. *)
Lemma candidates_words (df : DataFrame) (query : str) (r : Row)
    (c : list Row) :
  has_char space (strip query) = true ->
  existsb isalpha (strip query) = true ->
  filter (fun r => is_available r
                   && norm_contains (normalize_name (strip query)) r)
         (rows df) = r :: c ->
  candidates isalpha df query = r :: c.
Proof. intros H1 H2 H3. unfold candidates. now rewrite H1, H2, H3. Qed.
End Matching.

(** ** Removal *)

Lemma loc_row (p : Row) (c : string) (df : DataFrame) :
  NoDup (map label (rows df)) -> In p (rows df) ->
  has_col c (columns df) = true ->
  loc (label p) c df = Ok (get c p).
Proof.
  intros Hnd Hp Hc. unfold loc. rewrite Hc.
  destruct (find _ (rows df)) as [r|] eqn:F.
  - apply find_some in F as [Hr E]. apply Nat.eqb_eq in E.
    now rewrite (NoDup_labels _ _ _ Hnd Hr Hp E).
  - eapply find_none in F; [|exact Hp]. simpl in F.
    now rewrite Nat.eqb_refl in F.
Qed.

Lemma remove_row_returns (p : Row) (df : DataFrame) :
  NoDup (map label (rows df)) -> In p (rows df) -> reportable df = true ->
  remove_row df (label p)
  = Ok (set_loc (label p) "__available" (VBool false) df,
        PrintRemoved (get "Full Name" p) (get "Position" p) (get "Team" p)).
Proof.
  intros Hnd Hp Hrep. apply reportable_cols in Hrep as (Hn & Hpo & Ht).
  unfold remove_row.
  rewrite !loc_set_loc by assumption. cbn [bind].
  now rewrite !get_set_other by discriminate.
Qed.

Lemma remove_row_inv (df df' : DataFrame) (idx : nat) (ev : event) :
  remove_row df idx = Ok (df', ev) ->
  df' = set_loc idx "__available" (VBool false) df /\ reportable df = true.
Proof.
  unfold remove_row.
  destruct (loc idx "Full Name" _) as [vn|] eqn:E1; [|discriminate].
  destruct (loc idx "Position" _) as [vp|] eqn:E2; [|discriminate].
  destruct (loc idx "Team" _) as [vt|] eqn:E3; [|discriminate].
  cbn [bind]. intros H. injection H as <- _. split; [reflexivity|].
  apply loc_has_col in E1, E2, E3. apply reportable_cols. tauto.
Qed.


Lemma prompt_inv (df : DataFrame) (tmp : list Row) (inputs : list str) :
  forall df' idx out rest,
    prompt df tmp inputs = Ok (df', idx, out, rest) ->
    exists r, In r tmp /\ idx = label r
              /\ df' = set_loc idx "__available" (VBool false) df
              /\ reportable df = true.
Proof.
  induction inputs as [|line inputs IH]; intros df' idx out rest;
    cbn [prompt]; [discriminate|].
  destruct (negb (isdigit (strip line))).
  - destruct (prompt df tmp inputs) as [[[[d i] o] r]|]; [|discriminate].
    cbn [bind]. intros H. injection H as <- <- _ _. now apply (IH _ _ o r).
  - destruct (int_of (strip line)) as [n|]; [|discriminate]. cbn [bind].
    destruct ((1 <=? n)%N && (n <=? N.of_nat (List.length tmp))%N).
    + destruct (nth_error tmp _) as [r|] eqn:E; [|discriminate].
      destruct (remove_row df (label r)) as [[d ev]|] eqn:R; [|discriminate].
      cbn [bind]. intros H. injection H as <- <- _ _.
      apply remove_row_inv in R as [-> Hrep].
      exists r. repeat split; try assumption. now apply nth_error_In in E.
    + destruct (prompt df tmp inputs) as [[[[d i] o] r]|]; [|discriminate].
      cbn [bind]. intros H. injection H as <- <- _ _. now apply (IH _ _ o r).
Qed.

Lemma undo_loop_zero (stack : list nat) (df : DataFrame) (restored : nat)
    (out : list event) :
  undo_loop stack 0 df restored out = Ok (stack, df, restored, out).
Proof. now destruct stack. Qed.

Section Removal.
Variable upper : str -> str.
Variable isalpha : char -> bool.

Lemma resolve_candidates (df : DataFrame) (query : str) :
  match resolve isalpha df query with
  | NoMatch => candidates isalpha df query = []
  | Unique r => candidates isalpha df query = [r]
  | Ambiguous c =>
      candidates isalpha df query = c /\ 2 <= List.length c
  end.
Proof.
  unfold resolve. destruct (candidates isalpha df query) as [|r [|r' c]];
    try reflexivity. split; [reflexivity | simpl; lia].
Qed.

(** A removal that returns an index flagged an available row of the
    pool, and nothing else. *)
Lemma mark_drafted_removed (df df1 : DataFrame) (query : str)
    (inputs rest : list str) (idx : nat) (out : list event) :
  mark_drafted isalpha df query inputs = Ok (df1, Some idx, out, rest) ->
  exists p, In p (rows df) /\ is_available p = true /\ idx = label p
            /\ df1 = set_loc idx "__available" (VBool false) df
            /\ reportable df = true.
Proof.
  unfold mark_drafted. pose proof (resolve_candidates df query) as Hc.
  destruct (resolve isalpha df query) as [|r|c].
  - discriminate.
  - destruct (remove_row df (label r)) as [[d ev]|] eqn:R; [|discriminate].
    cbn [bind]. intros H. injection H as <- <- _ _.
    apply remove_row_inv in R as [-> Hrep].
    assert (Hr : In r (candidates isalpha df query))
      by (rewrite Hc; now left).
    apply candidates_available in Hr as [Hr Hav]. now exists r.
  - destruct (prompt df c inputs) as [[[[d i] o] r]|] eqn:P;
      [|discriminate].
    cbn [bind]. intros H. injection H as <- <- _ _.
    apply prompt_inv in P as (p & Hp & -> & -> & Hrep).
    destruct Hc as [Hc _]. rewrite <- Hc in Hp.
    apply candidates_available in Hp as [Hp Hav]. now exists p.
Qed.

Lemma mark_drafted_no_index (df df1 : DataFrame) (query : str)
    (inputs rest : list str) (out : list event) :
  mark_drafted isalpha df query inputs = Ok (df1, None, out, rest) ->
  df1 = df.
Proof.
  unfold mark_drafted. destruct (resolve isalpha df query) as [|r|c].
  - intros H. now injection H as <- _ _.
  - destruct (remove_row df (label r)) as [[d ev]|]; discriminate.
  - destruct (prompt df c inputs) as [[[[d i] o] r]|]; discriminate.
Qed.

(** C4: when a removal command flags a player of a well-formed pool
    and pushes it on the history, one undo gives back the pool exactly
    as it was before the removal (the player is available again and
    every row and flag is as before, so every later ranking view is
    the one the pool gave before) and the history as it was. *)
Theorem remove_then_undo_restores (df df1 : DataFrame) (sort_key : string)
    (history history1 : list nat) (query : str) (inputs rest : list str)
    (out : list event) :
  well_formed df = true ->
  remove upper isalpha df sort_key history query inputs
  = Ok (df1, history1, out, rest) ->
  history1 <> history ->
  exists p evs,
    In p (rows df) /\ is_available p = true
    /\ history1 = history ++ [label p]
    /\ df1 = set_loc (label p) "__available" (VBool false) df
    /\ undo upper df1 sort_key history1 1 = Ok (df, history, evs)
    /\ In (PrintRestored (get "Full Name" p) (get "Position" p)
                         (get "Team" p)) evs.
Proof.
  intros Hwf Hrem Hpush.
  pose proof (well_formed_flagged df Hwf) as Hfl.
  apply well_formed_parts in Hwf as (Hcol & Hnd & _).
  unfold remove in Hrem.
  destruct (mark_drafted isalpha df query inputs)
    as [[[[d [i|]] o] r]|] eqn:M; cbn [bind] in Hrem; try discriminate.
  2:{ destruct (show_top upper d sort_key 3 None); cbn [bind] in Hrem;
        [|discriminate].
      injection Hrem as _ <- _ _. now contradiction Hpush. }
  destruct (show_top upper d sort_key 3 None) as [top|] eqn:T;
    cbn [bind] in Hrem; [|discriminate].
  injection Hrem as <- <- _ _.
  apply mark_drafted_removed in M as (p & Hp & Hav & -> & -> & Hrep).
  apply overall_rankable in T.
  rewrite (rankable_set_loc sort_key (label p) false df Hfl) in T.
  destruct (rankable_overall upper df sort_key 3 T) as (view & Hview & _).
  apply reportable_cols in Hrep as (Hn & Hpo & Ht).
  exists p. eexists. repeat split; try assumption.
  - unfold undo. rewrite rev_app_distr. cbn [rev app undo_loop].
    change (0 <? 1)%N with true. cbv iota.
    rewrite in_index_set_loc, (in_index_In p df Hp).
    rewrite (loc_set_loc p "__available" "__available" (VBool false) df
               Hnd Hp Hcol).
    rewrite get_set_same. cbn [negb andb].
    rewrite (set_loc_undone p df Hnd Hp Hav).
    rewrite !loc_row by assumption. cbn [bind].
    change (1 - 1)%N with 0%N. rewrite undo_loop_zero. cbn [bind Nat.eqb].
    rewrite Hview. cbn [bind]. rewrite rev_involutive. reflexivity.
  - simpl. now left.
Qed.


(** C2: in a well-formed pool where Patrick Mahomes is available and
    the only available row whose normalised name contains "mahom", the
    query "mahom" matches nothing: it has no space, so the substring
    tier is skipped, and no last-name token equals "mahom".  A query
    with a space and a letter whose normalised form is contained in
    the normalised name of exactly one available row resolves to that
    row. *)
Theorem mahom_matches_nothing (df : DataFrame) (p : Row) :
  well_formed df = true ->
  In p (rows df) -> is_available p = true ->
  get "Full Name" p = VStr (py "Patrick Mahomes") ->
  (forall r, In r (rows df) -> is_available r = true ->
             norm_contains (py "mahom") r = true ->
             get "Full Name" r = VStr (py "Patrick Mahomes")) ->
  norm_contains (py "mahom") p = true
  /\ resolve isalpha df (py "mahom") = NoMatch
  /\ (forall query r,
         has_char space (strip query) = true ->
         existsb isalpha (strip query) = true ->
         filter (fun r => is_available r
                          && norm_contains (normalize_name (strip query)) r)
                (rows df) = [r] ->
         resolve isalpha df query = Unique r).
Proof.
  intros Hwf Hp Hav Hname Honly.
  apply well_formed_parts in Hwf as (_ & _ & Hh).
  split; [|split].
  - destruct (helpers_ok_spec p (Hh p Hp)) as (s & b & H1 & H2 & _).
    unfold norm_contains. rewrite H2. rewrite Hname in H1.
    injection H1 as <-. reflexivity.
  - unfold resolve.
    rewrite candidates_one_word by reflexivity.
    rewrite filter_none; [reflexivity|].
    intros r Hr. destruct (is_available r) eqn:Ar; [|reflexivity].
    cbn [andb]. apply not_true_is_false. intros Hl.
    destruct (helpers_ok_spec r (Hh r Hr)) as (s & b & H1 & H2 & H3 & _).
    unfold lname_is in Hl. rewrite H3 in Hl. apply str_eqb_eq in Hl.
    assert (Hsub : norm_contains (py "mahom") r = true).
    { unfold norm_contains. rewrite H2.
      change (letters_only (strip (py "mahom"))) with (py "mahom") in Hl.
      rewrite <- Hl. apply last_name_in_normalize_name. }
    specialize (Honly r Hr Ar Hsub). rewrite Honly in H1.
    injection H1 as <-. discriminate.
  - intros query r H1 H2 H3. unfold resolve.
    now rewrite (candidates_words isalpha df query r [] H1 H2 H3).
Qed.

(** C9: in a well-formed pool, a query that (stripped) contains a
    space and a letter and whose normalised form is empty has every
    available row as a candidate, in pool order: it is ambiguous over
    all of them when there are two or more, resolves to the single
    available row when there is one, and so never comes back without
    a match while any row is available. *)
Theorem empty_normal_form_matches_all (df : DataFrame) (query : str) :
  well_formed df = true ->
  has_char space (strip query) = true ->
  existsb isalpha (strip query) = true ->
  normalize_name (strip query) = [] ->
  candidates isalpha df query = available_rows df
  /\ resolve isalpha df query
     = match available_rows df with
       | [] => NoMatch
       | [r] => Unique r
       | l => Ambiguous l
       end
  /\ (forall r, In r (rows df) -> is_available r = true ->
                resolve isalpha df query <> NoMatch).
Proof.
  intros Hwf Hsp Hal Hempty.
  apply well_formed_parts in Hwf as (_ & _ & Hh).
  assert (Htier : filter (fun r => is_available r
                                   && norm_contains
                                        (normalize_name (strip query)) r)
                         (rows df) = available_rows df).
  { unfold available_rows. rewrite Hempty.
    assert (H : forall l, (forall r, In r l -> helpers_ok r = true) ->
                filter (fun r => is_available r && norm_contains [] r) l
                = filter is_available l).
    { induction l as [|r l IH]; intros Hl; [reflexivity|]. cbn [filter].
      destruct (helpers_ok_spec r (Hl r (or_introl eq_refl)))
        as (s & b & _ & H2 & _).
      unfold norm_contains at 1. rewrite H2, contains_nil, andb_true_r.
      rewrite IH; [reflexivity|]. intros r' Hr'. apply Hl. now right. }
    now apply H. }
  assert (Hc : candidates isalpha df query = available_rows df).
  { unfold candidates. rewrite Hsp, Hal, Htier. cbn [andb].
    destruct (available_rows df) as [|r c] eqn:E; [|reflexivity].
    apply filter_none. intros r Hr.
    destruct (is_available r) eqn:Ar; [|reflexivity].
    assert (Hin : In r (available_rows df))
      by (apply filter_In; now split).
    rewrite E in Hin. destruct Hin. }
  split; [exact Hc|]. split.
  - unfold resolve. now rewrite Hc.
  - intros r Hr Ar. unfold resolve. rewrite Hc.
    assert (Hin : In r (available_rows df))
      by (apply filter_In; now split).
    destruct (available_rows df) as [|r0 [|r1 c]]; [destruct Hin| |];
      discriminate.
Qed.

(** C10: a query of one word never has among its candidates a row
    whose last-name token contains an apostrophe, because the query is
    reduced to its letters before the comparison; its candidates are
    the available rows whose last-name token equals those letters in
    lower case, so it comes back without a match exactly when no
    available row has such a token. *)
Theorem apostrophe_surname_never_matched (df : DataFrame) (query : str)
    (p : Row) (l : str) :
  has_char space (strip query) = false ->
  In p (rows df) -> get "__lname" p = VStr l ->
  has_char apostrophe l = true ->
  ~ In p (candidates isalpha df query)
  /\ candidates isalpha df query
     = filter (fun r => is_available r
                        && lname_is (letters_only (strip query)) r)
              (rows df)
  /\ (resolve isalpha df query = NoMatch
      <-> forall r, In r (rows df) -> is_available r = true ->
                    lname_is (letters_only (strip query)) r = false).
Proof.
  intros Hone Hp Hl Hap.
  pose proof (candidates_one_word isalpha df query Hone) as Hc.
  split; [|split; [exact Hc|]].
  - rewrite Hc. intros Hin. apply filter_In in Hin as [_ H].
    apply andb_true_iff in H as [_ H]. unfold lname_is in H.
    rewrite Hl in H. apply str_eqb_eq in H. subst l.
    rewrite letters_only_no_apostrophe in Hap. discriminate.
  - unfold resolve. rewrite Hc. split.
    + intros H r Hr Ar.
      destruct (lname_is (letters_only (strip query)) r) eqn:E;
        [|reflexivity].
      assert (Hin : In r (filter
                            (fun r => is_available r
                                      && lname_is
                                           (letters_only (strip query)) r)
                            (rows df)))
        by (apply filter_In; split; [assumption | now rewrite Ar, E]).
      destruct (filter _ (rows df)) as [|r0 [|r1 c]];
        [destruct Hin | discriminate | discriminate].
    + intros H. rewrite filter_none; [reflexivity|].
      intros r Hr. destruct (is_available r) eqn:Ar; [|reflexivity].
      cbn [andb]. now apply H.
Qed.
End Removal.

(** ** The commands keep the pool well formed *)

Lemma undo_loop_preserves (Q : DataFrame -> Prop)
    (HQ : forall df idx,
        Q df -> Q (set_loc idx "__available" (VBool true) df))
    (stack : list nat) :
  forall count df restored out stack' df' restored' out',
    undo_loop stack count df restored out = Ok (stack', df', restored', out') ->
    Q df -> Q df'.
Proof.
  induction stack as [|idx stack IH];
    intros count df restored out stack' df' restored' out'; cbn [undo_loop].
  - intros H. now injection H as _ <- _ _.
  - destruct (0 <? count)%N; [|intros H; now injection H as _ <- _ _].
    destruct (in_index idx df && negb _).
    + destruct (loc idx "Full Name" _); [|discriminate].
      destruct (loc idx "Position" _); [|discriminate].
      destruct (loc idx "Team" _); [|discriminate].
      cbn [bind]. intros H HQdf. eapply IH; [exact H|]. now apply HQ.
    + apply IH.
Qed.

Section Invariant.
Variable upper : str -> str.
Variable isalpha : char -> bool.

Lemma remove_well_formed (df df' : DataFrame) (sort_key : string)
    (history history' : list nat) (query : str) (inputs rest : list str)
    (out : list event) :
  well_formed df = true ->
  remove upper isalpha df sort_key history query inputs
  = Ok (df', history', out, rest) ->
  well_formed df' = true.
Proof.
  intros Hwf. unfold remove.
  destruct (mark_drafted isalpha df query inputs)
    as [[[[d [i|]] o] r]|] eqn:M; [| |discriminate]; cbn [bind];
    destruct (show_top upper d sort_key 3 None); try discriminate;
    cbn [bind]; intros H; injection H as <- _ _ _.
  - apply mark_drafted_removed in M as (p & _ & _ & _ & -> & _).
    now apply well_formed_set_loc.
  - apply mark_drafted_no_index in M. now subst.
Qed.

Lemma undo_well_formed (df df' : DataFrame) (sort_key : string)
    (history history' : list nat) (count : N) (out : list event) :
  well_formed df = true ->
  undo upper df sort_key history count = Ok (df', history', out) ->
  well_formed df' = true.
Proof.
  intros Hwf. unfold undo.
  destruct (undo_loop (rev history) count df 0 [])
    as [[[[s d] n] o]|] eqn:L; [|discriminate].
  cbn [bind]. destruct (show_top upper d sort_key 3 None); [|discriminate].
  cbn [bind]. intros H. injection H as <- _ _.
  eapply (undo_loop_preserves (fun x => well_formed x = true));
    [|exact L | exact Hwf].
  intros x idx. apply well_formed_set_loc.
Qed.
End Invariant.

(** ** Loading *)

Lemma load_df_stages (parse_float : str -> option Q) (raw : DataFrame) :
  load_df parse_float raw
  = (sort_key <-
       (if has_col "AdjPts" (columns (kept_frame raw)) then Ok "AdjPts"
        else if has_col "ProjPts" (columns (kept_frame raw)) then Ok "ProjPts"
        else Raise ValueError) ;;
     let df := sorted_frame parse_float sort_key raw in
     if negb (has_col "Full Name" (columns df)) then Raise (KeyError "Full Name")
     else
       rs <- mapM add_helpers (rows df) ;;
       Ok (mkDF (columns df ++ ["__name_norm"; "__lname"; "__available"]) rs,
           sort_key)).
Proof. reflexivity. Qed.

Lemma rename_label_present (cols : list string) (m : list (string * string))
    (k : string) :
  has_col k cols = true ->
  rename_label (filter (fun kv => has_col (fst kv) cols) m) k
  = rename_label m k.
Proof.
  intros Hk. induction m as [|[a b] m IH]; [reflexivity|].
  cbn [filter fst]. destruct (has_col a cols) eqn:Ha; cbn [rename_label].
  - now rewrite IH.
  - rewrite IH. destruct (String.eqb_spec k a) as [->|]; [congruence|].
    reflexivity.
Qed.

Ltac rename_cases k :=
  unfold rename_map; cbn [rename_label];
  repeat match goal with
         | |- context [String.eqb k ?a] =>
             destruct (String.eqb_spec k a) as [->|]
         end;
  split; intros; try tauto; try discriminate;
  repeat match goal with
         | H : _ \/ _ |- _ => destruct H
         end;
  try congruence; try (now left); try (now right).

Lemma rename_to_adjusted (k : string) :
  rename_label rename_map k = "AdjPts"
  <-> k = "Adjusted Projected Points" \/ k = "AdjPts".
Proof. rename_cases k. Qed.

Lemma rename_to_projected (k : string) :
  rename_label rename_map k = "ProjPts"
  <-> k = "Projected Fantasy Points" \/ k = "ProjPts".
Proof. rename_cases k. Qed.

Lemma rename_to_name (k : string) :
  rename_label rename_map k = "Full Name" <-> k = "Full Name".
Proof. rename_cases k. Qed.

Lemma rename_to_position (k : string) :
  rename_label rename_map k = "Position" <-> k = "Position".
Proof. rename_cases k. Qed.

(** The labels of the kept frame: display columns the renamed file has. *)
Lemma kept_frame_columns (raw : DataFrame) (c : string) :
  In c (columns (kept_frame raw))
  <-> In c display_columns
      /\ exists k, In k (columns raw) /\ rename_label rename_map k = c.
Proof.
  unfold kept_frame, select_columns, rename. cbn [columns].
  set (m := filter (fun kv => has_col (fst kv) (columns raw)) rename_map).
  assert (Hren : In c (map (rename_label m) (columns raw))
                 <-> exists k, In k (columns raw)
                               /\ rename_label rename_map k = c).
  { rewrite in_map_iff. split; intros (k & H1 & H2).
    - exists k. split; [assumption|]. unfold m in H1.
      rewrite rename_label_present in H1 by now apply has_col_In.
      exact H1.
    - exists k. split; [|assumption]. unfold m.
      rewrite rename_label_present by now apply has_col_In. exact H2. }
  rewrite in_flat_map. split.
  - intros (k & Hk & Hc). apply filter_In in Hc as [Hc E].
    apply String.eqb_eq in E. subst k.
    apply filter_In in Hk as [Hd _]. split; [assumption | now apply Hren].
  - intros [Hd Hc]. exists c. apply Hren in Hc. split.
    + apply filter_In. split; [assumption | now apply has_col_In].
    + apply filter_In. split; [assumption | apply String.eqb_refl].
Qed.

Lemma has_col_iff (c : string) (l l' : list string) :
  (In c l <-> In c l') -> has_col c l = has_col c l'.
Proof.
  intros H. destruct (has_col c l') eqn:E.
  - apply has_col_In. apply H. now apply has_col_In.
  - apply has_col_false. rewrite H. now apply has_col_false.
Qed.

Lemma kept_has_adjusted (raw : DataFrame) :
  has_col "AdjPts" (columns (kept_frame raw))
  = has_col "Adjusted Projected Points" (columns raw)
    || has_col "AdjPts" (columns raw).
Proof.
  apply eq_true_iff_eq. rewrite orb_true_iff, !has_col_In, kept_frame_columns.
  split.
  - intros (_ & k & Hk & E). apply rename_to_adjusted in E as [->| ->]; tauto.
  - intros H. split; [simpl; tauto|].
    destruct H as [H|H]; eexists; (split; [exact H | reflexivity]).
Qed.

Lemma kept_has_projected (raw : DataFrame) :
  has_col "ProjPts" (columns (kept_frame raw))
  = has_col "Projected Fantasy Points" (columns raw)
    || has_col "ProjPts" (columns raw).
Proof.
  apply eq_true_iff_eq. rewrite orb_true_iff, !has_col_In, kept_frame_columns.
  split.
  - intros (_ & k & Hk & E). apply rename_to_projected in E as [->| ->]; tauto.
  - intros H. split; [simpl; tauto|].
    destruct H as [H|H]; eexists; (split; [exact H | reflexivity]).
Qed.

Lemma kept_has_name (raw : DataFrame) :
  has_col "Full Name" (columns (kept_frame raw))
  = has_col "Full Name" (columns raw).
Proof.
  apply eq_true_iff_eq. rewrite !has_col_In, kept_frame_columns. split.
  - intros (_ & k & Hk & E). apply rename_to_name in E as ->. exact Hk.
  - intros H. split; [simpl; tauto|]. now exists "Full Name".
Qed.

Lemma kept_has_position (raw : DataFrame) :
  has_col "Position" (columns (kept_frame raw))
  = has_col "Position" (columns raw).
Proof.
  apply eq_true_iff_eq. rewrite !has_col_In, kept_frame_columns. split.
  - intros (_ & k & Hk & E). apply rename_to_position in E as ->. exact Hk.
  - intros H. split; [simpl; tauto|]. now exists "Position".
Qed.

Lemma coerce_numeric_columns (parse_float : str -> option Q)
    (df : DataFrame) :
  columns (coerce_numeric parse_float df) = columns df.
Proof.
  unfold coerce_numeric, coerced_columns. cbn [fold_left].
  repeat match goal with
         | |- context [if ?b then _ else _] => destruct b
         end; reflexivity.
Qed.

Lemma sorted_frame_columns (parse_float : str -> option Q) (sk : string)
    (raw : DataFrame) :
  columns (sorted_frame parse_float sk raw) = columns (kept_frame raw).
Proof. unfold sorted_frame. cbn [columns]. apply coerce_numeric_columns. Qed.

Lemma rename_label_name (m : list (string * string)) (k : string) :
  Forall (fun ab => snd ab = "Full Name" <-> fst ab = "Full Name") m ->
  (rename_label m k = "Full Name" <-> k = "Full Name").
Proof.
  induction 1 as [|[a b] m Hab Hm IH]; cbn [rename_label]; [reflexivity|].
  destruct (String.eqb_spec k a) as [->|]; [exact Hab | exact IH].
Qed.

Lemma rename_map_name :
  Forall (fun ab => snd ab = "Full Name" <-> fst ab = "Full Name") rename_map.
Proof.
  unfold rename_map.
  repeat constructor; cbn [fst snd]; intros; try reflexivity; discriminate.
Qed.

Lemma assoc_rename_name (m : list (string * string))
    (kvs : list (string * cell)) :
  Forall (fun ab => snd ab = "Full Name" <-> fst ab = "Full Name") m ->
  assoc "Full Name" (map (fun kv => (rename_label m (fst kv), snd kv)) kvs)
  = assoc "Full Name" kvs.
Proof.
  intros Hm. induction kvs as [|[k v] kvs IH]; [reflexivity|].
  cbn [map assoc fst snd]. rewrite IH.
  destruct (String.eqb_spec "Full Name" k) as [<-|Hne].
  - rewrite (proj2 (rename_label_name m "Full Name" Hm) eq_refl).
    now rewrite String.eqb_refl.
  - destruct (String.eqb_spec "Full Name" (rename_label m k)) as [E|];
      [|reflexivity].
    symmetry in E. apply (rename_label_name m k Hm) in E. congruence.
Qed.

Lemma assoc_filter_key (c : string) (kvs : list (string * cell)) :
  assoc c (filter (fun kv => String.eqb c (fst kv)) kvs) = assoc c kvs.
Proof.
  induction kvs as [|[k v] kvs IH]; [reflexivity|]. cbn [filter fst assoc].
  destruct (String.eqb c k) eqn:E; [|exact IH].
  cbn [assoc]. now rewrite E.
Qed.

Lemma assoc_app_found (c : string) (v : cell) (l l' : list (string * cell)) :
  assoc c l = Some v -> assoc c (l ++ l') = Some v.
Proof.
  induction l as [|[k w] l IH]; cbn [assoc app]; [discriminate|].
  destruct (String.eqb c k); [trivial | exact IH].
Qed.

Lemma assoc_app_missing (c : string) (l l' : list (string * cell)) :
  ~ In c (map fst l) -> assoc c (l ++ l') = assoc c l'.
Proof.
  induction l as [|[k w] l IH]; cbn [assoc app map fst]; [reflexivity|].
  intros H. destruct (String.eqb_spec c k) as [->|].
  - exfalso. apply H. now left.
  - apply IH. intros Hin. apply H. now right.
Qed.

Lemma assoc_map_other (c c' : string) (f : cell -> cell)
    (kvs : list (string * cell)) :
  c' <> c ->
  assoc c' (map (fun kv => if String.eqb c (fst kv)
                           then (fst kv, f (snd kv)) else kv) kvs)
  = assoc c' kvs.
Proof.
  intros Hne. induction kvs as [|[k v] kvs IH]; [reflexivity|].
  cbn [map fst snd]. destruct (String.eqb_spec c k) as [<-|];
    cbn [assoc]; rewrite IH; [|reflexivity].
  apply String.eqb_neq in Hne. now rewrite Hne.
Qed.

Lemma keys_map_column (c : string) (f : cell -> cell)
    (kvs : list (string * cell)) :
  map fst (map (fun kv => if String.eqb c (fst kv)
                          then (fst kv, f (snd kv)) else kv) kvs)
  = map fst kvs.
Proof.
  rewrite map_map. apply map_ext. intros [k v]. cbn [fst snd].
  now destruct (String.eqb c k).
Qed.

Lemma relabel_cells (i : nat) (l : list Row) :
  map cells (relabel i l) = map cells l.
Proof.
  revert i; induction l as [|r l IH]; intros i; [reflexivity|].
  cbn [relabel map cells]. now rewrite IH.
Qed.

Lemma display_keys_fst (kvs : list (string * cell)) :
  display_keys kvs <-> Forall (fun k => In k display_columns) (map fst kvs).
Proof. unfold display_keys. now rewrite Forall_map. Qed.

(** A property of the cells of every row that coercing a column other
    than the name column keeps goes through the later stages. *)
Section Stages.
Variable P : list (string * cell) -> Prop.
Hypothesis P_map_column :
  forall (c : string) (f : cell -> cell) (kvs : list (string * cell)),
    c <> "Full Name" -> P kvs ->
    P (map (fun kv => if String.eqb c (fst kv)
                      then (fst kv, f (snd kv)) else kv) kvs).

Lemma stage_map_column (c : string) (f : cell -> cell) (df : DataFrame) :
  c <> "Full Name" ->
  Forall (fun r => P (cells r)) (rows df) ->
  Forall (fun r => P (cells r)) (rows (map_column c f df)).
Proof.
  intros Hne H. unfold map_column. cbn [rows]. apply Forall_map.
  eapply Forall_impl; [|exact H]. intros r Hr. cbn [cells].
  now apply P_map_column.
Qed.

Lemma stage_coerce (parse_float : str -> option Q) (df : DataFrame) :
  Forall (fun r => P (cells r)) (rows df) ->
  Forall (fun r => P (cells r)) (rows (coerce_numeric parse_float df)).
Proof.
  intros H. unfold coerce_numeric, coerced_columns. cbn [fold_left].
  repeat match goal with
         | |- context [if ?b then _ else _] => destruct b
         end;
    repeat (apply stage_map_column; [discriminate|]); exact H.
Qed.

Lemma stage_cells (l l' : list Row) :
  map cells l = map cells l' ->
  Forall (fun r => P (cells r)) l' -> Forall (fun r => P (cells r)) l.
Proof.
  intros E H. apply Forall_map. rewrite E. now apply Forall_map.
Qed.

Lemma stage_sorted (parse_float : str -> option Q) (sk : string)
    (raw : DataFrame) :
  Forall (fun r => P (cells r)) (rows (kept_frame raw)) ->
  Forall (fun r => P (cells r)) (rows (sorted_frame parse_float sk raw)).
Proof.
  intros H. unfold sorted_frame. cbn [rows].
  eapply stage_cells; [apply relabel_cells|].
  eapply Permutation_Forall;
    [apply Permutation_sym, sort_rows_perm|].
  now apply stage_coerce.
Qed.
End Stages.

Lemma named_map_column (c : string) (f : cell -> cell)
    (kvs : list (string * cell)) :
  c <> "Full Name" -> named kvs ->
  named (map (fun kv => if String.eqb c (fst kv)
                        then (fst kv, f (snd kv)) else kv) kvs).
Proof.
  intros Hne [s Hs]. exists s.
  rewrite assoc_map_other; [exact Hs | congruence].
Qed.

Lemma display_keys_map_column (c : string) (f : cell -> cell)
    (kvs : list (string * cell)) :
  c <> "Full Name" -> display_keys kvs ->
  display_keys (map (fun kv => if String.eqb c (fst kv)
                               then (fst kv, f (snd kv)) else kv) kvs).
Proof.
  intros _ H. apply display_keys_fst. rewrite keys_map_column.
  now apply display_keys_fst.
Qed.

(** The selection leaves no key outside the display columns. *)
Lemma kept_display_keys (raw : DataFrame) :
  Forall (fun r => display_keys (cells r)) (rows (kept_frame raw)).
Proof.
  unfold kept_frame, select_columns. cbn [rows].
  apply Forall_map, Forall_forall. intros r _. cbn [cells].
  apply Forall_forall. intros kv Hkv.
  apply in_flat_map in Hkv as (c & Hc & Hin).
  apply filter_In in Hin as [_ E]. apply String.eqb_eq in E.
  rewrite <- E. now apply filter_In in Hc.
Qed.

(** The name cells of the file are those of the kept frame. *)
Lemma kept_named (raw : DataFrame) :
  has_col "Full Name" (columns raw) = true ->
  names_are_text raw = true ->
  Forall (fun r => named (cells r)) (rows (kept_frame raw)).
Proof.
  intros Hcol Htext.
  rewrite <- kept_has_name in Hcol. apply has_col_In in Hcol.
  unfold kept_frame, select_columns in *. cbn [columns rows] in *.
  set (m := filter (fun kv => has_col (fst kv) (columns raw)) rename_map)
    in *.
  set (keep := filter _ display_columns) in *.
  assert (Hm : Forall (fun ab => snd ab = "Full Name"
                                 <-> fst ab = "Full Name") m)
    by (apply filter_Forall, rename_map_name).
  assert (Hkeep : exists keep', keep = "Full Name" :: keep').
  { apply in_flat_map in Hcol as (k & Hk & Hc).
    apply filter_In in Hc as [_ E]. apply String.eqb_eq in E. subst k.
    unfold keep in *. apply filter_In in Hk as [_ Hk].
    unfold display_columns. cbn [filter]. rewrite Hk. now eexists. }
  destruct Hkeep as [keep' ->].
  unfold rename. cbn [rows]. rewrite map_map.
  apply Forall_map, Forall_forall. intros r Hr. cbn [label cells].
  unfold names_are_text in Htext. rewrite forallb_forall in Htext.
  specialize (Htext r Hr). unfold get in Htext.
  destruct (assoc "Full Name" (cells r)) as [[s| | |]|] eqn:A;
    try discriminate.
  exists s. cbn [flat_map]. apply assoc_app_found.
  now rewrite assoc_filter_key, assoc_rename_name.
Qed.

Lemma relabel_labels (i : nat) (l : list Row) :
  map label (relabel i l) = seq i (List.length l).
Proof.
  revert i; induction l as [|r l IH]; intros i; [reflexivity|].
  cbn [relabel map label List.length seq]. now rewrite IH.
Qed.

Lemma NoDup_distinct (l : list nat) : NoDup l -> distinct l = true.
Proof.
  induction 1 as [|x l Hx Hl IH]; [reflexivity|]. cbn [distinct].
  rewrite IH, andb_true_r. apply negb_true_iff, not_true_is_false.
  intros H. apply existsb_exists in H as (y & Hy & E).
  apply Nat.eqb_eq in E. now subst.
Qed.

Lemma add_helpers_loadable (r : Row) :
  loadable r ->
  exists r', add_helpers r = Ok r' /\ label r' = label r
             /\ helpers_ok r' = true.
Proof.
  intros [[s Hs] Hk]. unfold add_helpers, get. rewrite Hs. cbn [apply_str bind].
  eexists. split; [reflexivity|]. split; [reflexivity|].
  assert (Hno : forall c, ~ In c display_columns ->
                          ~ In c (map fst (cells r))).
  { intros c Hc Hin. apply display_keys_fst in Hk.
    rewrite Forall_forall in Hk. now apply Hc, Hk. }
  unfold helpers_ok, get. cbn [cells].
  rewrite (assoc_app_found _ _ _ _ Hs).
  rewrite !assoc_app_missing
    by (apply Hno; unfold display_columns; simpl;
        intuition discriminate).
  cbn [assoc]. cbv beta iota.
  change (String.eqb "__name_norm" "__name_norm") with true.
  change (String.eqb "__lname" "__name_norm") with false.
  change (String.eqb "__lname" "__lname") with true.
  change (String.eqb "__available" "__name_norm") with false.
  change (String.eqb "__available" "__lname") with false.
  change (String.eqb "__available" "__available") with true.
  cbv iota. now rewrite !str_eqb_refl.
Qed.

(** A row [add_helpers] accepts has a text name. *)
Lemma add_helpers_named (r r' : Row) :
  add_helpers r = Ok r' -> named (cells r).
Proof.
  unfold add_helpers, get.
  destruct (assoc "Full Name" (cells r)) as [[s| | |]|] eqn:A;
    try discriminate.
  intros _. now exists s.
Qed.

Lemma mapM_add_helpers (l : list Row) :
  Forall loadable l ->
  exists rs, mapM add_helpers l = Ok rs /\ map label rs = map label l
             /\ forallb helpers_ok rs = true.
Proof.
  induction 1 as [|r l Hr Hl (rs & E & Hlab & Hok)].
  - now exists [].
  - destruct (add_helpers_loadable r Hr) as (r' & E' & Hl' & Hok').
    exists (r' :: rs). cbn [mapM]. rewrite E', E. cbn [bind map forallb].
    now rewrite Hl', Hlab, Hok', Hok.
Qed.

Lemma mapM_add_helpers_inv (l rs : list Row) :
  Forall (fun r => display_keys (cells r)) l ->
  mapM add_helpers l = Ok rs ->
  map label rs = map label l /\ forallb helpers_ok rs = true.
Proof.
  intros Hk. revert rs. induction Hk as [|r l Hr Hl IH]; intros rs;
    cbn [mapM].
  - intros H. injection H as <-. now split.
  - destruct (add_helpers r) as [r'|] eqn:E; [|discriminate].
    destruct (mapM add_helpers l) as [rs'|]; [|discriminate].
    cbn [bind]. intros H. injection H as <-.
    destruct (IH rs' eq_refl) as [Hlab Hok].
    destruct (add_helpers_loadable r
                (conj (add_helpers_named r r' E) Hr))
      as (r'' & E' & Hl' & Hok').
    rewrite E in E'. injection E' as <-.
    cbn [map forallb]. now rewrite Hl', Hlab, Hok', Hok.
Qed.

Lemma sort_key_choice (raw : DataFrame) :
  (if has_col "AdjPts" (columns (kept_frame raw)) then Ok "AdjPts"
   else if has_col "ProjPts" (columns (kept_frame raw)) then Ok "ProjPts"
        else Raise ValueError)
  = if has_points (columns raw)
    then Ok (if has_col "AdjPts" (columns (kept_frame raw))
             then "AdjPts" else "ProjPts")
    else Raise ValueError.
Proof.
  unfold has_points. rewrite <- orb_assoc, <- kept_has_adjusted, <- kept_has_projected.
  destruct (has_col "AdjPts" _), (has_col "ProjPts" _); reflexivity.
Qed.

Lemma sorted_frame_length (parse_float : str -> option Q) (sk : string)
    (raw : DataFrame) :
  List.length (rows (sorted_frame parse_float sk raw))
  = List.length (rows raw).
Proof.
  unfold sorted_frame. cbn [rows].
  rewrite <- (length_map label), relabel_labels, length_seq.
  rewrite sort_rows_length. unfold coerce_numeric, coerced_columns. cbn [fold_left].
  repeat match goal with
         | |- context [if ?b then _ else _] => destruct b
         end;
    unfold map_column, kept_frame, select_columns, rename; cbn [rows];
    now rewrite !length_map.
Qed.

Lemma Ok_pair_inv {A B : Type} (a a' : A) (b b' : B) :
  Ok (a, b) = Ok (a', b') -> a = a' /\ b = b'.
Proof. intros H. injection H as -> ->. now split. Qed.

(** Every frame [load_df] returns is a well-formed pool, with one row
    for each row of the file and the position column of the file, if it
    has one. *)
Lemma load_df_well_formed (parse_float : str -> option Q)
    (raw df : DataFrame) (sk : string) :
  load_df parse_float raw = Ok (df, sk) ->
  well_formed df = true
  /\ List.length (rows df) = List.length (rows raw)
  /\ has_col "Position" (columns df) = has_col "Position" (columns raw).
Proof.
  rewrite load_df_stages, sort_key_choice.
  destruct (has_points (columns raw)); [|discriminate].
  cbn [bind]. set (k := if has_col "AdjPts" _ then _ else _).
  cbv zeta. rewrite sorted_frame_columns.
  destruct (has_col "Full Name" (columns (kept_frame raw)));
    [|discriminate].
  cbn [negb].
  destruct (mapM add_helpers _) as [rs|] eqn:M; [|discriminate].
  cbn [bind]. intros H. apply Ok_pair_inv in H as [<- _].
  apply mapM_add_helpers_inv in M as [Hlab Hok];
    [|apply stage_sorted;
      [exact display_keys_map_column | apply kept_display_keys]].
  split; [|split].
  - unfold well_formed. cbn [columns rows]. rewrite Hok, andb_true_r.
    apply andb_true_iff. split.
    + unfold helper_columns. cbn [forallb]. rewrite !andb_true_iff.
      repeat split; apply has_col_In, in_or_app; right; simpl; tauto.
    + rewrite Hlab. unfold sorted_frame. cbn [rows].
      rewrite relabel_labels. apply NoDup_distinct, seq_NoDup.
  - cbn [rows]. rewrite <- (length_map label rs), Hlab, length_map.
    apply sorted_frame_length.
  - cbn [columns]. rewrite <- kept_has_position.
    apply has_col_iff. rewrite in_app_iff. split; [|tauto].
    intros [H|H]; [exact H|]. exfalso.
    simpl in H. intuition discriminate.
Qed.

(** With a points column, a name column and text in every name field,
    [load_df] returns. *)
Lemma load_df_returns (parse_float : str -> option Q) (raw : DataFrame) :
  has_points (columns raw) = true ->
  has_col "Full Name" (columns raw) = true ->
  names_are_text raw = true ->
  exists df sk, load_df parse_float raw = Ok (df, sk).
Proof.
  intros Hpts Hname Htext. rewrite load_df_stages, sort_key_choice, Hpts.
  cbn [bind]. set (sk := if has_col "AdjPts" _ then _ else _).
  cbv zeta. rewrite sorted_frame_columns, kept_has_name, Hname. cbn [negb].
  assert (Hl : Forall loadable (rows (sorted_frame parse_float sk raw))).
  { apply Forall_and.
    - apply stage_sorted; [exact named_map_column | now apply kept_named].
    - apply stage_sorted;
        [exact display_keys_map_column | apply kept_display_keys]. }
  destruct (mapM_add_helpers _ Hl) as (rs & -> & _).
  cbn [bind]. now eexists _, sk.
Qed.

(** ** The command loop never runs out of fuel *)

Lemma prompt_rest (df : DataFrame) (tmp : list Row) (inputs : list str) :
  forall df' idx out rest,
    prompt df tmp inputs = Ok (df', idx, out, rest) ->
    List.length rest < List.length inputs.
Proof.
  induction inputs as [|line inputs IH]; intros df' idx out rest;
    cbn [prompt]; [discriminate|].
  destruct (negb (isdigit (strip line))).
  - destruct (prompt df tmp inputs) as [[[[d i] o] r]|] eqn:P;
      [|discriminate].
    cbn [bind]. intros H. injection H as _ _ _ <-.
    specialize (IH _ _ _ _ eq_refl). simpl. lia.
  - destruct (int_of (strip line)) as [n|]; [|discriminate]. cbn [bind].
    destruct ((1 <=? n)%N && (n <=? N.of_nat (List.length tmp))%N).
    + destruct (nth_error tmp _) as [r|]; [|discriminate].
      destruct (remove_row df (label r)) as [[d ev]|]; [|discriminate].
      cbn [bind]. intros H. injection H as _ _ _ <-. simpl. lia.
    + destruct (prompt df tmp inputs) as [[[[d i] o] r]|] eqn:P;
        [|discriminate].
      cbn [bind]. intros H. injection H as _ _ _ <-.
      specialize (IH _ _ _ _ eq_refl). simpl. lia.
Qed.

Section Fuel.
Variable upper : str -> str.
Variable isalpha : char -> bool.

Lemma mark_drafted_rest (df df' : DataFrame) (query : str)
    (inputs rest : list str) (idx : option nat) (out : list event) :
  mark_drafted isalpha df query inputs = Ok (df', idx, out, rest) ->
  List.length rest <= List.length inputs.
Proof.
  unfold mark_drafted. destruct (resolve isalpha df query) as [|r|c].
  - intros H. injection H as _ _ _ <-. lia.
  - destruct (remove_row df (label r)) as [[d ev]|]; [|discriminate].
    cbn [bind]. intros H. injection H as _ _ _ <-. lia.
  - destruct (prompt df c inputs) as [[[[d i] o] r]|] eqn:P;
      [|discriminate].
    cbn [bind]. intros H. injection H as _ _ _ <-.
    apply prompt_rest in P. lia.
Qed.

Lemma remove_rest (df df' : DataFrame) (sort_key : string)
    (history history' : list nat) (query : str) (inputs rest : list str)
    (out : list event) :
  remove upper isalpha df sort_key history query inputs
  = Ok (df', history', out, rest) ->
  List.length rest <= List.length inputs.
Proof.
  unfold remove.
  destruct (mark_drafted isalpha df query inputs)
    as [[[[d i] o] r]|] eqn:M; [|discriminate].
  cbn [bind]. destruct (show_top upper d sort_key 3 None); [|discriminate].
  cbn [bind]. intros H. injection H as _ _ _ <-.
  now apply mark_drafted_rest in M.
Qed.

Lemma step_returns {X : Type}
    (k : DataFrame -> list nat -> list str -> list event
         -> option (result X))
    (r : result (DataFrame * list nat * list event * list str)) :
  (forall d h e rest, r = Ok (d, h, e, rest) -> k d h rest e <> None) ->
  match r with
  | Ok (d, h, e, rest) => k d h rest e
  | Raise e => Some (Raise e)
  end <> None.
Proof.
  destruct r as [[[[d h] e] rest]|]; [|discriminate].
  intros H. now apply H.
Qed.

(** With more fuel than lines of input, [main_loop] comes to a result. *)
Lemma main_loop_returns (fuel : nat) :
  forall (df : DataFrame) (sort_key : string) (history : list nat)
         (inputs : list str) (out : list event),
    List.length inputs < fuel ->
    main_loop upper isalpha fuel df sort_key history inputs out <> None.
Proof.
  induction fuel as [|fuel IH]; intros df sk history inputs out Hlen;
    [lia|].
  destruct inputs as [|line rest]; cbn [main_loop]; [discriminate|].
  cbn [List.length] in Hlen.
  assert (Hk : forall d h rest' e,
             List.length rest' <= List.length rest ->
             main_loop upper isalpha fuel d sk h rest' (out ++ e) <> None)
    by (intros; apply IH; lia).
  destruct (strip line) as [|c cmd] eqn:Ecmd; [now apply Hk|].
  repeat match goal with
         | |- (if ?b then _ else _) <> None => destruct b
         end;
    try discriminate; try (now apply Hk);
    apply step_returns; intros d h e rest' Hr;
    apply Hk.
  all: repeat match type of Hr with
         | bind ?m _ = Ok _ =>
             let E := fresh "E" in
             destruct m eqn:E; cbn [bind] in Hr; [|discriminate]
         | (let ' _ := ?p in _) = Ok _ => destruct p
         | (match ?p with _ => _ end) = Ok _ =>
             let E := fresh "E" in destruct p eqn:E
         end;
    try discriminate;
    try (injection Hr as _ _ _ <-; lia);
    try (apply remove_rest in Hr; lia).
Qed.

(** [main] always comes to a result. *)
Lemma main_returns (parse_float : str -> option Q) (raw : DataFrame)
    (inputs : list str) :
  main upper isalpha parse_float raw inputs <> None.
Proof.
  unfold main. destruct (load_df parse_float raw) as [[df sk]|];
    [|discriminate].
  destruct (show_top upper df sk 3 None); [|discriminate].
  apply main_loop_returns. lia.
Qed.
(** The command loop keeps the pool well formed. *)
Lemma main_loop_well_formed (fuel : nat) :
forall (df : DataFrame) (sort_key : string) (history : list nat)
       (inputs : list str) (out : list event)
       (df' : DataFrame) (history' : list nat) (out' : list event),
  well_formed df = true ->
  main_loop upper isalpha fuel df sort_key history inputs out
  = Some (Ok (df', history', out')) ->
  well_formed df' = true.
Proof.
induction fuel as [|fuel IH];
  intros df sk history inputs out df' history' out' Hwf;
  cbn [main_loop]; [discriminate|].
destruct inputs as [|line rest].
{ intros H. injection H as <- _ _. exact Hwf. }
destruct (strip line) as [|c cmd] eqn:Ecmd; [now apply IH|].
repeat match goal with
       | |- (if ?b then _ else _) = _ -> _ => destruct b
       end;
  try (now apply IH);
  try (intros H; injection H as <- _ _; exact Hwf);
  match goal with
  | |- match ?r with _ => _ end = _ -> _ =>
      destruct r as [[[[d h] e] rest']|] eqn:Hr; [|discriminate]
  end;
  apply IH.
all: repeat match type of Hr with
       | bind ?m _ = Ok _ =>
           let E := fresh "E" in
           destruct m eqn:E; cbn [bind] in Hr; [|discriminate]
       | (let ' _ := ?p in _) = Ok _ => destruct p
       | (match ?p with _ => _ end) = Ok _ =>
           let E := fresh "E" in destruct p eqn:E
       end;
  try discriminate;
  try (injection Hr as <- _ _ _; exact Hwf);
  try (eapply remove_well_formed; [exact Hwf | exact Hr]).
all: injection Hr as <- _ _ _;
  eapply undo_well_formed; [exact Hwf | eassumption].
Qed.

(** Every pool [main] ends with is well formed. *)
Lemma main_well_formed (parse_float : str -> option Q) (raw : DataFrame)
  (inputs : list str) (df : DataFrame) (history : list nat)
  (out : list event) :
main upper isalpha parse_float raw inputs = Some (Ok (df, history, out)) ->
well_formed df = true.
Proof.
unfold main. destruct (load_df parse_float raw) as [[d sk]|] eqn:L;
  [|discriminate].
destruct (show_top upper d sk 3 None); [|discriminate].
apply main_loop_well_formed.
now destruct (load_df_well_formed parse_float raw d sk L).
Qed.
End Fuel.

(** * Further properties *)

(** ** The shape of a normalised name *)

Lemma isspace_not_letter (c : char) :
  in_range 65 90 c = true \/ in_range 97 122 c = true -> isspace c = false.
Proof.
  intros H. unfold isspace, in_range in *.
  rewrite !andb_true_iff, !N.leb_le in H.
  repeat match goal with
         | |- context [(?a <=? ?b)%N] => destruct (N.leb_spec a b)
         | |- context [(?a =? ?b)%N] => destruct (N.eqb_spec a b)
         end; try reflexivity; lia.
Qed.

Lemma lower_char_range (c : char) :
  in_range 65 90 c = true ->
  in_range 97 122 (c + 32) = true /\ in_range 65 90 (c + 32) = false.
Proof.
  intros H. apply in_range_spec in H. split.
  - apply in_range_spec. lia.
  - apply not_true_is_false. intros F. apply in_range_spec in F. lia.
Qed.

Lemma lower_char_cases (c : char) :
  (in_range 65 90 c = true /\ lower_char c = (c + 32)%N)
  \/ (in_range 65 90 c = false /\ lower_char c = c).
Proof.
  unfold lower_char. destruct (in_range 65 90 c); [left | right]; now split.
Qed.

Lemma isspace_lower_char (c : char) : isspace (lower_char c) = isspace c.
Proof.
  destruct (lower_char_cases c) as [[E ->]|[_ ->]]; [|reflexivity].
  rewrite (isspace_not_letter c) by now left.
  apply isspace_not_letter. right. now apply lower_char_range.
Qed.

Lemma is_ascii_letter_lower_char (c : char) :
  is_ascii_letter (lower_char c) = is_ascii_letter c.
Proof.
  destruct (lower_char_cases c) as [[E ->]|[_ ->]]; [|reflexivity].
  unfold is_ascii_letter. rewrite E.
  destruct (lower_char_range c E) as [-> ->]. reflexivity.
Qed.

Lemma name_char_lower_char (c : char) :
  name_char (lower_char c) = name_char c.
Proof.
  unfold name_char.
  rewrite is_ascii_letter_lower_char, isspace_lower_char. f_equal. f_equal.
  destruct (lower_char_cases c) as [[E ->]|[_ ->]]; [|reflexivity].
  apply in_range_spec in E. unfold apostrophe.
  destruct (N.eqb_spec (c + 32) 39), (N.eqb_spec c 39); try reflexivity; lia.
Qed.

Lemma lower_idempotent (s : str) : lower (lower s) = lower s.
Proof.
  unfold lower. rewrite map_map. apply map_ext. intros c.
  destruct (lower_char_cases c) as [[E ->]|[E ->]].
  - destruct (lower_char_cases (c + 32)%N) as [[F _]|[_ ->]]; [|reflexivity].
    destruct (lower_char_range c E). congruence.
  - destruct (lower_char_cases c) as [[F _]|[_ ->]]; [congruence|reflexivity].
Qed.

Lemma filter_lower (p : char -> bool) (s : str) :
  (forall c, p (lower_char c) = p c) ->
  filter p (lower s) = lower (filter p s).
Proof.
  intros Hp. induction s as [|c s IH]; [reflexivity|]. cbn [lower map filter].
  rewrite Hp. fold (lower s). rewrite IH. now destruct (p c).
Qed.

Lemma dropwhile_lower (s : str) :
  dropwhile isspace (lower s) = lower (dropwhile isspace s).
Proof.
  induction s as [|c s IH]; [reflexivity|]. cbn [lower map dropwhile].
  rewrite isspace_lower_char. fold (lower s). rewrite IH.
  now destruct (isspace c).
Qed.

Lemma strip_lower (s : str) : strip (lower s) = lower (strip s).
Proof.
  unfold strip, rstrip, lstrip. rewrite dropwhile_lower.
  unfold lower at 1. rewrite <- map_rev. fold (lower (rev (dropwhile isspace s))).
  rewrite dropwhile_lower. unfold lower. now rewrite map_rev.
Qed.

(** The tokens of a name do not depend on the [strip] before the
    lowering. *)
Lemma name_tokens_unstripped (name : str) :
  name_tokens name
  = filter (fun t => negb (is_suffix_token t))
           (split (lower (filter name_char name))).
Proof.
  unfold name_tokens. now rewrite <- strip_lower, split_strip.
Qed.

Lemma emit_app (cur : str) (rest : list str) :
  emit cur rest = emit cur [] ++ rest.
Proof. now destruct cur. Qed.

Lemma split_go_app (a b cur : str) (c : char) :
  isspace c = true ->
  split_go (a ++ c :: b) cur = split_go a cur ++ split b.
Proof.
  intros Hc. revert cur. induction a as [|x a IH]; intros cur;
    cbn [app split_go].
  - rewrite Hc. apply emit_app.
  - destruct (isspace x); [|apply IH].
    rewrite IH, (emit_app cur (_ ++ _)), (emit_app cur (split_go a [])).
    now rewrite app_assoc.
Qed.

(** The words on both sides of a white-space character. *)
Lemma split_app (a b : str) (c : char) :
  isspace c = true -> split (a ++ c :: b) = split a ++ split b.
Proof. intros Hc. now apply split_go_app. Qed.

Lemma name_tokens_app (x y : str) :
  name_tokens (x ++ space :: y) = name_tokens x ++ name_tokens y.
Proof.
  rewrite !name_tokens_unstripped, filter_app. cbn [filter].
  change (name_char space) with true. cbv iota.
  unfold lower at 1. rewrite map_app. cbn [map].
  change (lower_char space) with space.
  fold (lower (filter name_char x)). fold (lower (filter name_char y)).
  now rewrite split_app, filter_app by reflexivity.
Qed.

Lemma join_nil_tokens (toks : list str) :
  Forall token toks -> join [space] toks = [] -> toks = [].
Proof.
  intros H. destruct H as [|t rest [Hne _] _]; [reflexivity|].
  cbn [join]. destruct rest; intros E.
  - contradiction.
  - destruct t; [contradiction | discriminate].
Qed.

Lemma normalize_name_empty_tokens (name : str) :
  normalize_name name = [] <-> name_tokens name = [].
Proof.
  rewrite normalize_name_tokens. split.
  - apply join_nil_tokens, name_tokens_token.
  - now intros ->.
Qed.

(** X1: a normalised name consists of lower-case ASCII letters,
    apostrophes and single spaces between its words: it is the
    single-space join of its own words, and none of its words is one of
    the suffixes jr, sr, ii, iii, iv, v. *)
Theorem normalize_name_canonical (x : str) :
  Forall (fun c => in_range 97 122 c = true \/ c = apostrophe \/ c = space)
         (normalize_name x)
  /\ normalize_name x = join [space] (split (normalize_name x))
  /\ Forall (fun t => is_suffix_token t = false /\ t <> [])
            (split (normalize_name x)).
Proof.
  rewrite split_normalize_name. split; [|split].
  - rewrite normalize_name_tokens.
    apply join_Forall; [repeat constructor; tauto|].
    pose proof (name_tokens_token x) as Ht.
    pose proof (name_tokens_settled x) as Hs.
    rewrite Forall_forall in *. intros t Hin.
    specialize (Ht t Hin). specialize (Hs t Hin). destruct Ht as [_ Hns].
    rewrite forallb_forall in Hns. rewrite Forall_forall in *.
    intros c Hc. specialize (Hs c Hc). specialize (Hns c Hc).
    destruct Hs as [Hn Hl]. apply negb_true_iff in Hns.
    unfold name_char in Hn. rewrite Hns, orb_false_r in Hn.
    apply orb_true_iff in Hn as [Hn|Hn].
    + left. unfold is_ascii_letter in Hn. apply orb_true_iff in Hn as [Hn|Hn];
        [|exact Hn].
      exfalso. unfold lower_char in Hl. rewrite Hn in Hl.
      apply in_range_spec in Hn. lia.
    + right. left. now apply N.eqb_eq in Hn.
  - apply normalize_name_tokens.
  - pose proof (name_tokens_token x) as Ht.
    rewrite Forall_forall in *. intros t Hin. split.
    + unfold name_tokens in Hin. apply filter_In in Hin as [_ H].
      now apply negb_true_iff in H.
    + now destruct (Ht t Hin).
Qed.

Lemma normalize_name_lower (z : str) :
  normalize_name (lower z) = normalize_name z.
Proof.
  unfold normalize_name.
  rewrite (filter_lower name_char z name_char_lower_char).
  now rewrite strip_lower, lower_idempotent.
Qed.

(** X2: normalisation ignores the case of ASCII letters: two names that
    differ only in the case of their letters have the same normal form. *)
Theorem normalize_name_ignores_case (x y : str) :
  lower x = lower y -> normalize_name x = normalize_name y.
Proof.
  intros E.
  now rewrite <- (normalize_name_lower x), <- (normalize_name_lower y), E.
Qed.

(** X3: the words of two names written one after the other, separated by
    a space, are the words of the first followed by the words of the
    second; so adding words that normalise to nothing (suffixes such as
    "Jr." or "III", digits, punctuation) before or after a name leaves
    its normal form unchanged. *)
Theorem normalize_name_of_two_parts (x y : str) :
  normalize_name (x ++ space :: y)
  = join [space] (split (normalize_name x) ++ split (normalize_name y))
  /\ (normalize_name y = [] ->
      normalize_name (x ++ space :: y) = normalize_name x)
  /\ (normalize_name x = [] ->
      normalize_name (x ++ space :: y) = normalize_name y).
Proof.
  rewrite !split_normalize_name.
  assert (E : normalize_name (x ++ space :: y)
              = join [space] (name_tokens x ++ name_tokens y))
    by now rewrite normalize_name_tokens, name_tokens_app.
  split; [exact E|]. split; intros H; rewrite E;
    apply normalize_name_empty_tokens in H; rewrite H.
  - now rewrite app_nil_r.
  - reflexivity.
Qed.

Lemma token_words (t : str) : token t -> split t = [t].
Proof.
  intros H. apply (split_join [t]). constructor; [exact H | constructor].
Qed.

Lemma last_name_cases (x : str) :
  (name_tokens x = [] /\ last_name x = [])
  \/ exists pre t, name_tokens x = pre ++ [t] /\ last_name x = t.
Proof.
  unfold last_name. rewrite split_normalize_name. unfold last_opt.
  destruct (rev (name_tokens x)) as [|t rest] eqn:E.
  - left. assert (H : name_tokens x = [])
      by (rewrite <- (rev_involutive (name_tokens x)), E; reflexivity).
    split; [exact H|]. now rewrite normalize_name_tokens, H.
  - right. exists (rev rest), t. split; [|reflexivity].
    now rewrite <- (rev_involutive (name_tokens x)), E.
Qed.

(** A word of a normalised name is its own normal form. *)
Lemma name_token_fixed (x t : str) :
  In t (name_tokens x) -> name_tokens t = [t].
Proof.
  intros Hin.
  pose proof (name_tokens_token x) as Ht.
  pose proof (name_tokens_settled x) as Hs.
  rewrite Forall_forall in Ht, Hs.
  specialize (Ht t Hin). specialize (Hs t Hin).
  rewrite name_tokens_unstripped.
  rewrite (filter_all name_char t)
    by (eapply Forall_impl; [|exact Hs]; now intros c [Hc _]).
  rewrite lower_settled, token_words by assumption.
  cbn [filter]. unfold name_tokens in Hin. apply filter_In in Hin as [_ ->].
  reflexivity.
Qed.

(** X4: the last-name token is the last word of the normalised name:
    the words of the normalised name are some words followed by it.  It
    is empty exactly when the normalised name is; it has no white space,
    is not a suffix, and is its own last-name token and its own normal
    form. *)
Theorem last_name_is_last_word (x : str) :
  ((normalize_name x = [] /\ last_name x = [])
   \/ exists pre, split (normalize_name x) = pre ++ [last_name x])
  /\ (last_name x = [] <-> normalize_name x = [])
  /\ forallb (fun c => negb (isspace c)) (last_name x) = true
  /\ is_suffix_token (last_name x) = false
  /\ normalize_name (last_name x) = last_name x
  /\ last_name (last_name x) = last_name x
  /\ exists pre, normalize_name x = pre ++ last_name x.
Proof.
  destruct (last_name_cases x) as [[Hn ->]|(pre & t & Hn & ->)].
  - split; [left; split; [now apply normalize_name_empty_tokens
                         | reflexivity]|].
    repeat split; try reflexivity.
    + intros _. now apply normalize_name_empty_tokens.
    + exists []. now rewrite normalize_name_tokens, Hn.
  - split; [right; exists pre; now rewrite split_normalize_name|].
    assert (Hin : In t (name_tokens x))
      by (rewrite Hn; apply in_or_app; right; now left).
    pose proof (name_tokens_token x) as Ht. rewrite Forall_forall in Ht.
    destruct (Ht t Hin) as [Hne Hns].
    assert (Hfix : normalize_name t = t)
      by now rewrite normalize_name_tokens, (name_token_fixed x t Hin).
    split; [|split; [exact Hns | split; [|split; [exact Hfix|split]]]].
    + split; intros H; [now contradiction Hne|].
      apply normalize_name_empty_tokens in H. rewrite H in Hn.
      now destruct pre.
    + unfold name_tokens in Hin. apply filter_In in Hin as [_ H].
      now apply negb_true_iff in H.
    + unfold last_name. rewrite Hfix, (token_words t (Ht t Hin)).
      reflexivity.
    + rewrite normalize_name_tokens, Hn. apply join_snoc.
Qed.

Lemma split_leading_spaces (ws m : str) :
  forallb isspace ws = true -> split (ws ++ m) = split m.
Proof.
  unfold split. induction ws as [|c ws IH]; cbn [app forallb split_go];
    [reflexivity|].
  intros H. apply andb_true_iff in H as [-> H]. now apply IH.
Qed.

Lemma strip_decompose (s : str) :
  exists ws1 ws2,
    forallb isspace ws1 = true /\ forallb isspace ws2 = true
    /\ s = ws1 ++ strip s ++ ws2.
Proof.
  destruct (rstrip_decompose (lstrip s)) as (ws2 & H2 & E).
  exists (takewhile isspace s), ws2. repeat split.
  - apply takewhile_all.
  - exact H2.
  - unfold strip. rewrite <- E. unfold lstrip.
    now rewrite takewhile_dropwhile.
Qed.

Lemma filter_spaces (ws : str) :
  forallb isspace ws = true -> filter name_char ws = ws.
Proof.
  intros H. apply filter_all, Forall_forall. intros c Hc.
  rewrite forallb_forall in H. unfold name_char. rewrite (H c Hc).
  apply orb_true_r.
Qed.

Lemma lower_spaces (ws : str) :
  forallb isspace ws = true -> forallb isspace (lower ws) = true.
Proof.
  rewrite !forallb_forall. intros H c Hc. unfold lower in Hc.
  apply in_map_iff in Hc as (c0 & <- & Hc0).
  rewrite isspace_lower_char. now apply H.
Qed.

(** White space around a name does not change its normal form. *)
Lemma normalize_name_strip (s : str) :
  normalize_name (strip s) = normalize_name s.
Proof.
  rewrite !normalize_name_tokens. f_equal.
  rewrite !name_tokens_unstripped. f_equal.
  destruct (strip_decompose s) as (ws1 & ws2 & H1 & H2 & E).
  rewrite E at 2.
  rewrite !filter_app, (filter_spaces ws1 H1), (filter_spaces ws2 H2).
  unfold lower. rewrite !map_app.
  fold (lower ws1) (lower ws2) (lower (filter name_char (strip s))).
  rewrite split_leading_spaces by now apply lower_spaces.
  unfold split. now rewrite split_go_app_spaces by now apply lower_spaces.
Qed.

Lemma strip_no_space (q : str) :
  Forall (fun c => isspace c = false) q -> strip q = q.
Proof.
  assert (H : forall l, Forall (fun c => isspace c = false) l ->
                        dropwhile isspace l = l).
  { intros l Hl. destruct Hl as [|c l Hc _]; [reflexivity|].
    cbn [dropwhile]. now rewrite Hc. }
  intros Hq. unfold strip, rstrip, lstrip. rewrite (H q Hq).
  rewrite H by now apply Forall_rev. apply rev_involutive.
Qed.

(** ** What the matcher finds *)

Section Finding.
Variable isalpha : char -> bool.

(** X5: in a well-formed pool, an available player whose last-name
    token consists of letters is found by typing that token, in any
    mixture of upper and lower case: the player is among the
    candidates, so the query does not come back without a match. *)
Theorem surname_finds_player (df : DataFrame) (p : Row) (s q : str) :
  well_formed df = true ->
  In p (rows df) -> is_available p = true ->
  get "Full Name" p = VStr s ->
  lower q = last_name s -> forallb is_ascii_letter q = true ->
  In p (candidates isalpha df q) /\ resolve isalpha df q <> NoMatch.
Proof.
  intros Hwf Hp Hav Hname Hq Hletters.
  apply well_formed_parts in Hwf as (_ & _ & Hh).
  destruct (helpers_ok_spec p (Hh p Hp)) as (s' & b & H1 & _ & H3 & _).
  rewrite Hname in H1. injection H1 as <-.
  assert (Hns : Forall (fun c => isspace c = false) q).
  { apply Forall_forall. intros c Hc. rewrite forallb_forall in Hletters.
    apply isspace_not_letter. specialize (Hletters c Hc).
    unfold is_ascii_letter in Hletters.
    now apply orb_true_iff in Hletters. }
  assert (Hstrip : strip q = q) by now apply strip_no_space.
  assert (Hone : has_char space (strip q) = false).
  { rewrite Hstrip. unfold has_char. apply not_true_is_false. intros H.
    apply existsb_exists in H as (c & Hc & E). apply N.eqb_eq in E.
    subst c. rewrite Forall_forall in Hns. now specialize (Hns _ Hc). }
  assert (Hql : letters_only (strip q) = last_name s).
  { rewrite Hstrip. unfold letters_only.
    now rewrite (forallb_filter_id is_ascii_letter q Hletters). }
  assert (Hin : In p (candidates isalpha df q)).
  { rewrite candidates_one_word by exact Hone. apply filter_In.
    split; [exact Hp|]. rewrite Hav, Hql. unfold lname_is.
    rewrite H3. apply str_eqb_refl. }
  split; [exact Hin|]. unfold resolve.
  destruct (candidates isalpha df q) as [|r [|r' c]];
    [destruct Hin | discriminate | discriminate].
Qed.

(** X6: in a well-formed pool, an available player is found by typing
    the full name, in any mixture of upper and lower case and with
    white space around it, provided the name has a space and a letter:
    the player is among the candidates, and every candidate's
    normalised name contains the normalised query. *)
Theorem full_name_finds_player (df : DataFrame) (p : Row) (s q : str) :
  well_formed df = true ->
  In p (rows df) -> is_available p = true ->
  get "Full Name" p = VStr s ->
  lower (strip q) = lower (strip s) ->
  has_char space (strip q) = true -> existsb isalpha (strip q) = true ->
  In p (candidates isalpha df q)
  /\ resolve isalpha df q <> NoMatch
  /\ forall r, In r (candidates isalpha df q) ->
               norm_contains (normalize_name s) r = true.
Proof.
  intros Hwf Hp Hav Hname Hq Hsp Hal.
  apply well_formed_parts in Hwf as (_ & _ & Hh).
  destruct (helpers_ok_spec p (Hh p Hp)) as (s' & b & H1 & H2 & _).
  rewrite Hname in H1. injection H1 as <-.
  assert (Hqn : normalize_name (strip q) = normalize_name s).
  { rewrite <- (normalize_name_lower (strip q)), Hq, normalize_name_lower.
    apply normalize_name_strip. }
  assert (Hpm : is_available p
                && norm_contains (normalize_name (strip q)) p = true).
  { rewrite Hav, Hqn. unfold norm_contains. rewrite H2.
    apply (contains_suffix []). }
  destruct (filter (fun r => is_available r
                             && norm_contains (normalize_name (strip q)) r)
                   (rows df)) as [|r c] eqn:F.
  { assert (Hin : In p []) by (rewrite <- F; apply filter_In; now split).
    destruct Hin. }
  rewrite (candidates_words isalpha df q r c Hsp Hal F), <- F.
  split; [apply filter_In; now split|]. split.
  - unfold resolve.
    rewrite (candidates_words isalpha df q r c Hsp Hal F).
    destruct c; discriminate.
  - intros r' Hr'. apply filter_In in Hr' as [_ H].
    apply andb_true_iff in H as [_ H]. now rewrite <- Hqn.
Qed.
End Finding.

(** ** The selection prompt *)

Lemma prompt_invalid (df : DataFrame) (tmp : list Row) (line : str)
    (rest : list str) :
  invalid_selection (List.length tmp) line = true ->
  prompt df tmp (line :: rest)
  = (' (df', idx, out, rest') <- prompt df tmp rest ;;
     Ok (df', idx, correction line :: out, rest')).
Proof.
  unfold invalid_selection, correction. cbn [prompt].
  destruct (negb (isdigit (strip line))); [reflexivity|].
  cbn [orb]. destruct (int_of (strip line)) as [n|]; [|discriminate].
  cbn [bind]. intros H. apply negb_true_iff in H. now rewrite H.
Qed.

Lemma prompt_valid (df : DataFrame) (tmp : list Row) (line : str)
    (rest : list str) (n : N) :
  isdigit (strip line) = true -> int_of (strip line) = Ok n ->
  (1 <= n <= N.of_nat (List.length tmp))%N ->
  exists r,
    nth_error tmp (N.to_nat n - 1) = Some r
    /\ prompt df tmp (line :: rest)
       = (' (df', ev) <- remove_row df (label r) ;;
          Ok (df', label r, [ev], rest)).
Proof.
  intros Hd Hn [Hlo Hhi]. cbn [prompt]. rewrite Hd, Hn. cbn [negb bind].
  apply N.leb_le in Hlo as Hlo', Hhi as Hhi'. rewrite Hlo', Hhi'.
  cbn [andb].
  destruct (nth_error tmp (N.to_nat n - 1)) as [r|] eqn:E.
  - now exists r.
  - apply nth_error_None in E. lia.
Qed.

Lemma prompt_refused (df : DataFrame) (tmp : list Row) (line : str)
    (rest : list str) :
  refused_by_int line = true ->
  prompt df tmp (line :: rest) = Raise ValueError.
Proof.
  unfold refused_by_int. cbn [prompt]. intros H.
  apply andb_true_iff in H as [-> H]. cbn [negb].
  unfold int_of in *.
  now destruct (forallb _ (strip line) && _).
Qed.

(** X7: the selection prompt turns down every line that is not a string
    of digits or is a number outside 1..k, k being the number of
    candidates, printing one correction for each, and acts on the first
    line that is a number n in that range: in a well-formed pool with
    the name, position and team columns it flags the n-th candidate,
    reports that row, returns its label and leaves the rest of the input
    unread. *)
Theorem prompt_takes_first_valid_line (df : DataFrame) (tmp : list Row)
    (bad : list str) (sel : str) (n : N) (rest : list str) :
  well_formed df = true -> reportable df = true ->
  (forall r, In r tmp -> In r (rows df)) ->
  forallb (invalid_selection (List.length tmp)) bad = true ->
  isdigit (strip sel) = true -> int_of (strip sel) = Ok n ->
  (1 <= n <= N.of_nat (List.length tmp))%N ->
  exists r,
    nth_error tmp (N.to_nat n - 1) = Some r
    /\ prompt df tmp (bad ++ sel :: rest)
       = Ok (set_loc (label r) "__available" (VBool false) df, label r,
             map correction bad
             ++ [PrintRemoved (get "Full Name" r) (get "Position" r)
                              (get "Team" r)],
             rest).
Proof.
  intros Hwf Hrep Hsub Hbad Hd Hn Hrange.
  apply well_formed_parts in Hwf as (_ & Hnd & _).
  destruct (prompt_valid df tmp sel rest n Hd Hn Hrange) as (r & Hnth & Hp).
  exists r. split; [exact Hnth|].
  assert (Hr : In r (rows df)) by (apply Hsub; now apply nth_error_In in Hnth).
  rewrite (remove_row_returns r df Hnd Hr Hrep) in Hp. cbn [bind] in Hp.
  induction bad as [|line bad IH]; [exact Hp|].
  cbn [forallb] in Hbad. apply andb_true_iff in Hbad as [Hline Hbad].
  cbn [app]. rewrite (prompt_invalid df tmp line _ Hline), (IH Hbad).
  reflexivity.
Qed.

(** X8: the exceptions of the selection prompt are not caught.  When the
    query is ambiguous and the console input ends after lines the prompt
    has turned down, [mark_drafted] ends with EOFError; when such lines
    are followed by a string of digits that [int] refuses (a digit that
    is not decimal, such as a superscript two, or more than 4300 digits),
    it ends with ValueError. *)
Theorem ambiguous_query_needs_an_answer (isalpha : char -> bool)
    (df : DataFrame) (query : str) (cands : list Row) (bad : list str) :
  resolve isalpha df query = Ambiguous cands ->
  forallb (invalid_selection (List.length cands)) bad = true ->
  prompt df cands bad = Raise EOFError
  /\ mark_drafted isalpha df query bad = Raise EOFError
  /\ forall line rest,
      refused_by_int line = true ->
      mark_drafted isalpha df query (bad ++ line :: rest)
      = Raise ValueError.
Proof.
  intros Hres Hbad.
  assert (Hp : forall tail e,
             prompt df cands tail = Raise e ->
             prompt df cands (bad ++ tail) = Raise e).
  { intros tail e Ht. induction bad as [|line bad IH]; [exact Ht|].
    cbn [forallb] in Hbad. apply andb_true_iff in Hbad as [Hline Hbad].
    cbn [app].
    now rewrite (prompt_invalid df cands line _ Hline), (IH Hbad). }
  assert (He : prompt df cands bad = Raise EOFError)
    by (rewrite <- (app_nil_r bad); now apply Hp).
  split; [exact He|]. split.
  - unfold mark_drafted. now rewrite Hres, He.
  - intros line rest Hline. unfold mark_drafted.
    now rewrite Hres, (Hp _ _ (prompt_refused df cands line rest Hline)).
Qed.

(** ** The history and the drafted players *)

Lemma is_available_set_cell (b : bool) (r : Row) :
  is_available (set_cell "__available" (VBool b) r) = b.
Proof. unfold is_available. now rewrite get_set_same. Qed.

Lemma existsb_eqb_In (x : nat) (l : list nat) :
  existsb (Nat.eqb x) l = true <-> In x l.
Proof.
  rewrite existsb_exists. split.
  - intros (y & Hy & E). apply Nat.eqb_eq in E. now subst.
  - intros H. exists x. split; [assumption | apply Nat.eqb_refl].
Qed.

Lemma in_index_spec (idx : nat) (df : DataFrame) :
  in_index idx df = true <-> exists r, In r (rows df) /\ label r = idx.
Proof.
  unfold in_index. rewrite existsb_exists. split.
  - intros (r & Hr & E). apply Nat.eqb_eq in E. now exists r.
  - intros (r & Hr & E). exists r. split; [assumption|].
    now apply Nat.eqb_eq.
Qed.

(** What [tracked] says. *)
Lemma tracked_spec (df : DataFrame) (history : list nat) :
  tracked df history = true
  <-> NoDup history
      /\ (forall r, In r (rows df) ->
                    (is_available r = false <-> In (label r) history))
      /\ (forall i, In i history -> in_index i df = true).
Proof.
  unfold tracked. rewrite !andb_true_iff, !forallb_forall. split.
  - intros [[Hd Hr] Hi]. split; [now apply distinct_NoDup|]. split.
    + intros r Hin. specialize (Hr r Hin). apply Bool.eqb_prop in Hr.
      rewrite <- existsb_eqb_In, <- Hr. now destruct (is_available r).
    + exact Hi.
  - intros (Hd & Hr & Hi). split; [split|].
    + now apply NoDup_distinct.
    + intros r Hin. specialize (Hr r Hin).
      rewrite <- existsb_eqb_In in Hr.
      destruct (is_available r), (existsb (Nat.eqb (label r)) history);
        try reflexivity; simpl; destruct Hr as [H1 H2];
        [now specialize (H2 eq_refl) | now specialize (H1 eq_refl)].
    + exact Hi.
Qed.

Lemma NoDup_snoc (l : list nat) (x : nat) :
  NoDup (l ++ [x]) <-> NoDup l /\ ~ In x l.
Proof.
  split.
  - intros H. apply NoDup_rev in H. rewrite rev_app_distr in H.
    cbn [rev app] in H. inversion H as [|? ? Hx Hl]; subst.
    split.
    + apply NoDup_rev in Hl. now rewrite rev_involutive in Hl.
    + intros Hin. apply Hx. now apply in_rev in Hin.
  - intros [Hl Hx]. rewrite <- (rev_involutive (l ++ [x])).
    apply NoDup_rev. rewrite rev_app_distr. cbn [rev app].
    constructor; [|now apply NoDup_rev].
    intros Hin. apply Hx. now apply in_rev.
Qed.

Lemma rows_set_loc (idx : nat) (v : cell) (df : DataFrame) (r' : Row) :
  In r' (rows (set_loc idx "__available" v df)) ->
  exists r, In r (rows df) /\ label r' = label r
            /\ r' = (if Nat.eqb (label r) idx
                     then set_cell "__available" v r else r).
Proof.
  unfold set_loc. cbn [rows]. intros H.
  apply in_map_iff in H as (r & <- & Hr). exists r.
  repeat split; [assumption|]. now destruct (Nat.eqb (label r) idx).
Qed.

(** Flagging an available row and pushing its label keeps the history in
    step with the pool. *)
Lemma tracked_push (df : DataFrame) (history : list nat) (p : Row) :
  tracked df history = true ->
  In p (rows df) -> is_available p = true ->
  tracked (set_loc (label p) "__available" (VBool false) df)
          (history ++ [label p]) = true.
Proof.
  rewrite !tracked_spec. intros (Hd & Hr & Hi) Hp Hav. split; [|split].
  - apply NoDup_snoc. split; [assumption|]. intros Hin.
    apply (Hr p Hp) in Hin. congruence.
  - intros r' Hr'. apply rows_set_loc in Hr' as (r & Hin & Hl & ->).
    rewrite Hl, in_app_iff. cbn [In].
    destruct (Nat.eqb (label r) (label p)) eqn:E.
    + rewrite is_available_set_cell. apply Nat.eqb_eq in E.
      split; [intros _; right; left; now symmetry | reflexivity].
    + apply Nat.eqb_neq in E. rewrite (Hr r Hin).
      split; [tauto|]. intros [H|[H|[]]]; [exact H | congruence].
  - intros i Hin. rewrite in_index_set_loc.
    apply in_app_iff in Hin as [Hin|[<-|[]]];
      [now apply Hi | now apply in_index_In].
Qed.

(** The last entry of the history names a drafted row of the index;
    restoring it and popping the entry keeps the history in step. *)
Lemma tracked_pop (df : DataFrame) (history : list nat) (idx : nat) :
  well_formed df = true ->
  tracked df (history ++ [idx]) = true ->
  in_index idx df = true
  /\ loc idx "__available" df = Ok (VBool false)
  /\ tracked (set_loc idx "__available" (VBool true) df) history = true.
Proof.
  intros Hwf. apply well_formed_parts in Hwf as (Hcol & _ & Hh).
  rewrite !tracked_spec. intros (Hd & Hr & Hi).
  apply NoDup_snoc in Hd as [Hd Hx].
  assert (Hidx : in_index idx df = true)
    by (apply Hi, in_or_app; right; now left).
  split; [exact Hidx|]. split; [|split; [exact Hd|split]].
  - unfold loc. rewrite Hcol.
    destruct (find (fun r => Nat.eqb (label r) idx) (rows df)) as [r|] eqn:F.
    + apply find_some in F as [Hin E]. apply Nat.eqb_eq in E.
      destruct (helpers_ok_spec r (Hh r Hin)) as (s & b & _ & _ & _ & Hb).
      assert (Hav : is_available r = false)
        by (apply (Hr r Hin); rewrite E; apply in_or_app; right; now left).
      unfold is_available in Hav. rewrite Hb in Hav. now rewrite Hb, Hav.
    + apply in_index_spec in Hidx as (r & Hin & E).
      eapply find_none in F; [|exact Hin]. simpl in F.
      apply Nat.eqb_neq in F. contradiction.
  - intros r' Hr'. apply rows_set_loc in Hr' as (r & Hin & Hl & ->).
    rewrite Hl. specialize (Hr r Hin). rewrite in_app_iff in Hr.
    cbn [In] in Hr. destruct (Nat.eqb (label r) idx) eqn:E.
    + rewrite is_available_set_cell. apply Nat.eqb_eq in E. subst idx.
      split; [discriminate | contradiction].
    + apply Nat.eqb_neq in E. rewrite Hr. split; [|tauto].
      intros [H|[H|[]]]; [exact H | congruence].
  - intros i Hin. rewrite in_index_set_loc. apply Hi, in_or_app. now left.
Qed.

Lemma NoDup_labels_filter (f : Row -> bool) (l : list Row) :
  NoDup (map label l) -> NoDup (map label (filter f l)).
Proof.
  induction l as [|r l IH]; cbn [map filter]; [trivial|].
  intros H. inversion H as [|? ? Hx Hl]; subst.
  destruct (f r); [|now apply IH]. cbn [map]. constructor; [|now apply IH].
  intros Hin. apply Hx. apply in_map_iff in Hin as (r' & E & Hr').
  apply filter_In in Hr' as [Hr' _]. rewrite <- E. now apply in_map.
Qed.

(** In step with a well-formed pool, the history is as long as the list
    of drafted players. *)
Lemma tracked_count (df : DataFrame) (history : list nat) :
  well_formed df = true -> tracked df history = true ->
  List.length (drafted_rows df) = List.length history.
Proof.
  intros Hwf Ht. apply well_formed_parts in Hwf as (_ & Hnd & _).
  apply tracked_spec in Ht as (Hd & Hr & Hi).
  rewrite <- (length_map label). apply Permutation_length.
  apply NoDup_Permutation; [now apply NoDup_labels_filter | exact Hd|].
  intros i. unfold drafted_rows. rewrite in_map_iff. split.
  - intros (r & <- & Hin). apply filter_In in Hin as [Hin Hav].
    apply (Hr r Hin). now apply negb_true_iff.
  - intros Hin. destruct (proj1 (in_index_spec i df) (Hi i Hin))
      as (r & Hrin & <-).
    exists r. split; [reflexivity|]. apply filter_In. split; [assumption|].
    apply negb_true_iff. now apply (Hr r Hrin).
Qed.

(** On a history in step with a well-formed pool the undo loop restores
    every entry it pops. *)
Lemma undo_loop_tracked (stack : list nat) :
  forall count df restored out stack' df' restored' out',
    well_formed df = true -> tracked df (rev stack) = true ->
    undo_loop stack count df restored out
    = Ok (stack', df', restored', out') ->
    well_formed df' = true /\ tracked df' (rev stack') = true
    /\ stack' = skipn (N.to_nat count) stack
    /\ restored' = restored + Nat.min (N.to_nat count) (List.length stack).
Proof.
  induction stack as [|idx stack IH];
    intros count df restored out stack' df' restored' out' Hwf Ht;
    cbn [undo_loop].
  - intros H. injection H as <- <- <- _. rewrite skipn_nil, Nat.min_0_r.
    repeat split; try assumption. lia.
  - cbn [rev] in Ht. destruct (tracked_pop df (rev stack) idx Hwf Ht)
      as (Hidx & Hloc & Ht').
    destruct (0 <? count)%N eqn:Hc.
    + apply N.ltb_lt in Hc. rewrite Hidx, Hloc. cbn [negb andb].
      destruct (loc idx "Full Name" _); [|discriminate].
      destruct (loc idx "Position" _); [|discriminate].
      destruct (loc idx "Team" _); [|discriminate].
      cbn [bind]. intros H.
      apply IH in H as (H1 & H2 & H3 & H4);
        [|now apply well_formed_set_loc | exact Ht'].
      replace (N.to_nat count) with (S (N.to_nat (count - 1))) by lia.
      cbn [skipn List.length]. repeat split; try assumption.
      rewrite H4. cbn [Nat.min]. lia.
    + apply N.ltb_ge in Hc. intros H. injection H as <- <- <- _.
      replace (N.to_nat count) with 0 by lia. cbn [skipn Nat.min rev].
      repeat split; try assumption. lia.
Qed.

Lemma available_after_flag (l : list Row) (p : Row) :
  NoDup (map label l) -> In p l -> is_available p = true ->
  S (List.length
       (filter is_available
               (map (fun r => if Nat.eqb (label r) (label p)
                              then set_cell "__available" (VBool false) r
                              else r) l)))
  = List.length (filter is_available l).
Proof.
  induction l as [|r l IH]; cbn [map filter In]; [tauto|].
  intros Hnd Hp Hav. inversion Hnd as [|? ? Hx Hl]; subst.
  destruct (Nat.eqb (label r) (label p)) eqn:E.
  - apply Nat.eqb_eq in E.
    assert (Hrp : r = p)
      by (apply (NoDup_labels (r :: l) r p Hnd); [now left | exact Hp | exact E]).
    subst r. rewrite is_available_set_cell, Hav. cbn [List.length].
    f_equal. f_equal. f_equal. rewrite <- (map_id l) at 2.
    apply map_ext_in. intros r Hr.
    destruct (Nat.eqb (label r) (label p)) eqn:F; [|reflexivity].
    apply Nat.eqb_eq in F. exfalso. apply Hx. rewrite <- F. now apply in_map.
  - destruct Hp as [->|Hp]; [now rewrite Nat.eqb_refl in E|].
    destruct (is_available r); cbn [List.length]; rewrite <- (IH Hl Hp Hav);
      reflexivity.
Qed.

Lemma undo_loop_out (stack : list nat) :
  forall count df restored out stack' df' restored' out',
    undo_loop stack count df restored out
    = Ok (stack', df', restored', out') ->
    exists extra, out' = out ++ extra /\ forallb is_restored extra = true.
Proof.
  induction stack as [|idx stack IH];
    intros count df restored out stack' df' restored' out'; cbn [undo_loop].
  - intros H. injection H as _ _ _ <-. exists []. now rewrite app_nil_r.
  - destruct (0 <? count)%N;
      [|intros H; injection H as _ _ _ <-; exists []; now rewrite app_nil_r].
    destruct (in_index idx df && negb _).
    + destruct (loc idx "Full Name" _) as [vn|]; [|discriminate].
      destruct (loc idx "Position" _) as [vp|]; [|discriminate].
      destruct (loc idx "Team" _) as [vt|]; [|discriminate].
      cbn [bind]. intros H. apply IH in H as (extra & -> & Hall).
      exists (PrintRestored vn vp vt :: extra). rewrite <- app_assoc.
      split; [reflexivity | exact Hall].
    + apply IH.
Qed.

Lemma show_top_views (upper : str -> str) (df : DataFrame)
    (sort_key : string) (n : nat) (pos : option str) (evs : list event) :
  show_top upper df sort_key n pos = Ok evs -> forallb is_view evs = true.
Proof.
  unfold show_top. destruct (top_rows upper df sort_key n pos) as [top|];
    [|discriminate].
  cbn [bind]. destruct top; intros H; injection H as <-; reflexivity.
Qed.

Section Tracking.
Variable upper : str -> str.
Variable isalpha : char -> bool.

(** X9: in a well-formed pool a removal that returns an index has
    flagged exactly one player: one available row fewer, the columns
    and the index as before, and every row still available is a row
    that was available; a query that matches nothing returns the pool
    as it was, prints the one line and reads no input. *)
Theorem mark_drafted_takes_one_player (df df' : DataFrame) (query : str)
    (inputs rest : list str) (idx : option nat) (out : list event) :
  well_formed df = true ->
  mark_drafted isalpha df query inputs = Ok (df', idx, out, rest) ->
  match idx with
  | Some i =>
      S (List.length (available_rows df')) = List.length (available_rows df)
      /\ columns df' = columns df
      /\ map label (rows df') = map label (rows df)
      /\ (forall r, In r (available_rows df') -> In r (available_rows df))
      /\ exists p, In p (available_rows df) /\ label p = i
                   /\ ~ In p (available_rows df')
  | None => df' = df /\ out = [PrintNoMatch query] /\ rest = inputs
  end.
Proof.
  intros Hwf H. destruct idx as [i|].
  - apply mark_drafted_removed in H as (p & Hp & Hav & -> & -> & _).
    apply well_formed_parts in Hwf as (_ & Hnd & _).
    split; [|split; [reflexivity | split; [apply set_loc_labels|split]]].
    + unfold available_rows, set_loc. cbn [rows].
      now apply available_after_flag.
    + intros r' Hr'. apply filter_In in Hr' as [Hr' Hav'].
      apply rows_set_loc in Hr' as (r & Hin & _ & ->).
      destruct (Nat.eqb (label r) (label p)).
      * rewrite is_available_set_cell in Hav'. discriminate.
      * apply filter_In. now split.
    + exists p. split; [apply filter_In; now split|].
      split; [reflexivity|]. intros Hin.
      apply filter_In in Hin as [Hin _].
      apply rows_set_loc in Hin as (r & Hr & Hl & E).
      assert (r = p) by (apply (NoDup_labels (rows df) r p Hnd Hr Hp);
                         congruence).
      subst r. rewrite Nat.eqb_refl in E.
      assert (Hf : is_available p = false)
        by (rewrite E; apply is_available_set_cell).
      congruence.
  - unfold mark_drafted in H. destruct (resolve isalpha df query) as [|r|c].
    + injection H as <- <- <-. now repeat split.
    + destruct (remove_row df (label r)) as [[d ev]|]; discriminate.
    + destruct (prompt df c inputs) as [[[[d i] o] r]|]; discriminate.
Qed.

Lemma remove_tracked (df df' : DataFrame) (sort_key : string)
    (history history' : list nat) (query : str) (inputs rest : list str)
    (out : list event) :
  tracked df history = true ->
  remove upper isalpha df sort_key history query inputs
  = Ok (df', history', out, rest) ->
  tracked df' history' = true.
Proof.
  intros Ht. unfold remove.
  destruct (mark_drafted isalpha df query inputs)
    as [[[[d [i|]] o] r]|] eqn:M; [| |discriminate]; cbn [bind];
    destruct (show_top upper d sort_key 3 None); try discriminate;
    cbn [bind]; intros H; injection H as <- <- _ _.
  - apply mark_drafted_removed in M as (p & Hp & Hav & -> & -> & _).
    now apply tracked_push.
  - apply mark_drafted_no_index in M. now subst.
Qed.

Lemma undo_tracked (df df' : DataFrame) (sort_key : string)
    (history history' : list nat) (count : N) (out : list event) :
  well_formed df = true -> tracked df history = true ->
  undo upper df sort_key history count = Ok (df', history', out) ->
  tracked df' history' = true.
Proof.
  intros Hwf Ht. unfold undo.
  destruct (undo_loop (rev history) count df 0 [])
    as [[[[s d] n] o]|] eqn:L; [|discriminate].
  cbn [bind]. destruct (show_top upper d sort_key 3 None); [|discriminate].
  cbn [bind]. intros H. injection H as <- <- _.
  apply undo_loop_tracked in L as (_ & H & _);
    [exact H | exact Hwf | now rewrite rev_involutive].
Qed.

(** X10: when the history is in step with a well-formed pool (it lists
    exactly the drafted players), an undo that returns has popped the
    last [count] entries and restored every one of them: the history
    left is again in step with the pool, the number of available
    players has grown by the number of entries popped, and "nothing to
    undo" is printed exactly when the history was empty or the count
    was 0. *)
Theorem undo_restores_the_latest (df df' : DataFrame) (sort_key : string)
    (history history' : list nat) (count : N) (evs : list event) :
  well_formed df = true -> tracked df history = true ->
  undo upper df sort_key history count = Ok (df', history', evs) ->
  history' = firstn (List.length history - N.to_nat count) history
  /\ tracked df' history' = true
  /\ List.length (drafted_rows df') + Nat.min (N.to_nat count)
                                              (List.length history)
     = List.length (drafted_rows df)
  /\ (In PrintNothingToUndo evs <-> history = [] \/ count = 0%N).
Proof.
  intros Hwf Ht Hu.
  pose proof (undo_tracked df df' sort_key history history' count evs
                Hwf Ht Hu) as Ht'.
  pose proof (undo_well_formed upper df df' sort_key history history'
                count evs Hwf Hu) as Hwf'.
  unfold undo in Hu.
  destruct (undo_loop (rev history) count df 0 [])
    as [[[[s d] n] o]|] eqn:L; [|discriminate].
  cbn [bind] in Hu.
  destruct (show_top upper d sort_key 3 None) as [top|] eqn:T;
    [|discriminate].
  cbn [bind] in Hu. injection Hu as <- <- <-.
  pose proof L as L'.
  apply undo_loop_tracked in L' as (_ & _ & Hs & Hn);
    [|exact Hwf | now rewrite rev_involutive].
  rewrite length_rev in Hn. cbn [Nat.add] in Hn.
  assert (Hh : rev s = firstn (List.length history - N.to_nat count)
                              history)
    by (rewrite Hs, skipn_rev; apply rev_involutive).
  split; [exact Hh|]. split; [exact Ht'|]. split.
  - rewrite (tracked_count d (rev s) Hwf' Ht'),
      (tracked_count df history Hwf Ht), Hh, length_firstn. lia.
  - destruct (undo_loop_out (rev history) count df 0 [] s d n o L)
      as (extra & -> & Hall).
    pose proof (show_top_views upper d sort_key 3 None top T) as Hv.
    cbn [app]. subst n.
    assert (Hno : forall l, forallb is_restored l = true ->
                            ~ In PrintNothingToUndo (l ++ top)).
    { intros l Hl Hin. apply in_app_iff in Hin as [Hin|Hin].
      - rewrite forallb_forall in Hl. apply Hl in Hin. discriminate.
      - rewrite forallb_forall in Hv. apply Hv in Hin. discriminate. }
    destruct (Nat.min (N.to_nat count) (List.length history)) eqn:Hm;
      cbn [Nat.eqb].
    + split.
      * intros _. destruct history; [now left|]. right.
        cbn [List.length] in Hm. lia.
      * intros _. apply in_or_app. left. apply in_or_app. right. now left.
    + split.
      * intros Hin. now apply Hno in Hin.
      * intros [->| ->]; [cbn [List.length] in Hm; lia|].
        cbn [N.to_nat Nat.min] in Hm. discriminate.
Qed.
End Tracking.

(** ** What holds in every state the command loop reaches *)

Lemma profile_set_cell (v : cell) (r : Row) :
  profile (set_cell "__available" v r) = profile r.
Proof.
  unfold profile, set_cell. cbn [label cells]. f_equal.
  induction (cells r) as [|[k w] kvs IH]; cbn [set_assoc filter fst].
  - now rewrite String.eqb_refl.
  - destruct (String.eqb "__available" k) eqn:E; cbn [filter fst];
      rewrite E; cbn [negb]; [reflexivity | now rewrite IH].
Qed.

Lemma same_players_refl (df : DataFrame) : same_players df df.
Proof. now split. Qed.

Lemma same_players_set_loc (df0 df : DataFrame) (idx : nat) (v : cell) :
  same_players df0 df ->
  same_players df0 (set_loc idx "__available" v df).
Proof.
  intros [Hc Hr]. split; [exact Hc|]. rewrite <- Hr.
  unfold set_loc. cbn [rows]. rewrite map_map. apply map_ext. intros r.
  destruct (Nat.eqb (label r) idx); [apply profile_set_cell | reflexivity].
Qed.

Lemma add_helpers_available (r r' : Row) :
  display_keys (cells r) -> add_helpers r = Ok r' -> is_available r' = true.
Proof.
  intros Hk. unfold add_helpers.
  destruct (apply_str normalize_name _); [|discriminate].
  destruct (apply_str last_name _); [|discriminate].
  cbn [bind]. intros H. injection H as <-.
  unfold is_available, get. cbn [cells].
  rewrite assoc_app_missing; [reflexivity|].
  intros Hin. apply display_keys_fst in Hk. rewrite Forall_forall in Hk.
  apply Hk in Hin. simpl in Hin. intuition discriminate.
Qed.

Lemma mapM_add_helpers_available (l rs : list Row) :
  Forall (fun r => display_keys (cells r)) l ->
  mapM add_helpers l = Ok rs -> forallb is_available rs = true.
Proof.
  intros Hk. revert rs. induction Hk as [|r l Hr Hl IH]; intros rs;
    cbn [mapM].
  - intros H. now injection H as <-.
  - destruct (add_helpers r) as [r'|] eqn:E; [|discriminate].
    destruct (mapM add_helpers l) as [rs'|]; [|discriminate].
    cbn [bind]. intros H. injection H as <-. cbn [forallb].
    now rewrite (add_helpers_available r r' Hr E), (IH rs' eq_refl).
Qed.

(** In the pool [load_df] returns every player is available. *)
Lemma load_df_all_available (parse_float : str -> option Q)
    (raw df : DataFrame) (sk : string) :
  load_df parse_float raw = Ok (df, sk) ->
  forallb is_available (rows df) = true.
Proof.
  rewrite load_df_stages, sort_key_choice.
  destruct (has_points (columns raw)); [|discriminate].
  cbn [bind]. set (k := if has_col "AdjPts" _ then _ else _).
  cbv zeta. rewrite sorted_frame_columns.
  destruct (has_col "Full Name" (columns (kept_frame raw)));
    [|discriminate].
  cbn [negb].
  destruct (mapM add_helpers _) as [rs|] eqn:M; [|discriminate].
  cbn [bind]. intros H. apply Ok_pair_inv in H as [<- _]. cbn [rows].
  apply mapM_add_helpers_available in M; [exact M|].
  apply stage_sorted; [exact display_keys_map_column | apply kept_display_keys].
Qed.

Lemma tracked_fresh (df : DataFrame) :
  forallb is_available (rows df) = true -> tracked df [] = true.
Proof.
  intros H. apply tracked_spec. split; [constructor|]. split.
  - intros r Hr. rewrite forallb_forall in H. rewrite (H r Hr).
    split; [discriminate | intros []].
  - intros i [].
Qed.

Section Reachable.
Variable upper : str -> str.
Variable isalpha : char -> bool.

(** A property of the pool and the history that the removal and the
    undo command keep holds after any run of the command loop. *)
Lemma main_loop_invariant (Q : DataFrame -> list nat -> Prop)
    (Hremove : forall df sk h q inputs df' h' out rest,
        Q df h ->
        remove upper isalpha df sk h q inputs = Ok (df', h', out, rest) ->
        Q df' h')
    (Hundo : forall df sk h count df' h' out,
        Q df h -> undo upper df sk h count = Ok (df', h', out) ->
        Q df' h')
    (fuel : nat) :
  forall (df : DataFrame) (sort_key : string) (history : list nat)
         (inputs : list str) (out : list event)
         (df' : DataFrame) (history' : list nat) (out' : list event),
    Q df history ->
    main_loop upper isalpha fuel df sort_key history inputs out
    = Some (Ok (df', history', out')) ->
    Q df' history'.
Proof.
  induction fuel as [|fuel IH];
    intros df sk history inputs out df' history' out' HQ;
    cbn [main_loop]; [discriminate|].
  destruct inputs as [|line rest].
  { intros H. injection H as <- <- _. exact HQ. }
  destruct (strip line) as [|c cmd] eqn:Ecmd; [now apply IH|].
  repeat match goal with
         | |- (if ?b then _ else _) = _ -> _ => destruct b
         end;
    try (now apply IH);
    try (intros H; injection H as <- <- _; exact HQ);
    match goal with
    | |- match ?r with _ => _ end = _ -> _ =>
        destruct r as [[[[d h] e] rest']|] eqn:Hr; [|discriminate]
    end;
    apply IH.
  all: repeat match type of Hr with
         | bind ?m _ = Ok _ =>
             let E := fresh "E" in
             destruct m eqn:E; cbn [bind] in Hr; [|discriminate]
         | (let ' _ := ?p in _) = Ok _ => destruct p
         | (match ?p with _ => _ end) = Ok _ =>
             let E := fresh "E" in destruct p eqn:E
         end;
    try discriminate;
    try (injection Hr as <- <- _ _; exact HQ);
    try (eapply Hremove; [exact HQ | exact Hr]).
  all: injection Hr as <- <- _ _;
    eapply Hundo; [exact HQ | eassumption].
Qed.

Section FromTheFile.
Variable parse_float : str -> option Q.

(** X11: when [main] ends normally, the history lists exactly the
    players that are drafted at that moment: each drafted row's
    label is in it once, every entry is the label of a drafted row,
    and so it is as long as the list of drafted players; the pool
    is well formed. *)
Theorem history_lists_the_drafted (raw : DataFrame) (inputs : list str)
    (df : DataFrame) (history : list nat) (out : list event) :
  main upper isalpha parse_float raw inputs
  = Some (Ok (df, history, out)) ->
  well_formed df = true
  /\ NoDup history
  /\ (forall r, In r (rows df) ->
                (is_available r = false <-> In (label r) history))
  /\ (forall i, In i history -> in_index i df = true)
  /\ List.length (drafted_rows df) = List.length history.
Proof.
  unfold main. destruct (load_df parse_float raw) as [[d sk]|] eqn:L;
    [|discriminate].
  destruct (show_top upper d sk 3 None); [|discriminate].
  intros H.
  assert (HQ : well_formed df = true /\ tracked df history = true).
  { apply (main_loop_invariant
             (fun x h => well_formed x = true /\ tracked x h = true))
      in H; [exact H | | |].
    - intros x k h q ins x' h' o r [Hwf Ht] Hr. split.
      + exact (remove_well_formed upper isalpha x x' k h h' q ins r o
                 Hwf Hr).
      + exact (remove_tracked upper isalpha x x' k h h' q ins r o Ht Hr).
    - intros x k h n x' h' o [Hwf Ht] Hu. split.
      + exact (undo_well_formed upper x x' k h h' n o Hwf Hu).
      + exact (undo_tracked upper x x' k h h' n o Hwf Ht Hu).
    - split.
      + now destruct (load_df_well_formed parse_float raw d sk L).
      + apply tracked_fresh.
        exact (load_df_all_available parse_float raw d sk L). }
  destruct HQ as [Hwf Ht]. split; [exact Hwf|].
  pose proof (tracked_count df history Hwf Ht) as Hn.
  apply tracked_spec in Ht as (H1 & H2 & H3). tauto.
Qed.

(** X12: whatever is typed, [main] only ever toggles availability:
    when it ends normally the pool has the columns of the loaded
    pool and its rows, in the same order, with the same labels and
    the same cells apart from the availability flag. *)
Theorem main_only_toggles_availability (raw : DataFrame)
    (inputs : list str) (df0 df : DataFrame) (sk : string)
    (history : list nat) (out : list event) :
  load_df parse_float raw = Ok (df0, sk) ->
  main upper isalpha parse_float raw inputs
  = Some (Ok (df, history, out)) ->
  same_players df0 df
  /\ List.length (rows df) = List.length (rows raw)
  /\ forall c, c <> "__available" ->
               map (get c) (rows df) = map (get c) (rows df0).
Proof.
  intros L. unfold main. rewrite L.
  destruct (show_top upper df0 sk 3 None); [|discriminate].
  intros H.
  assert (HQ : same_players df0 df).
  { apply (main_loop_invariant (fun x _ => same_players df0 x)) in H;
      [exact H | | | apply same_players_refl].
    - intros x k h q ins x' h' o r HQ Hr. unfold remove in Hr.
      destruct (mark_drafted isalpha x q ins)
        as [[[[d [i|]] o'] r']|] eqn:M; [| |discriminate];
        cbn [bind] in Hr;
        destruct (show_top upper d k 3 None); try discriminate;
        cbn [bind] in Hr; injection Hr as <- _ _ _.
      + apply mark_drafted_removed in M as (p & _ & _ & _ & -> & _).
        now apply same_players_set_loc.
      + apply mark_drafted_no_index in M. now subst.
    - intros x k h n x' h' o HQ Hu. unfold undo in Hu.
      destruct (undo_loop (rev h) n x 0 [])
        as [[[[s d] m] o']|] eqn:Lp; [|discriminate].
      cbn [bind] in Hu.
      destruct (show_top upper d k 3 None); [|discriminate].
      cbn [bind] in Hu. injection Hu as <- _ _.
      eapply (undo_loop_preserves (same_players df0));
        [|exact Lp | exact HQ].
      intros y idx. apply same_players_set_loc. }
  split; [exact HQ|]. destruct HQ as [_ Hp]. split.
  - rewrite <- (length_map profile), Hp, length_map.
    now destruct (load_df_well_formed parse_float raw df0 sk L)
      as (_ & -> & _).
  - intros c Hc.
    set (g := fun pr : nat * list (string * cell) =>
                match assoc c (snd pr) with
                | Some v => v
                | None => VNaN
                end).
    assert (E : forall r, get c r = g (profile r)).
    { intros r. unfold g, get, profile. cbn [snd].
      rewrite assoc_filter_other; [reflexivity | exact Hc]. }
    transitivity (map g (map profile (rows df))).
    + rewrite map_map. apply map_ext. exact E.
    + rewrite Hp, map_map. symmetry. apply map_ext. exact E.
Qed.
End FromTheFile.
End Reachable.

(** ** The order of the views *)

Section Ordering.
Variable precedes : option Q -> option Q -> bool.
Variable key : string.
Hypothesis precedes_asym :
  forall a b, precedes a b = true -> precedes b a = false.
Hypothesis precedes_chain :
  forall a b c,
    precedes b a = false -> precedes c b = false -> precedes c a = false.

Lemma insert_row_sorted (x : Row) (l : list Row) :
  StronglySorted (not_after precedes key) l ->
  StronglySorted (not_after precedes key) (insert_row precedes key x l).
Proof.
  induction 1 as [|y l Hl IH Hy]; cbn [insert_row].
  - repeat constructor.
  - destruct (precedes (num_of (get key y)) (num_of (get key x))) eqn:E.
    + constructor; [exact IH|].
      eapply Permutation_Forall;
        [apply Permutation_sym, insert_row_perm|].
      constructor; [|exact Hy]. unfold not_after. now apply precedes_asym.
    + constructor; [now constructor|].
      constructor; [exact E|].
      eapply Forall_impl; [|exact Hy]. unfold not_after. intros z Hz.
      now apply (precedes_chain _ (num_of (get key y))).
Qed.

Lemma sort_rows_sorted (l : list Row) :
  StronglySorted (not_after precedes key) (sort_rows precedes key l).
Proof.
  induction l as [|x l IH]; cbn [sort_rows fold_right]; [constructor|].
  now apply insert_row_sorted.
Qed.

(** What [nlargest] and [nsmallest] return: the first [n] rows of the
    selection put in order. *)
Lemma select_n_best (n : nat) (cols : list string) (all avail top : list Row) :
  select_n precedes n key cols all avail = Ok top ->
  exists rest,
    Permutation (top ++ rest) avail
    /\ StronglySorted (not_after precedes key) (top ++ rest)
    /\ List.length top = Nat.min n (List.length avail).
Proof.
  unfold select_n. destruct (negb (has_col key cols)); [discriminate|].
  destruct (negb (numeric_col key _)); [discriminate|].
  intros H. injection H as <-.
  exists (skipn n (sort_rows precedes key avail)).
  rewrite firstn_skipn. split; [apply sort_rows_perm|].
  split; [apply sort_rows_sorted|].
  now rewrite length_firstn, sort_rows_length.
Qed.
End Ordering.

Lemma StronglySorted_cross {A : Type} (R : A -> A -> Prop) (l l' : list A) :
  StronglySorted R (l ++ l') ->
  forall a b, In a l -> In b l' -> R a b.
Proof.
  induction l as [|x l IH]; cbn [app]; [intros _ a b []|].
  intros H a b Ha Hb. inversion H as [|? ? Hs Hx]; subst.
  destruct Ha as [<-|Ha]; [|now apply IH].
  rewrite Forall_forall in Hx. apply Hx, in_or_app. now right.
Qed.

Lemma precedes_desc_asym (a b : option Q) :
  precedes_desc a b = true -> precedes_desc b a = false.
Proof.
  destruct a as [x|], b as [y|]; cbn; try discriminate; try reflexivity.
  intros H. apply negb_true_iff in H. apply negb_false_iff.
  apply Qle_bool_iff. apply Qlt_le_weak, Qnot_le_lt.
  intros Hle. apply Qle_bool_iff in Hle. congruence.
Qed.

Lemma precedes_desc_chain (a b c : option Q) :
  precedes_desc b a = false -> precedes_desc c b = false ->
  precedes_desc c a = false.
Proof.
  destruct a as [x|], b as [y|], c as [z|]; cbn;
    try discriminate; try reflexivity.
  intros H1 H2. apply negb_false_iff in H1, H2. apply negb_false_iff.
  apply Qle_bool_iff in H1, H2. apply Qle_bool_iff.
  now apply (Qle_trans _ y).
Qed.

Lemma precedes_asc_asym (a b : option Q) :
  precedes_asc a b = true -> precedes_asc b a = false.
Proof.
  destruct a as [x|], b as [y|]; cbn; try discriminate; try reflexivity.
  intros H. apply negb_true_iff in H. apply negb_false_iff.
  apply Qle_bool_iff. apply Qlt_le_weak, Qnot_le_lt.
  intros Hle. apply Qle_bool_iff in Hle. congruence.
Qed.

Lemma precedes_asc_chain (a b c : option Q) :
  precedes_asc b a = false -> precedes_asc c b = false ->
  precedes_asc c a = false.
Proof.
  destruct a as [x|], b as [y|], c as [z|]; cbn;
    try discriminate; try reflexivity.
  intros H1 H2. apply negb_false_iff in H1, H2. apply negb_false_iff.
  apply Qle_bool_iff in H1, H2. apply Qle_bool_iff.
  now apply (Qle_trans _ y).
Qed.

Section Views.
Variable upper : str -> str.

(** X13: the overall view lists the best of the available players, best
    first: its rows together with the available rows it leaves out are
    all the available rows; by ascending Rank when the pool has a Rank
    column, otherwise by descending sort key, no row is listed after a
    row that ranks behind it and no row left out ranks ahead of a
    listed one; a row without a number ranks last. *)
Theorem overall_view_lists_the_best (df : DataFrame) (sort_key : string)
    (n : nat) (top : list Row) :
  top_rows upper df sort_key n None = Ok top ->
  exists rest,
    Permutation (top ++ rest) (available_rows df)
    /\ List.length top = Nat.min n (List.length (available_rows df))
    /\ (has_col "Rank" (columns df) = true ->
        StronglySorted (not_after precedes_asc "Rank") (top ++ rest)
        /\ forall a b, In a top -> In b rest ->
                       not_after precedes_asc "Rank" a b)
    /\ (has_col "Rank" (columns df) = false ->
        StronglySorted (not_after precedes_desc sort_key) (top ++ rest)
        /\ forall a b, In a top -> In b rest ->
                       not_after precedes_desc sort_key a b).
Proof.
  unfold top_rows. cbn [truthy bind].
  destruct (has_col "Rank" (columns df)) eqn:ERank; intros H.
  - apply (select_n_best precedes_asc "Rank" precedes_asc_asym
             precedes_asc_chain) in H as (rest & Hp & Hs & Hl).
    exists rest. repeat split; try assumption; try discriminate.
    now apply StronglySorted_cross.
  - apply (select_n_best precedes_desc sort_key precedes_desc_asym
             precedes_desc_chain) in H as (rest & Hp & Hs & Hl).
    exists rest. repeat split; try assumption; try discriminate.
    now apply StronglySorted_cross.
Qed.

(** X14: the view of one position lists the best of the available
    players at that position, best first by descending sort key,
    whether or not the pool has a Rank column: it holds n rows, or all
    the qualifying rows when there are fewer; its rows together with
    the qualifying rows it leaves out are all the qualifying rows; no
    row is listed after a row with more points, and no row left out
    has more points than a listed one. *)
Theorem position_view_lists_the_best (df : DataFrame) (sort_key : string)
    (n : nat) (pos : str) (top : list Row) :
  pos <> [] ->
  top_rows upper df sort_key n (Some pos) = Ok top ->
  List.length top
  = Nat.min n (List.length (filter (position_is upper pos)
                                   (available_rows df)))
  /\ exists rest,
      Permutation (top ++ rest)
                  (filter (position_is upper pos) (available_rows df))
      /\ StronglySorted (not_after precedes_desc sort_key) (top ++ rest)
      /\ forall a b, In a top -> In b rest ->
                     not_after precedes_desc sort_key a b.
Proof.
  intros Hpos. unfold top_rows.
  assert (Ht : truthy (Some pos) = true)
    by (destruct pos; [now contradiction Hpos | reflexivity]).
  rewrite Ht. destruct (has_col "Position" (columns df)); [|discriminate].
  destruct (str_accessor "Position" (rows df) (available_rows df));
    [|discriminate].
  cbn [bind]. intros H.
  apply (select_n_best precedes_desc sort_key precedes_desc_asym
           precedes_desc_chain) in H as (rest & Hp & Hs & Hl).
  split; [exact Hl|].
  exists rest. repeat split; try assumption.
  now apply StronglySorted_cross.
Qed.
End Views.

(** ** The pool [load_df] builds *)

Lemma assoc_app (c : string) (l l' : list (string * cell)) :
  assoc c (l ++ l')
  = match assoc c l with
    | Some v => Some v
    | None => assoc c l'
    end.
Proof.
  induction l as [|[k w] l IH]; cbn [assoc app]; [reflexivity|].
  now destruct (String.eqb c k).
Qed.

Lemma add_helpers_get (r r' : Row) (c : string) :
  add_helpers r = Ok r' -> ~ In c helper_columns -> get c r' = get c r.
Proof.
  unfold add_helpers.
  destruct (apply_str normalize_name _); [|discriminate].
  destruct (apply_str last_name _); [|discriminate].
  cbn [bind]. intros H Hc. injection H as <-.
  unfold get. cbn [cells]. rewrite assoc_app.
  destruct (assoc c (cells r)); [reflexivity|].
  cbn [assoc].
  destruct (String.eqb_spec c "__name_norm") as [->|];
    [exfalso; apply Hc; simpl; tauto|].
  destruct (String.eqb_spec c "__lname") as [->|];
    [exfalso; apply Hc; simpl; tauto|].
  destruct (String.eqb_spec c "__available") as [->|];
    [exfalso; apply Hc; simpl; tauto|].
  reflexivity.
Qed.

Lemma mapM_add_helpers_get (l rs : list Row) (c : string) :
  mapM add_helpers l = Ok rs -> ~ In c helper_columns ->
  map (get c) rs = map (get c) l.
Proof.
  revert rs. induction l as [|r l IH]; intros rs; cbn [mapM].
  - intros H _. now injection H as <-.
  - destruct (add_helpers r) as [r'|] eqn:E; [|discriminate].
    destruct (mapM add_helpers l) as [rs'|]; [|discriminate].
    cbn [bind]. intros H Hc. injection H as <-. cbn [map].
    now rewrite (add_helpers_get r r' c E Hc), (IH rs' eq_refl Hc).
Qed.

Lemma get_cells (c : string) (r r' : Row) :
  cells r = cells r' -> get c r = get c r'.
Proof. unfold get. now intros ->. Qed.

Lemma relabel_get (c : string) (i : nat) (l : list Row) :
  map (get c) (relabel i l) = map (get c) l.
Proof.
  revert i; induction l as [|r l IH]; intros i; [reflexivity|].
  cbn [relabel map]. now rewrite IH.
Qed.

(** Order and type of a column are those of its list of values. *)
Lemma sorted_by_values (precedes : option Q -> option Q -> bool)
    (key : string) (l l' : list Row) :
  map (get key) l = map (get key) l' ->
  StronglySorted (not_after precedes key) l ->
  StronglySorted (not_after precedes key) l'.
Proof.
  intros E H. revert l' E.
  induction H as [|a l Hl IH Ha]; intros [|b l'] E; try discriminate;
    [constructor|].
  cbn [map] in E. injection E as Eab El. constructor; [now apply IH|].
  clear IH Hl. revert l' El. induction Ha as [|x l Hx Hxs IHa];
    intros [|y l'] El; try discriminate; [constructor|].
  cbn [map] in El. injection El as Exy El. constructor; [|now apply IHa].
  unfold not_after in *. now rewrite <- Eab, <- Exy.
Qed.

Lemma no_text_by_values (key : string) (l l' : list Row) :
  map (get key) l = map (get key) l' ->
  forallb (fun r => no_text (get key r)) l = true ->
  forallb (fun r => no_text (get key r)) l' = true.
Proof.
  revert l'. induction l as [|a l IH]; intros [|b l'] E; try discriminate;
    [reflexivity|].
  cbn [map] in E. injection E as Eab El. cbn [forallb].
  rewrite !andb_true_iff, Eab. intros [H1 H2]. split; [exact H1|].
  now apply IH.
Qed.

(** A coerced column is numeric when none of its cells is text. *)
Lemma numeric_col_coerced (c : string) (df : DataFrame) :
  has_col c coerced_columns = true ->
  numeric_col c df = forallb (fun r => no_text (get c r)) (rows df).
Proof.
  intros H. unfold numeric_col. rewrite H.
  induction (rows df) as [|r l IH]; [reflexivity|].
  cbn [map existsb forallb]. rewrite negb_orb. now rewrite IH.
Qed.

Section Coercion.
Variable parse_float : str -> option Q.

Lemma to_numeric_no_text (v : cell) :
  no_text (to_numeric parse_float v) = true.
Proof.
  destruct v as [s| | |]; cbn; try reflexivity.
  now destruct (parse_float s).
Qed.

Lemma no_text_to_numeric (v : cell) :
  no_text v = true -> to_numeric parse_float v = v.
Proof. now destruct v. Qed.

Lemma assoc_map_same (c : string) (f : cell -> cell)
    (kvs : list (string * cell)) :
  assoc c (map (fun kv => if String.eqb c (fst kv)
                          then (fst kv, f (snd kv)) else kv) kvs)
  = option_map f (assoc c kvs).
Proof.
  induction kvs as [|[k v] kvs IH]; [reflexivity|].
  cbn [map fst snd]. destruct (String.eqb c k) eqn:E; cbn [assoc];
    rewrite E; [reflexivity | exact IH].
Qed.

(** One step of the coercion loop, on column [col], seen from column
    [c]. *)
Lemma coerce_step_keeps (c col : string) (d : DataFrame) :
  forallb (fun r => no_text (get c r)) (rows d) = true ->
  forallb (fun r => no_text (get c r))
          (rows (if has_col col (columns d)
                 then map_column col (to_numeric parse_float) d else d))
  = true.
Proof.
  intros H. destruct (has_col col (columns d)); [|exact H].
  unfold map_column. cbn [rows]. rewrite forallb_forall in *.
  intros r' Hr'. apply in_map_iff in Hr' as (r & <- & Hr).
  specialize (H r Hr). unfold get in *. cbn [cells].
  destruct (String.eqb_spec col c) as [->|Hne].
  - rewrite assoc_map_same.
    destruct (assoc c (cells r)); [apply to_numeric_no_text | reflexivity].
  - rewrite assoc_map_other by congruence. exact H.
Qed.

Lemma coerce_step_makes (c : string) (d : DataFrame) :
  has_col c (columns d) = true ->
  forallb (fun r => no_text (get c r))
          (rows (if has_col c (columns d)
                 then map_column c (to_numeric parse_float) d else d))
  = true.
Proof.
  intros ->. unfold map_column. cbn [rows]. rewrite forallb_forall.
  intros r' Hr'. apply in_map_iff in Hr' as (r & <- & Hr).
  unfold get. cbn [cells]. rewrite assoc_map_same.
  destruct (assoc c (cells r)); [apply to_numeric_no_text | reflexivity].
Qed.

(** After the coercion a points column holds no text. *)
Lemma coerce_numeric_no_text (c : string) (df : DataFrame) :
  c = "AdjPts" \/ c = "ProjPts" ->
  has_col c (columns df) = true ->
  forallb (fun r => no_text (get c r))
          (rows (coerce_numeric parse_float df)) = true.
Proof.
  intros Hc Hcol. unfold coerce_numeric, coerced_columns. cbn [fold_left].
  apply coerce_step_keeps. destruct Hc as [-> | ->].
  - apply coerce_step_keeps. now apply coerce_step_makes.
  - apply coerce_step_makes.
    now destruct (has_col "AdjPts" (columns df)).
Qed.

(** The values of the columns of the loaded pool, read off the stages
    of [load_df]. *)
Lemma load_df_values (raw df : DataFrame) (sk : string) :
  load_df parse_float raw = Ok (df, sk) ->
  (sk = "AdjPts" \/ sk = "ProjPts")
  /\ sk = (if has_col "AdjPts" (columns (kept_frame raw))
           then "AdjPts" else "ProjPts")
  /\ has_col sk (columns (kept_frame raw)) = true
  /\ has_col "Full Name" (columns (kept_frame raw)) = true
  /\ columns df
     = columns (kept_frame raw) ++ ["__name_norm"; "__lname"; "__available"]
  /\ map label (rows df) = seq 0 (List.length (rows raw))
  /\ forall c, ~ In c helper_columns ->
               map (get c) (rows df)
               = map (get c)
                     (sort_rows precedes_desc sk
                        (rows (coerce_numeric parse_float
                                              (kept_frame raw)))).
Proof.
  rewrite load_df_stages, sort_key_choice.
  destruct (has_points (columns raw)) eqn:Hpts; [|discriminate].
  cbn [bind]. set (k := if has_col "AdjPts" _ then _ else _).
  cbv zeta. rewrite sorted_frame_columns.
  destruct (has_col "Full Name" (columns (kept_frame raw)));
    [|discriminate].
  cbn [negb].
  destruct (mapM add_helpers _) as [rs|] eqn:M; [|discriminate].
  cbn [bind]. intros H. apply Ok_pair_inv in H as [<- <-].
  cbn [rows columns].
  split; [unfold k; destruct (has_col "AdjPts" _); tauto|].
  split; [reflexivity|].
  split; [|split; [reflexivity|split; [reflexivity|split]]].
  - unfold k. destruct (has_col "AdjPts" (columns (kept_frame raw))) eqn:E;
      [exact E|].
    unfold has_points in Hpts.
    rewrite <- orb_assoc, <- kept_has_adjusted, <- kept_has_projected, E
      in Hpts. exact Hpts.
  - pose proof M as M'.
    apply mapM_add_helpers_inv in M' as [Hlab _];
      [|apply stage_sorted;
        [exact display_keys_map_column | apply kept_display_keys]].
    rewrite Hlab. unfold sorted_frame at 1. cbn [rows].
    rewrite relabel_labels. f_equal.
    rewrite <- (sorted_frame_length parse_float k raw).
    unfold sorted_frame. cbn [rows].
    now rewrite <- (length_map label (relabel _ _)), relabel_labels,
      length_seq.
  - intros c Hc. rewrite (mapM_add_helpers_get _ rs c M Hc).
    unfold sorted_frame. cbn [rows]. apply relabel_get.
Qed.

(** The sort-key column of the loaded pool holds no text and is
    numeric. *)
Lemma load_df_sort_key (raw df : DataFrame) (sk : string) :
  load_df parse_float raw = Ok (df, sk) ->
  forallb (fun r => no_text (get sk r)) (rows df) = true
  /\ numeric_col sk df = true.
Proof.
  intros L.
  destruct (load_df_values raw df sk L)
    as (Hk & _ & Hkcol & _ & _ & _ & Hvals).
  assert (Hnh : ~ In sk helper_columns)
    by (simpl; destruct Hk as [-> | ->]; intuition discriminate).
  specialize (Hvals sk Hnh).
  assert (H : forallb (fun r => no_text (get sk r)) (rows df) = true).
  { apply (no_text_by_values sk _ (rows df) (eq_sym Hvals)).
    pose proof (coerce_numeric_no_text sk (kept_frame raw) Hk Hkcol) as Hc.
    rewrite forallb_forall in *. intros r Hr. apply Hc.
    eapply Permutation_in; [apply sort_rows_perm | exact Hr]. }
  split; [exact H|]. rewrite numeric_col_coerced; [exact H|].
  destruct Hk as [-> | ->]; reflexivity.
Qed.

(** X15: the pool [load_df] returns has one row for each row of the
    file, labelled 0, 1, 2, ... in pool order, every one of them
    available; its sort key is AdjPts when the file has the adjusted
    points (under either name) and ProjPts otherwise; the sort-key
    column is there and holds no text (a field that is not a number has
    become empty); and the rows are in descending order of the sort
    key, rows without a number last. *)
Theorem load_df_builds_the_pool (raw df : DataFrame) (sk : string) :
  load_df parse_float raw = Ok (df, sk) ->
  map label (rows df) = seq 0 (List.length (rows raw))
  /\ forallb is_available (rows df) = true
  /\ sk = (if has_col "Adjusted Projected Points" (columns raw)
              || has_col "AdjPts" (columns raw)
           then "AdjPts" else "ProjPts")
  /\ has_col sk (columns df) = true
  /\ numeric_col sk df = true
  /\ forallb (fun r => no_text (get sk r)) (rows df) = true
  /\ StronglySorted (not_after precedes_desc sk) (rows df).
Proof.
  intros L.
  pose proof (load_df_all_available parse_float raw df sk L) as Hav.
  destruct (load_df_values raw df sk L)
    as (Hk & Hsk & Hkcol & _ & Hcols & Hlab & Hvals).
  assert (Hnh : ~ In sk helper_columns)
    by (simpl; destruct Hk as [-> | ->]; intuition discriminate).
  specialize (Hvals sk Hnh).
  destruct (load_df_sort_key raw df sk L) as [Hnt Hnum].
  split; [exact Hlab|]. split; [exact Hav|].
  split; [|split; [|split; [exact Hnum | split; [exact Hnt|]]]].
  - now rewrite <- kept_has_adjusted.
  - rewrite Hcols. apply has_col_In, in_or_app. left.
    now apply has_col_In.
  - apply (sorted_by_values precedes_desc sk _ (rows df) (eq_sym Hvals)).
    apply sort_rows_sorted;
      [exact precedes_desc_asym | exact precedes_desc_chain].
Qed.
End Coercion.

(** ** Columns that keep their name *)

Lemma rename_label_stable (c : string) (m : list (string * string))
    (k : string) :
  Forall (fun ab => snd ab = c <-> fst ab = c) m ->
  (rename_label m k = c <-> k = c).
Proof.
  induction 1 as [|[a b] m Hab Hm IH]; cbn [rename_label]; [reflexivity|].
  destruct (String.eqb_spec k a) as [->|]; [exact Hab | exact IH].
Qed.

Lemma assoc_rename_stable (c : string) (m : list (string * string))
    (kvs : list (string * cell)) :
  Forall (fun ab => snd ab = c <-> fst ab = c) m ->
  assoc c (map (fun kv => (rename_label m (fst kv), snd kv)) kvs)
  = assoc c kvs.
Proof.
  intros Hm. induction kvs as [|[k v] kvs IH]; [reflexivity|].
  cbn [map assoc fst snd]. rewrite IH.
  destruct (String.eqb_spec c k) as [<-|Hne].
  - rewrite (proj2 (rename_label_stable c m c Hm) eq_refl).
    now rewrite String.eqb_refl.
  - destruct (String.eqb_spec c (rename_label m k)) as [E|]; [|reflexivity].
    symmetry in E. apply (rename_label_stable c m k Hm) in E. congruence.
Qed.

Lemma assoc_other_key (c k : string) (kvs : list (string * cell)) :
  c <> k -> assoc c (filter (fun kv => String.eqb k (fst kv)) kvs) = None.
Proof.
  intros Hne. induction kvs as [|[a v] kvs IH]; [reflexivity|].
  cbn [filter fst]. destruct (String.eqb_spec k a) as [<-|]; [|exact IH].
  cbn [assoc]. apply String.eqb_neq in Hne. now rewrite Hne.
Qed.

(** [df[keep]] keeps the cell of every column it names. *)
Lemma assoc_select (c : string) (keep : list string)
    (kvs : list (string * cell)) :
  In c keep ->
  assoc c (flat_map (fun k => filter (fun kv => String.eqb k (fst kv)) kvs)
                    keep)
  = assoc c kvs.
Proof.
  assert (Hall : forall keep',
             assoc c (flat_map
                        (fun k => filter (fun kv => String.eqb k (fst kv)) kvs)
                        keep') = assoc c kvs
             \/ assoc c (flat_map
                           (fun k => filter (fun kv => String.eqb k (fst kv))
                                            kvs) keep') = None).
  { induction keep' as [|k keep' IH]; [now right|].
    cbn [flat_map]. rewrite assoc_app.
    destruct (String.eqb_spec c k) as [<-|Hne].
    - rewrite assoc_filter_key. destruct (assoc c kvs) eqn:E; [now left|].
      destruct IH as [IH|IH]; rewrite IH; left; first [exact E | reflexivity].
    - rewrite (assoc_other_key c k kvs Hne). exact IH. }
  induction keep as [|k keep IH]; [intros []|].
  intros Hin. cbn [flat_map]. rewrite assoc_app.
  destruct (String.eqb_spec c k) as [<-|Hne].
  - rewrite assoc_filter_key. destruct (assoc c kvs) eqn:E; [reflexivity|].
    destruct (Hall keep) as [H|H]; rewrite H; first [exact E | reflexivity].
  - rewrite (assoc_other_key c k kvs Hne). apply IH.
    destruct Hin as [->|Hin]; [now contradiction Hne | exact Hin].
Qed.

(** A display column that no other column is renamed to comes out of the
    renaming and the selection with the cells it had in the file. *)
Lemma kept_get (c : string) (raw : DataFrame) :
  In c display_columns ->
  Forall (fun ab => snd ab = c <-> fst ab = c) rename_map ->
  has_col c (columns raw) = true ->
  map (get c) (rows (kept_frame raw)) = map (get c) (rows raw).
Proof.
  intros Hd Hstable Hcol.
  unfold kept_frame, select_columns, rename. cbn [columns rows].
  set (m := filter (fun kv => has_col (fst kv) (columns raw)) rename_map).
  assert (Hm : Forall (fun ab => snd ab = c <-> fst ab = c) m)
    by (apply filter_Forall, Hstable).
  rewrite !map_map. apply map_ext. intros r. unfold get. cbn [cells].
  rewrite assoc_select; [now rewrite assoc_rename_stable|].
  apply filter_In. split; [exact Hd|]. apply has_col_In, in_map_iff.
  exists c. split; [now apply (rename_label_stable c m c Hm)|].
  now apply has_col_In.
Qed.

Lemma rename_map_rank :
  Forall (fun ab => snd ab = "Rank" <-> fst ab = "Rank") rename_map.
Proof.
  unfold rename_map.
  repeat constructor; cbn [fst snd]; intros; try reflexivity; discriminate.
Qed.

Lemma kept_has_rank (raw : DataFrame) :
  has_col "Rank" (columns (kept_frame raw)) = has_col "Rank" (columns raw).
Proof.
  apply eq_true_iff_eq. rewrite !has_col_In, kept_frame_columns. split.
  - intros (_ & k & Hk & E).
    apply (rename_label_stable "Rank" rename_map k rename_map_rank) in E.
    now subst.
  - intros H. split; [simpl; tauto|]. now exists "Rank".
Qed.

Lemma forallb_perm {A : Type} (f : A -> bool) (l l' : list A) :
  Permutation l l' -> forallb f l = forallb f l'.
Proof.
  induction 1 as [|x l l' _ IH|x y l|l l' l'' _ IH1 _ IH2]; cbn [forallb].
  - reflexivity.
  - now rewrite IH.
  - now destruct (f x), (f y).
  - now rewrite IH1.
Qed.

Lemma existsb_perm {A : Type} (f : A -> bool) (l l' : list A) :
  Permutation l l' -> existsb f l = existsb f l'.
Proof.
  induction 1 as [|x l l' _ IH|x y l|l l' l'' _ IH1 _ IH2]; cbn [existsb].
  - reflexivity.
  - now rewrite IH.
  - now destruct (f x), (f y).
  - now rewrite IH1.
Qed.

(** The dtype of a column does not depend on the order of its rows. *)
Lemma object_values_perm (vs vs' : list cell) :
  Permutation vs vs' -> object_values vs = object_values vs'.
Proof.
  intros P. unfold object_values.
  rewrite (existsb_perm is_text _ _ P), (existsb_perm is_flag _ _ P),
    (forallb_perm is_flag _ _ P).
  destruct vs as [|v vs], vs' as [|v' vs']; try reflexivity.
  - apply Permutation_nil in P. discriminate.
  - apply Permutation_sym, Permutation_nil in P. discriminate.
Qed.

Section FirstView.
Variable upper : str -> str.
Variable isalpha : char -> bool.
Variable parse_float : str -> option Q.

Lemma coerce_numeric_get (c : string) (df : DataFrame) :
  c <> "AdjPts" -> c <> "ProjPts" -> c <> "ADP" ->
  map (get c) (rows (coerce_numeric parse_float df))
  = map (get c) (rows df).
Proof.
  intros H1 H2 H3.
  assert (Hstep : forall col d,
             c <> col ->
             map (get c)
                 (rows (if has_col col (columns d)
                        then map_column col (to_numeric parse_float) d
                        else d))
             = map (get c) (rows d)).
  { intros col d Hne. destruct (has_col col (columns d)); [|reflexivity].
    unfold map_column. cbn [rows]. rewrite map_map. apply map_ext.
    intros r. unfold get. cbn [cells].
    now rewrite assoc_map_other by congruence. }
  unfold coerce_numeric, coerced_columns. cbn [fold_left].
  now rewrite !Hstep.
Qed.

(** The Rank column of the loaded pool holds the cells of the file's,
    in pool order. *)
Lemma loaded_rank (raw df : DataFrame) (sk : string) :
  load_df parse_float raw = Ok (df, sk) ->
  has_col "Rank" (columns df) = has_col "Rank" (columns raw)
  /\ (has_col "Rank" (columns raw) = true ->
      numeric_col "Rank" df = numeric_col "Rank" raw).
Proof.
  intros L.
  destruct (load_df_values parse_float raw df sk L)
    as (_ & _ & _ & _ & Hcols & _ & Hvals).
  split.
  - rewrite Hcols, <- kept_has_rank. apply has_col_iff.
    rewrite in_app_iff. split; [|tauto].
    intros [H|H]; [exact H|]. exfalso. simpl in H. intuition discriminate.
  - intros Hrank. unfold numeric_col.
    change (has_col "Rank" coerced_columns) with false. cbv iota.
    rewrite (Hvals "Rank") by (simpl; intuition discriminate).
    f_equal. apply object_values_perm.
    eapply Permutation_trans;
      [apply Permutation_map, sort_rows_perm|].
    rewrite coerce_numeric_get by discriminate.
    rewrite (kept_get "Rank" raw); [reflexivity| |exact rename_map_rank
                                                 |exact Hrank].
    simpl. tauto.
Qed.

(** X16: the Rank column is not coerced.  When the file has a Rank
    column that is not numeric (some field of it is text, or the file
    has no row at all, so that pandas gives the column the dtype
    object), loading succeeds but the first overall view raises
    TypeError, and [main] ends before it reads a command; when the
    file has no Rank column, or a numeric one, the first view is
    computed. *)
Theorem rank_column_decides_first_view (raw df : DataFrame) (sk : string) :
  load_df parse_float raw = Ok (df, sk) ->
  (has_col "Rank" (columns raw) = true ->
   numeric_col "Rank" raw = false ->
   show_top upper df sk 3 None = Raise TypeError
   /\ forall inputs,
       main upper isalpha parse_float raw inputs = Some (Raise TypeError))
  /\ (has_col "Rank" (columns raw) = false
      \/ numeric_col "Rank" raw = true ->
      exists ev, show_top upper df sk 3 None = Ok [ev]
                 /\ is_view ev = true)
  /\ (rows raw = [] \/ existsb (fun r => is_text (get "Rank" r)) (rows raw)
                       = true ->
      numeric_col "Rank" raw = false).
Proof.
  intros L. destruct (loaded_rank raw df sk L) as [Hcol Hnum].
  split; [|split].
  3:{ unfold numeric_col.
      change (has_col "Rank" coerced_columns) with false. cbv iota.
      intros [-> | H]; [reflexivity|]. apply negb_false_iff.
      unfold object_values.
      assert (E : existsb is_text (map (get "Rank") (rows raw)) = true).
      { apply existsb_exists in H as (r & Hr & Tr).
        apply existsb_exists. exists (get "Rank" r).
        split; [now apply in_map | exact Tr]. }
      rewrite E. now destruct (map (get "Rank") (rows raw)). }
  - intros Hrank Htext.
    assert (Hs : show_top upper df sk 3 None = Raise TypeError).
    { unfold show_top, top_rows. cbn [truthy bind].
      rewrite Hcol, Hrank. unfold nsmallest, select_n.
      rewrite Hcol, Hrank. cbn [negb].
      replace (numeric_col "Rank" (mkDF (columns df) (rows df)))
        with (numeric_col "Rank" df) by now destruct df.
      now rewrite (Hnum Hrank), Htext. }
    split; [exact Hs|]. intros inputs. unfold main. now rewrite L, Hs.
  - intros H. apply rankable_overall. unfold rankable. rewrite Hcol.
    destruct (has_col "Rank" (columns raw)) eqn:Hrank.
    + rewrite (Hnum eq_refl). destruct H as [H|H]; [discriminate | exact H].
    + destruct (load_df_values parse_float raw df sk L)
        as (_ & _ & Hkcol & _ & Hcols & _ & _).
      apply andb_true_iff. split.
      * rewrite Hcols. apply has_col_In, in_or_app. left.
        now apply has_col_In.
      * now destruct (load_df_sort_key parse_float raw df sk L).
Qed.

(** X17: the columns [save] writes for a loaded pool are the display
    columns the file has, under their short names: a column is written
    exactly when it is one of Full Name, Position, Team, AdjPts,
    ProjPts, ADP, PosRank, Auc$, Rank and some column of the file is
    renamed to it; the name column and a points column are always
    among them, so the header has what [load_df] asks of a file. *)
Theorem saved_columns_are_the_display_columns (raw df : DataFrame)
    (sk : string) :
  load_df parse_float raw = Ok (df, sk) ->
  columns (save_table df) = columns (kept_frame raw)
  /\ (forall c, In c (columns (save_table df))
                <-> In c display_columns
                    /\ exists k, In k (columns raw)
                                 /\ rename_label rename_map k = c)
  /\ has_col "Full Name" (columns (save_table df)) = true
  /\ has_points (columns (save_table df)) = true.
Proof.
  intros L.
  destruct (load_df_values parse_float raw df sk L)
    as (Hk & _ & Hkcol & Hname & Hcols & _ & _).
  assert (Hpub : columns (save_table df) = columns (kept_frame raw)).
  { rewrite save_table_columns.
    unfold public_columns. rewrite Hcols, filter_app.
    change (filter _ ["__name_norm"; "__lname"; "__available"]) with
      (@nil string).
    rewrite app_nil_r. apply filter_all, Forall_forall. intros c Hc.
    apply kept_frame_columns in Hc as [Hd _].
    apply negb_true_iff, has_col_false. intros Hh.
    simpl in Hd, Hh. intuition congruence. }
  split; [exact Hpub|]. rewrite Hpub.
  split; [intros c; apply kept_frame_columns|]. split; [exact Hname|].
  unfold has_points. destruct Hk as [-> | ->]; rewrite Hkcol;
    now rewrite ?orb_true_r.
Qed.
End FirstView.

(** ** The argument of a command *)

Lemma dropwhile_nil (p : char -> bool) (s : str) :
  dropwhile p s = [] -> forallb p s = true.
Proof.
  induction s as [|c s IH]; cbn [dropwhile forallb]; [reflexivity|].
  destruct (p c); [exact IH | discriminate].
Qed.

Lemma dropwhile_head (p : char -> bool) (s : str) (c : char) (r : str) :
  dropwhile p s = c :: r -> p c = false.
Proof.
  induction s as [|x s IH]; cbn [dropwhile]; [discriminate|].
  destruct (p x) eqn:E; [exact IH|]. intros H. injection H as -> _.
  exact E.
Qed.

Lemma split_go_nonempty (s cur : str) : cur <> [] -> split_go s cur <> [].
Proof.
  revert cur. induction s as [|c s IH]; intros cur Hcur; cbn [split_go].
  - destruct cur; [contradiction | discriminate].
  - destruct (isspace c).
    + destruct cur; [contradiction | discriminate].
    + apply IH. now destruct cur.
Qed.

(** X18: the argument of a command is the text after its first word.
    [cmd.split(None, 1)[1].strip()] succeeds exactly when the line has at
    least two words; the words of the line are then its first word
    followed by the words of the argument, and the argument is not
    empty.  On a line of at most one word the expression raises
    IndexError. *)
Theorem after_first_word_words (cmd : str) :
  match after_first_word cmd with
  | Ok arg =>
      arg <> [] /\ split arg <> []
      /\ exists w, split cmd = w :: split arg
  | Raise e => e = IndexError /\ List.length (split cmd) <= 1
  end.
Proof.
  unfold after_first_word.
  set (p := fun c => negb (isspace c)).
  pose proof (takewhile_dropwhile p (lstrip cmd)) as Hs.
  pose proof (takewhile_all p (lstrip cmd)) as Htw.
  assert (Hsplit : split cmd
                   = split_go (dropwhile p (lstrip cmd))
                              (takewhile p (lstrip cmd))).
  { rewrite <- (split_lstrip cmd). rewrite <- Hs at 1. unfold split.
    now rewrite (split_go_token _ _ [] Htw). }
  destruct (dropwhile isspace (dropwhile p (lstrip cmd))) as [|x r] eqn:R.
  - split; [reflexivity|]. rewrite Hsplit.
    rewrite (split_go_spaces _ _ (dropwhile_nil isspace _ R)).
    destruct (takewhile p (lstrip cmd)); simpl; lia.
  - pose proof (dropwhile_head isspace _ x r R) as Hx.
    assert (Hrest : split (strip (x :: r)) <> []).
    { rewrite split_strip. unfold split. cbn [split_go]. rewrite Hx.
      now apply split_go_nonempty. }
    split; [intros E; now rewrite E in Hrest|]. split; [exact Hrest|].
    destruct (dropwhile p (lstrip cmd)) as [|c dw] eqn:D; [discriminate|].
    pose proof (dropwhile_head p _ c dw D) as Hc.
    apply negb_false_iff in Hc.
    destruct (takewhile p (lstrip cmd)) as [|a tw] eqn:T.
    + exfalso. cbn [app] in Hs. symmetry in Hs.
      apply (dropwhile_head isspace cmd c dw) in Hs. congruence.
    + exists (a :: tw). rewrite Hsplit. cbn [split_go]. rewrite Hc.
      cbn [emit]. f_equal. rewrite split_strip, <- R.
      cbn [dropwhile]. rewrite Hc.
      exact (eq_sym (split_lstrip dw)).
Qed.

Section Startup.
Variable upper : str -> str.
Variable isalpha : char -> bool.
Variable parse_float : str -> option Q.

(** A failed load ends [main] before any command is read. *)
Lemma main_stops_on_load_failure (raw : DataFrame) (e : exn)
    (inputs : list str) :
  load_df parse_float raw = Raise e ->
  main upper isalpha parse_float raw inputs = Some (Raise e).
Proof. intros H. unfold main. now rewrite H. Qed.

(** C3: loading raises ValueError whenever the file has neither points
    column, and KeyError whenever it has one, under unambiguous labels,
    but no name column; in both cases [main] stops there, whatever the
    console input.  A missing position column does not make loading
    fail: a file with a points column and a name column, unambiguous
    labels and text in every name field loads, into a well-formed pool
    that has a position column exactly when the file has one. *)
Theorem load_df_fails_without_points_or_name (raw : DataFrame) :
  (has_points (columns raw) = false ->
   load_df parse_float raw = Raise ValueError
   /\ forall inputs,
       main upper isalpha parse_float raw inputs = Some (Raise ValueError))
  /\ (has_points (columns raw) = true ->
      has_col "Full Name" (columns raw) = false ->
      unambiguous raw = true ->
      load_df parse_float raw = Raise (KeyError "Full Name")
      /\ forall inputs,
          main upper isalpha parse_float raw inputs
          = Some (Raise (KeyError "Full Name")))
  /\ (has_points (columns raw) = true ->
      has_col "Full Name" (columns raw) = true ->
      names_are_text raw = true -> unambiguous raw = true ->
      exists df sk,
        load_df parse_float raw = Ok (df, sk)
        /\ well_formed df = true
        /\ has_col "Position" (columns df)
           = has_col "Position" (columns raw)).
Proof.
  split; [|split].
  - intros Hpts.
    assert (H : load_df parse_float raw = Raise ValueError)
      by (now rewrite load_df_stages, sort_key_choice, Hpts).
    split; [exact H|]. intros inputs.
    now apply main_stops_on_load_failure.
  - intros Hpts Hname _.
    assert (H : load_df parse_float raw = Raise (KeyError "Full Name")).
    { rewrite load_df_stages, sort_key_choice, Hpts. cbn [bind]. cbv zeta.
      now rewrite sorted_frame_columns, kept_has_name, Hname. }
    split; [exact H|]. intros inputs.
    now apply main_stops_on_load_failure.
  - intros Hpts Hname Htext _.
    destruct (load_df_returns parse_float raw Hpts Hname Htext)
      as (df & sk & H).
    destruct (load_df_well_formed parse_float raw df sk H)
      as (H1 & _ & H2).
    now exists df, sk.
Qed.
End Startup.

(** ** Worked examples on the sample pool *)

Import Sample.
Import Cases.

Example normalize_drops_suffix :
  normalize_name (py "John Smith III") = normalize_name (py "John Smith").
Proof. reflexivity. Qed.

Example normalize_keeps_apostrophe :
  normalize_name (py "  Ja'Marr  Chase Jr. ") = py "ja'marr chase".
Proof. reflexivity. Qed.

Example sample_pool_well_formed :
  well_formed pool = true /\ reportable pool = true
  /\ rankable pool "AdjPts" = true.
Proof. repeat split; reflexivity. Qed.

(** Seven running backs qualify, five are shown, best first. *)
Example five_of_seven_backs :
  List.length (filter (fun r => is_available r
                                && position_is ascii_upper (py "RB") r)
                      (rows backs)) = 7
  /\ match top_rows ascii_upper backs "AdjPts" 5 (Some (py "RB")) with
     | Ok top => map (get "Full Name") top
                 = [VStr (py "Back Seven"); VStr (py "Back Six");
                    VStr (py "Back Five"); VStr (py "Back Four");
                    VStr (py "Back Three")]
     | Raise _ => False
     end.
Proof. split; vm_compute; reflexivity. Qed.

(** A position column of numbers is refused by the [.str] accessor. *)
Example position_view_needs_text :
  load_df no_parse raw_numbered = Ok (pool_numbered, "AdjPts")
  /\ top_rows ascii_upper pool_numbered "AdjPts" 5 (Some (py "RB"))
     = Raise AttributeError
  /\ top_rows ascii_upper pool_header_only "AdjPts" 5 (Some (py "RB"))
     = Ok [].
Proof. repeat split; reflexivity. Qed.

(** An empty name field makes the load fail although every column is
    there. *)
Example empty_name_fails :
  has_points (columns raw_empty_name) = true
  /\ has_col "Full Name" (columns raw_empty_name) = true
  /\ has_col "Position" (columns raw_empty_name) = true
  /\ load_df no_parse raw_empty_name = Raise TypeError.
Proof. repeat split; reflexivity. Qed.

(** With Aaron Jones drafted and on the history, "undo 0" pops nothing
    and still reports that there is nothing to undo; and when the entry
    popped names a player who is available, the entry leaves the stack,
    nothing is restored, and the same report is printed. *)
Lemma undo_reports_on_nonempty_history :
  match undo ascii_upper pool_without_ajones "AdjPts" [3] 0 with
  | Ok (df, h, evs) =>
      df = pool_without_ajones /\ h = [3] /\ In PrintNothingToUndo evs
  | Raise _ => False
  end
  /\ match undo ascii_upper pool "AdjPts" [3] 1 with
     | Ok (df, h, evs) => df = pool /\ h = [] /\ In PrintNothingToUndo evs
     | Raise _ => False
     end.
Proof. split; vm_compute; repeat split; now left. Qed.

Lemma undo_reports_witness :
  well_formed pool_without_ajones = true
  /\ match undo ascii_upper pool_without_ajones "AdjPts" [3; 3] 2 with
     | Ok (df', history', evs) =>
         history' = firstn (List.length [3; 3] - N.to_nat 2) [3; 3]
         /\ (In PrintNothingToUndo evs
             <-> forallb (fun i => negb (is_drafted i pool_without_ajones))
                         (popped [3; 3] 2) = true)
         /\ (In PrintNothingToUndo evs
             <-> forall a b c, ~ In (PrintRestored a b c) evs)
         /\ (In PrintNothingToUndo evs -> df' = pool_without_ajones)
         /\ ([3; 3] = [] \/ 2%N = 0%N -> In PrintNothingToUndo evs)
     | Raise e =>
         reportable pool_without_ajones = false
         \/ rankable pool_without_ajones "AdjPts" = false
     end.
Proof.
  split; [reflexivity|].
  apply (undo_reports_when_nothing_restored ascii_upper pool_without_ajones
           "AdjPts" [3; 3] 2).
  reflexivity.
Defined.

(** Patrick Mahomes is available and the only row whose normalised name
    contains "mahom", yet "mahom" matches nothing. *)
Lemma mahom_is_not_unique :
  In mahomes (rows pool) /\ is_available mahomes = true
  /\ get "Full Name" mahomes = VStr (py "Patrick Mahomes")
  /\ filter (fun r => is_available r && norm_contains (py "mahom") r)
            (rows pool) = [mahomes]
  /\ resolve ascii_isalpha pool (py "mahom") = NoMatch.
Proof. repeat split; try reflexivity. now left. Qed.

Lemma mahom_only_in_mahomes (r : Row) :
  In r (rows pool) -> is_available r = true ->
  norm_contains (py "mahom") r = true ->
  get "Full Name" r = VStr (py "Patrick Mahomes").
Proof.
  intros [<-|[<-|[<-|[<-|[<-|[]]]]]] _; vm_compute; intros H;
    congruence.
Qed.

Lemma mahom_witness :
  well_formed pool = true
  /\ norm_contains (py "mahom") mahomes = true
  /\ resolve ascii_isalpha pool (py "mahom") = NoMatch
  /\ resolve ascii_isalpha pool (py "patrick mahom") = Unique mahomes.
Proof.
  split; [reflexivity|].
  destruct (mahom_matches_nothing ascii_isalpha pool mahomes)
    as (H1 & H2 & H3);
    [reflexivity | now left | reflexivity | reflexivity
    | exact mahom_only_in_mahomes |].
  split; [exact H1 | split; [exact H2 | apply H3; reflexivity]].
Defined.

(** The file without a position column loads, and [main] reaches the end
    of its input. *)
Lemma load_succeeds_without_position :
  has_col "Position" (columns raw_no_position) = false
  /\ load_df no_parse raw_no_position = Ok (pool_no_position, "AdjPts")
  /\ main ascii_upper ascii_isalpha no_parse raw_no_position []
     = Some (Ok (pool_no_position, [],
                 [PrintLoaded 1; PrintCommands true;
                  PrintTop 3 None ["Full Name"; "AdjPts"]
                           [[VStr (py "Aaron Jones"); VNum 210]];
                  PrintBye])).
Proof. repeat split; reflexivity. Qed.

Lemma load_witness :
  (load_df no_parse raw_no_points = Raise ValueError
   /\ forall inputs,
       main ascii_upper ascii_isalpha no_parse raw_no_points inputs
       = Some (Raise ValueError))
  /\ exists df sk,
      load_df no_parse raw_no_position = Ok (df, sk)
      /\ well_formed df = true
      /\ has_col "Position" (columns df)
         = has_col "Position" (columns raw_no_position).
Proof.
  split.
  - apply (proj1 (load_df_fails_without_points_or_name
                    ascii_upper ascii_isalpha no_parse raw_no_points)).
    reflexivity.
  - apply (proj2 (proj2 (load_df_fails_without_points_or_name
                           ascii_upper ascii_isalpha no_parse
                           raw_no_position))); reflexivity.
Defined.

Lemma remove_then_undo_witness :
  well_formed pool = true
  /\ exists p evs,
      In p (rows pool) /\ is_available p = true
      /\ [3] = [] ++ [label p]
      /\ pool_without_ajones = set_loc (label p) "__available" (VBool false) pool
      /\ undo ascii_upper pool_without_ajones "AdjPts" [3] 1
         = Ok (pool, [], evs)
      /\ In (PrintRestored (get "Full Name" p) (get "Position" p)
                           (get "Team" p)) evs.
Proof.
  split; [reflexivity|].
  eapply (remove_then_undo_restores ascii_upper ascii_isalpha pool
            pool_without_ajones "AdjPts" [] [3] (py "aaron jones") [] []);
    [reflexivity | reflexivity | discriminate].
Defined.



(** With every player drafted, the query "jr iii" has a space, a letter
    and an empty normal form, and still comes back without a match. *)
Lemma suffix_query_matches_nobody_left :
  well_formed pool_all_drafted = true
  /\ has_char space (strip (py "jr iii")) = true
  /\ existsb ascii_isalpha (strip (py "jr iii")) = true
  /\ normalize_name (strip (py "jr iii")) = []
  /\ available_rows pool_all_drafted = []
  /\ resolve ascii_isalpha pool_all_drafted (py "jr iii") = NoMatch.
Proof. repeat split; reflexivity. Qed.

Lemma suffix_query_witness :
  well_formed pool = true
  /\ normalize_name (strip (py "jr iii")) = []
  /\ candidates ascii_isalpha pool (py "jr iii") = available_rows pool
  /\ resolve ascii_isalpha pool (py "jr iii") = Ambiguous (rows pool).
Proof.
  split; [reflexivity|]. split; [reflexivity|].
  destruct (empty_normal_form_matches_all ascii_isalpha pool (py "jr iii"))
    as (H1 & H2 & _); [reflexivity | reflexivity | reflexivity | reflexivity |].
  split; [exact H1 | exact H2].
Defined.

(** Pat O'Brien is available, with a last-name token that has an
    apostrophe, yet the query "o'brien" finds a player: Jim Obrien. *)
Lemma apostrophe_query_finds_another :
  In pat_obrien (rows pool) /\ is_available pat_obrien = true
  /\ get "__lname" pat_obrien = VStr (py "o'brien")
  /\ has_char apostrophe (py "o'brien") = true
  /\ resolve ascii_isalpha pool (py "o'brien") = Unique jim_obrien.
Proof. repeat split; try reflexivity. simpl. tauto. Qed.

Lemma apostrophe_witness :
  has_char space (strip (py "o'brien")) = false
  /\ ~ In pat_obrien (candidates ascii_isalpha pool (py "o'brien"))
  /\ ~ In pat_obrien (candidates ascii_isalpha pool_without_ajones
                                 (py "O'Brien")).
Proof.
  split; [reflexivity|]. split.
  - apply (apostrophe_surname_never_matched ascii_isalpha pool
             (py "o'brien") pat_obrien (py "o'brien"));
      [reflexivity | simpl; tauto | reflexivity | reflexivity].
  - apply (apostrophe_surname_never_matched ascii_isalpha
             pool_without_ajones (py "O'Brien") pat_obrien (py "o'brien"));
      [reflexivity | simpl; tauto | reflexivity | reflexivity].
Defined.

(** ** The extra properties on the sample data *)


Lemma ignores_case_witness :
  lower (py "Aaron JONES") = lower (py "aaron Jones")
  /\ normalize_name (py "Aaron JONES") = normalize_name (py "aaron Jones").
Proof.
  split; [reflexivity|].
  apply (normalize_name_ignores_case (py "Aaron JONES") (py "aaron Jones")).
  reflexivity.
Defined.

Lemma surname_witness :
  well_formed pool = true /\ is_available mahomes = true
  /\ lower (py "MaHomes") = last_name (py "Patrick Mahomes")
  /\ In mahomes (candidates ascii_isalpha pool (py "MaHomes"))
  /\ resolve ascii_isalpha pool (py "MaHomes") <> NoMatch.
Proof.
  split; [reflexivity|]. split; [reflexivity|]. split; [reflexivity|].
  apply (surname_finds_player ascii_isalpha pool mahomes
           (py "Patrick Mahomes") (py "MaHomes"));
    [reflexivity | now left | reflexivity | reflexivity | reflexivity
    | reflexivity].
Defined.

Lemma full_name_witness :
  well_formed pool = true /\ is_available ajones = true
  /\ lower (strip (py "  aaron JONES ")) = lower (strip (py "Aaron Jones"))
  /\ In ajones (candidates ascii_isalpha pool (py "  aaron JONES "))
  /\ resolve ascii_isalpha pool (py "  aaron JONES ") <> NoMatch
  /\ forall r, In r (candidates ascii_isalpha pool (py "  aaron JONES ")) ->
               norm_contains (normalize_name (py "Aaron Jones")) r = true.
Proof.
  split; [reflexivity|]. split; [reflexivity|]. split; [reflexivity|].
  apply (full_name_finds_player ascii_isalpha pool ajones
           (py "Aaron Jones") (py "  aaron JONES "));
    [reflexivity | simpl; tauto | reflexivity | reflexivity | reflexivity
    | reflexivity | reflexivity].
Defined.

Lemma prompt_witness :
  well_formed pool = true /\ reportable pool = true
  /\ forallb (invalid_selection 2)
             [py "x"; py "7"; py "0"; py "-1"; py "1.5"] = true
  /\ isdigit (strip (py " 2 ")) = true
  /\ int_of (strip (py " 2 ")) = Ok 2%N
  /\ exists r,
      nth_error [djones; ajones] (N.to_nat 2 - 1) = Some r
      /\ prompt pool [djones; ajones]
                ([py "x"; py "7"; py "0"; py "-1"; py "1.5"]
                 ++ py " 2 " :: [py "top"])
         = Ok (set_loc (label r) "__available" (VBool false) pool, label r,
               map correction [py "x"; py "7"; py "0"; py "-1"; py "1.5"]
               ++ [PrintRemoved (get "Full Name" r) (get "Position" r)
                                (get "Team" r)],
               [py "top"]).
Proof.
  split; [reflexivity|]. split; [reflexivity|]. split; [reflexivity|].
  split; [reflexivity|]. split; [reflexivity|].
  apply (prompt_takes_first_valid_line pool [djones; ajones]
           [py "x"; py "7"; py "0"; py "-1"; py "1.5"] (py " 2 ") 2
           [py "top"]);
    [reflexivity | reflexivity | | reflexivity | reflexivity | reflexivity
    | split; [discriminate | discriminate]].
  intros r Hr. simpl in Hr. simpl. tauto.
Defined.

Lemma unanswered_prompt_witness :
  resolve ascii_isalpha pool (py "jones") = Ambiguous [djones; ajones]
  /\ forallb (invalid_selection 2) [py "x"; py "3"] = true
  /\ refused_by_int [178%N] = true
  /\ prompt pool [djones; ajones] [py "x"; py "3"] = Raise EOFError
  /\ mark_drafted ascii_isalpha pool (py "jones") [py "x"; py "3"]
     = Raise EOFError
  /\ forall line rest,
      refused_by_int line = true ->
      mark_drafted ascii_isalpha pool (py "jones")
                   ([py "x"; py "3"] ++ line :: rest)
      = Raise ValueError.
Proof.
  split; [reflexivity|]. split; [reflexivity|]. split; [reflexivity|].
  apply (ambiguous_query_needs_an_answer ascii_isalpha pool (py "jones")
           [djones; ajones] [py "x"; py "3"]); reflexivity.
Defined.

Lemma one_player_witness :
  well_formed pool = true
  /\ mark_drafted ascii_isalpha pool (py "aaron jones") []
     = Ok (pool_without_ajones, Some 3,
           [PrintRemoved (get "Full Name" ajones) (get "Position" ajones)
                         (get "Team" ajones)], [])
  /\ S (List.length (available_rows pool_without_ajones))
     = List.length (available_rows pool)
  /\ columns pool_without_ajones = columns pool
  /\ map label (rows pool_without_ajones) = map label (rows pool)
  /\ (forall r, In r (available_rows pool_without_ajones) ->
                In r (available_rows pool))
  /\ exists p, In p (available_rows pool) /\ label p = 3
               /\ ~ In p (available_rows pool_without_ajones).
Proof.
  split; [reflexivity|]. split; [reflexivity|].
  apply (mark_drafted_takes_one_player ascii_isalpha pool
           pool_without_ajones (py "aaron jones") [] [] (Some 3)
           [PrintRemoved (get "Full Name" ajones) (get "Position" ajones)
                         (get "Team" ajones)]);
    reflexivity.
Defined.

Lemma undo_latest_witness :
  well_formed pool_without_ajones = true
  /\ tracked pool_without_ajones [3] = true
  /\ exists evs,
      undo ascii_upper pool_without_ajones "AdjPts" [3] 1
      = Ok (pool, [], evs)
      /\ tracked pool [] = true
      /\ List.length (drafted_rows pool) + Nat.min (N.to_nat 1) 1
         = List.length (drafted_rows pool_without_ajones)
      /\ (In PrintNothingToUndo evs <-> [3] = [] \/ 1%N = 0%N).
Proof.
  split; [reflexivity|]. split; [reflexivity|].
  eexists. split; [reflexivity|].
  refine (proj2 (undo_restores_the_latest ascii_upper pool_without_ajones
                   pool "AdjPts" [3] [] 1 _ _ _ _));
    reflexivity.
Defined.

Lemma history_witness :
  exists out,
    main ascii_upper ascii_isalpha no_parse raw session
    = Some (Ok (pool_without_ajones, [3], out))
    /\ well_formed pool_without_ajones = true
    /\ NoDup [3]
    /\ (forall r, In r (rows pool_without_ajones) ->
                  (is_available r = false <-> In (label r) [3]))
    /\ (forall i, In i [3] -> in_index i pool_without_ajones = true)
    /\ List.length (drafted_rows pool_without_ajones) = List.length [3].
Proof.
  eexists. split; [reflexivity|].
  refine (history_lists_the_drafted ascii_upper ascii_isalpha no_parse raw
            session pool_without_ajones [3] _ _).
  reflexivity.
Defined.

Lemma toggles_witness :
  load_df no_parse raw = Ok (pool, "AdjPts")
  /\ exists out,
      main ascii_upper ascii_isalpha no_parse raw session
      = Some (Ok (pool_without_ajones, [3], out))
      /\ same_players pool pool_without_ajones
      /\ List.length (rows pool_without_ajones) = List.length (rows raw)
      /\ forall c, c <> "__available" ->
                   map (get c) (rows pool_without_ajones)
                   = map (get c) (rows pool).
Proof.
  split; [reflexivity|]. eexists. split; [reflexivity|].
  refine (main_only_toggles_availability ascii_upper ascii_isalpha no_parse
            raw session pool pool_without_ajones "AdjPts" [3] _ _ _);
    reflexivity.
Defined.

Lemma overall_view_witness :
  top_rows ascii_upper pool "AdjPts" 3 None
  = Ok [mahomes; jim_obrien; ajones]
  /\ exists rest,
      Permutation ([mahomes; jim_obrien; ajones] ++ rest)
                  (available_rows pool)
      /\ List.length [mahomes; jim_obrien; ajones]
         = Nat.min 3 (List.length (available_rows pool))
      /\ (has_col "Rank" (columns pool) = true ->
          StronglySorted (not_after precedes_asc "Rank")
                         ([mahomes; jim_obrien; ajones] ++ rest)
          /\ forall a b, In a [mahomes; jim_obrien; ajones] -> In b rest ->
                         not_after precedes_asc "Rank" a b)
      /\ (has_col "Rank" (columns pool) = false ->
          StronglySorted (not_after precedes_desc "AdjPts")
                         ([mahomes; jim_obrien; ajones] ++ rest)
          /\ forall a b, In a [mahomes; jim_obrien; ajones] -> In b rest ->
                         not_after precedes_desc "AdjPts" a b).
Proof.
  split; [reflexivity|].
  apply (overall_view_lists_the_best ascii_upper pool "AdjPts" 3
           [mahomes; jim_obrien; ajones]).
  reflexivity.
Defined.

Lemma position_view_witness :
  top_rows ascii_upper pool "AdjPts" 5 (Some (py "qb"))
  = Ok [mahomes; djones]
  /\ List.length [mahomes; djones]
     = Nat.min 5 (List.length (filter (position_is ascii_upper (py "qb"))
                                      (available_rows pool)))
  /\ exists rest,
      Permutation ([mahomes; djones] ++ rest)
                  (filter (position_is ascii_upper (py "qb"))
                          (available_rows pool))
      /\ StronglySorted (not_after precedes_desc "AdjPts")
                        ([mahomes; djones] ++ rest)
      /\ forall a b, In a [mahomes; djones] -> In b rest ->
                     not_after precedes_desc "AdjPts" a b.
Proof.
  split; [reflexivity|].
  apply (position_view_lists_the_best ascii_upper pool "AdjPts" 5 (py "qb")
           [mahomes; djones]); [discriminate | reflexivity].
Defined.

Lemma pool_witness :
  load_df no_parse raw = Ok (pool, "AdjPts")
  /\ map label (rows pool) = seq 0 (List.length (rows raw))
  /\ forallb is_available (rows pool) = true
  /\ "AdjPts" = (if has_col "Adjusted Projected Points" (columns raw)
                    || has_col "AdjPts" (columns raw)
                 then "AdjPts" else "ProjPts")
  /\ has_col "AdjPts" (columns pool) = true
  /\ numeric_col "AdjPts" pool = true
  /\ forallb (fun r => no_text (get "AdjPts" r)) (rows pool) = true
  /\ StronglySorted (not_after precedes_desc "AdjPts") (rows pool).
Proof.
  split; [reflexivity|].
  apply (load_df_builds_the_pool no_parse raw pool "AdjPts").
  reflexivity.
Defined.

Lemma first_view_witness :
  load_df no_parse raw_text_rank = Ok (pool_text_rank, "AdjPts")
  /\ load_df no_parse raw_header_only = Ok (pool_header_only, "AdjPts")
  /\ numeric_col "Rank" raw_text_rank = false
  /\ numeric_col "Rank" raw_header_only = false
  /\ show_top ascii_upper pool_text_rank "AdjPts" 3 None = Raise TypeError
  /\ (forall inputs,
         main ascii_upper ascii_isalpha no_parse raw_text_rank inputs
         = Some (Raise TypeError))
  /\ (forall inputs,
         main ascii_upper ascii_isalpha no_parse raw_header_only inputs
         = Some (Raise TypeError))
  /\ exists ev, show_top ascii_upper pool "AdjPts" 3 None = Ok [ev]
                /\ is_view ev = true.
Proof.
  split; [reflexivity|]. split; [reflexivity|]. split; [reflexivity|].
  split; [reflexivity|].
  destruct (rank_column_decides_first_view ascii_upper ascii_isalpha
              no_parse raw_text_rank pool_text_rank "AdjPts" eq_refl)
    as (H & _ & _).
  destruct (H eq_refl eq_refl) as [H1 H2].
  destruct (rank_column_decides_first_view ascii_upper ascii_isalpha
              no_parse raw_header_only pool_header_only "AdjPts" eq_refl)
    as (H' & _ & _).
  destruct (H' eq_refl eq_refl) as [_ H3].
  split; [exact H1|]. split; [exact H2|]. split; [exact H3|].
  apply (proj1 (proj2 (rank_column_decides_first_view ascii_upper
                         ascii_isalpha no_parse raw pool "AdjPts"
                         eq_refl))).
  right. reflexivity.
Defined.

Lemma saved_columns_witness :
  load_df no_parse raw = Ok (pool, "AdjPts")
  /\ columns (save_table pool) = columns (kept_frame raw)
  /\ (forall c, In c (columns (save_table pool))
                <-> In c display_columns
                    /\ exists k, In k (columns raw)
                                 /\ rename_label rename_map k = c)
  /\ has_col "Full Name" (columns (save_table pool)) = true
  /\ has_points (columns (save_table pool)) = true.
Proof.
  split; [reflexivity|].
  apply (saved_columns_are_the_display_columns no_parse raw pool "AdjPts").
  reflexivity.
Defined.
